(** * Image gallery (script.js): a shallow embedding and its properties

    The gallery script keeps its state in module-level variables and in
    the DOM.  The embedding below threads one [State] record through
    every function of the script; the fields are the script's variables
    and the DOM properties the script reads or writes.

    Conventions.
    - JavaScript strings are modelled as [string], one character per
      code unit, restricted to code units below 256 (the shipped
      catalog and its ids are ASCII).
    - JavaScript integers (indices, counters, popularity, time values)
      are modelled as [Z]; every arithmetic result in the script stays
      far below 2^53, where doubles are exact.
    - [Array.prototype.sort] is modelled by a stable insertion sort:
      ECMAScript (2019 and later) requires the sort to be stable, and
      for a consistent comparator the stable sorted arrangement is
      unique. *)

From Stdlib Require Import ZArith String Ascii List Sorting Permutation Lia Bool.
From stdpp Require Import base option list strings pretty gmap.

Set Warnings "-register-all".

Local Open Scope string_scope.
Local Open Scope list_scope.
Local Open Scope Z_scope.

(* ===================================================================== *)
(** * Definitions *)
(* ===================================================================== *)

(** ** Strings of the host language *)

(** [String.prototype.toLowerCase] on code units below 256: the ASCII
    capitals and the Latin-1 capitals (U+00C0..U+00DE except the
    multiplication sign U+00D7) move up by 32. *)
Definition lowerChar (c : ascii) : ascii :=
  let n := N_of_ascii c in
  if ((65 <=? n) && (n <=? 90))%N then ascii_of_N (n + 32)
  else if ((192 <=? n) && (n <=? 222) && negb (n =? 215))%N then ascii_of_N (n + 32)
  else c.

Fixpoint toLowerCase (s : string) : string :=
  match s with
  | EmptyString => EmptyString
  | String c s' => String (lowerChar c) (toLowerCase s')
  end.

(** White space and line terminators removed by [String.prototype.trim],
    among code units below 256: TAB, LF, VT, FF, CR, SPACE, NBSP. *)
Definition isWhiteSpace (c : ascii) : bool :=
  let n := N_of_ascii c in
  ((9 <=? n) && (n <=? 13) || (n =? 32) || (n =? 160))%N.

Fixpoint trimStart (s : string) : string :=
  match s with
  | EmptyString => EmptyString
  | String c s' => if isWhiteSpace c then trimStart s' else s
  end.

Fixpoint trimEnd (s : string) : string :=
  match s with
  | EmptyString => EmptyString
  | String c s' =>
      match trimEnd s' with
      | EmptyString => if isWhiteSpace c then EmptyString else String c EmptyString
      | t => String c t
      end
  end.

Definition trim (s : string) : string := trimEnd (trimStart s).

(** [s.includes(q)]: [q] occurs in [s] at some position. *)
Fixpoint includes (s q : string) : bool :=
  String.prefix q s ||
  match s with
  | EmptyString => false
  | String _ s' => includes s' q
  end.

(** ** The catalog *)

Record ImageRecord := mkImage {
  id : string;
  title : string;
  description : string;
  category : string;
  url : string;
  date : string;
  popularity : Z
}.

Definition IMAGES : list ImageRecord := [
  mkImage "1" "Misty Forest" "Morning mist in evergreen forest." "nature" "image/photo1.avif" "2024-11-05" 80;
  mkImage "2" "Desert Road" "Lonely road through sand dunes." "travel" "image/photo2.avif" "2025-01-12" 54;
  mkImage "3" "City Sunrise" "Sunrise hitting skyscrapers." "architecture" "image/photo3.avif" "2023-08-21" 120;
  mkImage "4" "Street Food Cart" "Spicy evening snacks." "food" "image/photo4.avif" "2024-02-10" 63;
  mkImage "5" "Mountain Lake" "Crystal lake reflection." "nature" "image/photo5.avif" "2025-03-03" 145;
  mkImage "6" "Vintage Train" "Old steam engine at station." "travel" "image/photo6.avif" "2022-12-01" 42;
  mkImage "7" "Smiling Child" "Candid street portrait." "people" "image/photo7.avif" "2024-06-18" 99;
  mkImage "8" "Blueberry Tart" "Fresh dessert close-up." "food" "image/photo8.avif" "2025-05-02" 77;
  mkImage "9" "Old Bridge" "Historic stone bridge." "architecture" "image/photo9.avif" "2023-10-10" 58;
  mkImage "10" "Coastal Cliffs" "Waves crash on cliffs." "nature" "image/photo10.avif" "2025-07-08" 200;
  mkImage "11" "Neon Alley" "Nightlife in the city." "travel" "image/photo11.avif" "2024-09-09" 88;
  mkImage "12" "Portrait in Window Light" "Soft natural light portrait." "people" "image/photo12.avif" "2023-05-06" 110;
  mkImage "13" "Rooftop Cafe" "Coffee with city view." "travel" "image/photo13.avif" "2025-02-14" 67;
  mkImage "14" "Autumn Path" "Leaves on a quiet path." "nature" "image/photo14.avif" "2022-10-11" 47;
  mkImage "15" "Modern Lobby" "Minimal building lobby." "architecture" "image/photo15.avif" "2025-06-25" 33;
  mkImage "16" "Festival Crowd" "Joyful packed crowd." "people" "image/photo16.avif" "2024-12-30" 95;
  mkImage "17" "Pasta Delight" "Creamy pasta close-up." "food" "image/photo17.avif" "2025-04-15" 71;
  mkImage "18" "Foggy Pier" "Pier vanishing into fog." "travel" "image/photo18.avif" "2021-11-21" 29;
  mkImage "19" "Golden Fields" "Harvest fields at dusk." "nature" "image/photo19.avif" "2024-08-30" 60;
  mkImage "20" "Glass Tower" "Reflections on glass facade." "architecture" "image/photo20.avif" "2025-08-03" 125
].

Definition PAGE_SIZE : Z := 8.

(** ** Dates

    [new Date(s)] for the date-only ISO form [YYYY-MM-DD], the form of
    every catalog entry: the time value is UTC midnight of that day in
    milliseconds since the epoch; a string that is not a calendar date
    of this form gives an invalid date, whose time value is NaN
    ([None]).  Other forms that an engine may accept are not modelled;
    the ordering theorems assume that the dates at hand parse. *)

Definition digitValue (c : ascii) : option Z :=
  let n := N_of_ascii c in
  if ((48 <=? n) && (n <=? 57))%N then Some (Z.of_N n - 48) else None.

Definition isLeapYear (y : Z) : bool :=
  (y mod 4 =? 0) && (negb (y mod 100 =? 0) || (y mod 400 =? 0)).

Definition daysInMonth (y m : Z) : Z :=
  if m =? 2 then (if isLeapYear y then 29 else 28)
  else if (m =? 4) || (m =? 6) || (m =? 9) || (m =? 11) then 30
  else 31.

(** Days between 1970-01-01 and the civil date [y]-[m]-[d]. *)
Definition daysFromCivil (y m d : Z) : Z :=
  let y' := if m <=? 2 then y - 1 else y in
  let era := y' / 400 in
  let yoe := y' - era * 400 in
  let mp := if m >? 2 then m - 3 else m + 9 in
  let doy := (153 * mp + 2) / 5 + d - 1 in
  let doe := yoe * 365 + yoe / 4 - yoe / 100 + doy in
  era * 146097 + doe - 719468.

Definition msPerDay : Z := 86400000.

Definition parseDate (s : string) : option Z :=
  match list_ascii_of_string s with
  | [y1; y2; y3; y4; sep1; m1; m2; sep2; d1; d2] =>
      if Ascii.eqb sep1 "-" && Ascii.eqb sep2 "-" then
        a ← digitValue y1; b ← digitValue y2; c ← digitValue y3; e ← digitValue y4;
        f ← digitValue m1; g ← digitValue m2;
        h ← digitValue d1; i ← digitValue d2;
        let y := 1000 * a + 100 * b + 10 * c + e in
        let m := 10 * f + g in
        let d := 10 * h + i in
        if (1 <=? m) && (m <=? 12) && (1 <=? d) && (d <=? daysInMonth y m)
        then Some (daysFromCivil y m d * msPerDay)
        else None
      else None
  | _ => None
  end.

(** The time value of a record's date, 0 standing in for NaN where
    the date is invalid (used only where dates are known to parse). *)
Definition timeValue (r : ImageRecord) : Z := default 0 (parseDate (date r)).

(** ** The host's collation

    [String.prototype.localeCompare] depends on the engine's locale
    data; it is an interface of the host, with the script as client. *)
Class Collator := { localeCompare : string → string → Z }.

(** A collation is consistent when it orders strings as a total
    preorder, which is what ECMAScript requires of [localeCompare]. *)
Class ConsistentCollator `{Collator} : Prop := {
  collate_total : ∀ a b, 0 < localeCompare a b → localeCompare b a < 0;
  collate_trans : ∀ a b c,
    localeCompare a b <= 0 → localeCompare b c <= 0 → localeCompare a c <= 0
}.

(** Comparison by code units, the collation of an engine without
    locale data; used to run the model. *)
Fixpoint codeUnitCompare (a b : string) : Z :=
  match a, b with
  | EmptyString, EmptyString => 0
  | EmptyString, String _ _ => -1
  | String _ _, EmptyString => 1
  | String x a', String y b' =>
      let nx := Z.of_N (N_of_ascii x) in
      let ny := Z.of_N (N_of_ascii y) in
      if nx <? ny then -1 else if ny <? nx then 1 else codeUnitCompare a' b'
  end.

Definition codeUnitCollator : Collator := {| localeCompare := codeUnitCompare |}.

(** ** Filter/sort engine (applyFiltersSearchSort) *)

(** The callback of [IMAGES.filter]. *)
Definition matchesCategory (activeCategory : string) (img : ImageRecord) : bool :=
  if String.eqb activeCategory "all" then true
  else String.eqb (category img) activeCategory.

Definition searchText (img : ImageRecord) : string :=
  toLowerCase (title img +:+ " " +:+ description img +:+ " " +:+ category img).

Definition matchesSearch (query : string) (img : ImageRecord) : bool :=
  if String.eqb query "" then true else includes (searchText img) query.

Definition filterPredicate (activeCategory query : string) (img : ImageRecord) : bool :=
  matchesCategory activeCategory img && matchesSearch query img.

(** The predicate as the specification words it, for comparison with
    [filterPredicate]: the query is looked for in the concatenation of
    title, description and category. *)
Definition specSearchText (img : ImageRecord) : string :=
  toLowerCase (title img +:+ description img +:+ category img).

Definition specFilterPredicate (activeCategory query : string) (img : ImageRecord) : bool :=
  matchesCategory activeCategory img &&
  (if String.eqb query "" then true else includes (specSearchText img) query).

(** Subtraction of two time values; NaN ([None]) when either date is
    invalid. *)
Definition dateDiff (x y : ImageRecord) : option Z :=
  tx ← parseDate (date x); ty ← parseDate (date y); Some (tx - ty).

(** The comparator passed to [filteredList.sort]. *)
Definition compareFn `{Collator} (sortBy : string) (a b : ImageRecord) : option Z :=
  if String.eqb sortBy "newest" then dateDiff b a
  else if String.eqb sortBy "oldest" then dateDiff a b
  else if String.eqb sortBy "popular" then Some (popularity b - popularity a)
  else if String.eqb sortBy "name" then Some (localeCompare (title a) (title b))
  else Some 0.

(** [SortCompare] of ECMAScript: a NaN result of the comparator counts
    as +0. *)
Definition sortCompare {A} (cmp : A → A → option Z) (x y : A) : Z :=
  match cmp x y with
  | Some v => v
  | None => 0
  end.

Fixpoint sortInsert {A} (cmp : A → A → option Z) (x : A) (l : list A) : list A :=
  match l with
  | [] => [x]
  | y :: l' =>
      if sortCompare cmp x y <=? 0 then x :: y :: l'
      else y :: sortInsert cmp x l'
  end.

(** [Array.prototype.sort] with a comparator (stable). *)
Fixpoint arraySort {A} (cmp : A → A → option Z) (l : list A) : list A :=
  match l with
  | [] => []
  | x :: l' => sortInsert cmp x (arraySort cmp l')
  end.

(** The list computed by [applyFiltersSearchSort] from the catalog, the
    active category, the text of the search field and the value of the
    sort selector. *)
Definition filterSort `{Collator} (catalog : list ImageRecord)
    (activeCategory searchValue sortBy : string) : list ImageRecord :=
  let query := toLowerCase (trim searchValue) in
  arraySort (compareFn sortBy)
    (List.filter (filterPredicate activeCategory query) catalog).

(** ** Arrays and sets of the host language *)

(** [a[i]] for an integer [i]: [undefined] ([None]) outside the array. *)
Definition arrayGet {A} (l : list A) (i : Z) : option A :=
  if i <? 0 then None else l !! Z.to_nat i.

(** [Array.prototype.slice(start, end)]: negative arguments count from
    the end, and both are clamped to the array. *)
Definition slice {A} (l : list A) (start end_ : Z) : list A :=
  let len := Z.of_nat (length l) in
  let k := if start <? 0 then Z.max (len + start) 0 else Z.min start len in
  let final := if end_ <? 0 then Z.max (len + end_) 0 else Z.min end_ len in
  take (Z.to_nat (final - k)) (drop (Z.to_nat k) l).

(** [Array.prototype.findIndex], with -1 when no element qualifies. *)
Fixpoint findIndexFrom {A} (p : A → bool) (l : list A) (i : Z) : Z :=
  match l with
  | [] => -1
  | x :: l' => if p x then i else findIndexFrom p l' (i + 1)
  end.

Definition findIndex {A} (p : A → bool) (l : list A) : Z := findIndexFrom p l 0.

(** A [Set] of strings is the list of its members in insertion order. *)
Definition setHas (s : list string) (x : string) : bool :=
  existsb (String.eqb x) s.

Definition setAdd (s : list string) (x : string) : list string :=
  if setHas s x then s else s ++ [x].

Definition setDelete (s : list string) (x : string) : list string :=
  List.filter (λ y, negb (String.eqb x y)) s.

(** The set after the membership of [imgId] has been flipped, as the
    two branches of [toggleFavorite] do. *)
Definition toggled (favs : list string) (imgId : string) : list string :=
  if setHas favs imgId then setDelete favs imgId else setAdd favs imgId.

(** ** JSON text of an array of strings ([JSON.stringify]) *)

Definition hexDigit (n : N) : ascii :=
  if (n <? 10)%N then ascii_of_N (48 + n) else ascii_of_N (87 + n).

(** [QuoteJSONString], one code unit. *)
Definition quoteChar (c : ascii) : string :=
  let n := N_of_ascii c in
  if (n =? 34)%N then String "\" (String "034" EmptyString)
  else if (n =? 92)%N then String "\" (String "\" EmptyString)
  else if (n =? 8)%N then "\b"
  else if (n =? 12)%N then "\f"
  else if (n =? 10)%N then "\n"
  else if (n =? 13)%N then "\r"
  else if (n =? 9)%N then "\t"
  else if (n <? 32)%N then
    "\u00" +:+ String (hexDigit (n / 16)) (String (hexDigit (n mod 16)) EmptyString)
  else String c EmptyString.

Fixpoint quoteBody (s : string) : string :=
  match s with
  | EmptyString => EmptyString
  | String c s' => quoteChar c +:+ quoteBody s'
  end.

Definition quoteJSONString (s : string) : string :=
  String "034" (quoteBody s +:+ String "034" EmptyString).

Definition JSON_stringify (l : list string) : string :=
  "[" +:+ String.concat "," (map quoteJSONString l) +:+ "]".

(** ** The page *)

(** The markup the script writes into its buttons. *)
Inductive Icon :=
  | IconHeartSolid      (* fas fa-heart *)
  | IconHeartRegular    (* far fa-heart *)
  | IconPlay            (* fas fa-play *)
  | IconPause           (* fas fa-pause *)
  | IconFromMarkup.     (* whatever the page's markup put there *)

(** A child of the gallery element: an item built by
    [createGalleryItem], with the index it opens and the markup of its
    favorite button, or the paragraph shown when nothing matches. *)
Inductive GalleryNode :=
  | GalleryItem (img : ImageRecord) (indexAbsolute : Z) (favBtn : Icon)
  | NoImagesFound.

(** A child of the favorites list of the sidebar. *)
Inductive SidebarNode :=
  | FavoritesItem (imgData : ImageRecord)
  | NoFavoritesYet.

(** What a pending timer runs when it fires. *)
Inductive TimerCallback :=
  | SlideshowTick       (* setInterval of startSlideshow *)
  | SearchDebounce.     (* setTimeout of the search field *)

Record State := mkState {
  (** Variables of the script. *)
  currentPage : Z;
  filteredList : list ImageRecord;
  activeCategory : string;
  favorites : list string;
  slideshowInterval : option Z;
  currentIndex : Z;
  (** The debounce handle captured by the search field's listener. *)
  searchDeb : option Z;
  (** Properties of the page's elements that the script reads or writes. *)
  searchInput_value : string;
  sortSelect_value : string;
  galleryEl : list GalleryNode;
  loadMoreBtn_display : string;
  loadingSpinner_display : string;
  lightbox_active : bool;
  lightboxImage_src : string;
  lightboxImage_alt : string;
  lightboxTitle_text : string;
  lightboxDescription_text : string;
  imageCounter_text : string;
  favoriteBtn_active : bool;
  favoriteBtn_icon : Icon;
  slideshowBtn_active : bool;
  slideshowBtn_icon : Icon;
  favoritesList : list SidebarNode;
  favoriteCount_text : string;
  (** The host: durable storage and the table of pending timers. *)
  localStorage : gmap string string;
  timers : gmap Z TimerCallback;
  nextTimer : Z
}.

(** Field updates: [set_f v st] is [st] with field [f] replaced by [v]. *)
Definition set_currentPage (v : Z) (st : State) : State :=
  mkState v (filteredList st) (activeCategory st) (favorites st)
    (slideshowInterval st) (currentIndex st) (searchDeb st)
    (searchInput_value st) (sortSelect_value st) (galleryEl st)
    (loadMoreBtn_display st) (loadingSpinner_display st) (lightbox_active st)
    (lightboxImage_src st) (lightboxImage_alt st) (lightboxTitle_text st)
    (lightboxDescription_text st) (imageCounter_text st)
    (favoriteBtn_active st) (favoriteBtn_icon st) (slideshowBtn_active st)
    (slideshowBtn_icon st) (favoritesList st) (favoriteCount_text st)
    (localStorage st) (timers st) (nextTimer st).
Definition set_filteredList (v : list ImageRecord) (st : State) : State :=
  mkState (currentPage st) v (activeCategory st) (favorites st)
    (slideshowInterval st) (currentIndex st) (searchDeb st)
    (searchInput_value st) (sortSelect_value st) (galleryEl st)
    (loadMoreBtn_display st) (loadingSpinner_display st) (lightbox_active st)
    (lightboxImage_src st) (lightboxImage_alt st) (lightboxTitle_text st)
    (lightboxDescription_text st) (imageCounter_text st)
    (favoriteBtn_active st) (favoriteBtn_icon st) (slideshowBtn_active st)
    (slideshowBtn_icon st) (favoritesList st) (favoriteCount_text st)
    (localStorage st) (timers st) (nextTimer st).
Definition set_activeCategory (v : string) (st : State) : State :=
  mkState (currentPage st) (filteredList st) v (favorites st)
    (slideshowInterval st) (currentIndex st) (searchDeb st)
    (searchInput_value st) (sortSelect_value st) (galleryEl st)
    (loadMoreBtn_display st) (loadingSpinner_display st) (lightbox_active st)
    (lightboxImage_src st) (lightboxImage_alt st) (lightboxTitle_text st)
    (lightboxDescription_text st) (imageCounter_text st)
    (favoriteBtn_active st) (favoriteBtn_icon st) (slideshowBtn_active st)
    (slideshowBtn_icon st) (favoritesList st) (favoriteCount_text st)
    (localStorage st) (timers st) (nextTimer st).
Definition set_favorites (v : list string) (st : State) : State :=
  mkState (currentPage st) (filteredList st) (activeCategory st) v
    (slideshowInterval st) (currentIndex st) (searchDeb st)
    (searchInput_value st) (sortSelect_value st) (galleryEl st)
    (loadMoreBtn_display st) (loadingSpinner_display st) (lightbox_active st)
    (lightboxImage_src st) (lightboxImage_alt st) (lightboxTitle_text st)
    (lightboxDescription_text st) (imageCounter_text st)
    (favoriteBtn_active st) (favoriteBtn_icon st) (slideshowBtn_active st)
    (slideshowBtn_icon st) (favoritesList st) (favoriteCount_text st)
    (localStorage st) (timers st) (nextTimer st).
Definition set_slideshowInterval (v : option Z) (st : State) : State :=
  mkState (currentPage st) (filteredList st) (activeCategory st)
    (favorites st) v (currentIndex st) (searchDeb st) (searchInput_value st)
    (sortSelect_value st) (galleryEl st) (loadMoreBtn_display st)
    (loadingSpinner_display st) (lightbox_active st) (lightboxImage_src st)
    (lightboxImage_alt st) (lightboxTitle_text st)
    (lightboxDescription_text st) (imageCounter_text st)
    (favoriteBtn_active st) (favoriteBtn_icon st) (slideshowBtn_active st)
    (slideshowBtn_icon st) (favoritesList st) (favoriteCount_text st)
    (localStorage st) (timers st) (nextTimer st).
Definition set_currentIndex (v : Z) (st : State) : State :=
  mkState (currentPage st) (filteredList st) (activeCategory st)
    (favorites st) (slideshowInterval st) v (searchDeb st)
    (searchInput_value st) (sortSelect_value st) (galleryEl st)
    (loadMoreBtn_display st) (loadingSpinner_display st) (lightbox_active st)
    (lightboxImage_src st) (lightboxImage_alt st) (lightboxTitle_text st)
    (lightboxDescription_text st) (imageCounter_text st)
    (favoriteBtn_active st) (favoriteBtn_icon st) (slideshowBtn_active st)
    (slideshowBtn_icon st) (favoritesList st) (favoriteCount_text st)
    (localStorage st) (timers st) (nextTimer st).
Definition set_searchDeb (v : option Z) (st : State) : State :=
  mkState (currentPage st) (filteredList st) (activeCategory st)
    (favorites st) (slideshowInterval st) (currentIndex st) v
    (searchInput_value st) (sortSelect_value st) (galleryEl st)
    (loadMoreBtn_display st) (loadingSpinner_display st) (lightbox_active st)
    (lightboxImage_src st) (lightboxImage_alt st) (lightboxTitle_text st)
    (lightboxDescription_text st) (imageCounter_text st)
    (favoriteBtn_active st) (favoriteBtn_icon st) (slideshowBtn_active st)
    (slideshowBtn_icon st) (favoritesList st) (favoriteCount_text st)
    (localStorage st) (timers st) (nextTimer st).
Definition set_searchInput_value (v : string) (st : State) : State :=
  mkState (currentPage st) (filteredList st) (activeCategory st)
    (favorites st) (slideshowInterval st) (currentIndex st) (searchDeb st) v
    (sortSelect_value st) (galleryEl st) (loadMoreBtn_display st)
    (loadingSpinner_display st) (lightbox_active st) (lightboxImage_src st)
    (lightboxImage_alt st) (lightboxTitle_text st)
    (lightboxDescription_text st) (imageCounter_text st)
    (favoriteBtn_active st) (favoriteBtn_icon st) (slideshowBtn_active st)
    (slideshowBtn_icon st) (favoritesList st) (favoriteCount_text st)
    (localStorage st) (timers st) (nextTimer st).
Definition set_sortSelect_value (v : string) (st : State) : State :=
  mkState (currentPage st) (filteredList st) (activeCategory st)
    (favorites st) (slideshowInterval st) (currentIndex st) (searchDeb st)
    (searchInput_value st) v (galleryEl st) (loadMoreBtn_display st)
    (loadingSpinner_display st) (lightbox_active st) (lightboxImage_src st)
    (lightboxImage_alt st) (lightboxTitle_text st)
    (lightboxDescription_text st) (imageCounter_text st)
    (favoriteBtn_active st) (favoriteBtn_icon st) (slideshowBtn_active st)
    (slideshowBtn_icon st) (favoritesList st) (favoriteCount_text st)
    (localStorage st) (timers st) (nextTimer st).
Definition set_galleryEl (v : list GalleryNode) (st : State) : State :=
  mkState (currentPage st) (filteredList st) (activeCategory st)
    (favorites st) (slideshowInterval st) (currentIndex st) (searchDeb st)
    (searchInput_value st) (sortSelect_value st) v (loadMoreBtn_display st)
    (loadingSpinner_display st) (lightbox_active st) (lightboxImage_src st)
    (lightboxImage_alt st) (lightboxTitle_text st)
    (lightboxDescription_text st) (imageCounter_text st)
    (favoriteBtn_active st) (favoriteBtn_icon st) (slideshowBtn_active st)
    (slideshowBtn_icon st) (favoritesList st) (favoriteCount_text st)
    (localStorage st) (timers st) (nextTimer st).
Definition set_loadMoreBtn_display (v : string) (st : State) : State :=
  mkState (currentPage st) (filteredList st) (activeCategory st)
    (favorites st) (slideshowInterval st) (currentIndex st) (searchDeb st)
    (searchInput_value st) (sortSelect_value st) (galleryEl st) v
    (loadingSpinner_display st) (lightbox_active st) (lightboxImage_src st)
    (lightboxImage_alt st) (lightboxTitle_text st)
    (lightboxDescription_text st) (imageCounter_text st)
    (favoriteBtn_active st) (favoriteBtn_icon st) (slideshowBtn_active st)
    (slideshowBtn_icon st) (favoritesList st) (favoriteCount_text st)
    (localStorage st) (timers st) (nextTimer st).
Definition set_loadingSpinner_display (v : string) (st : State) : State :=
  mkState (currentPage st) (filteredList st) (activeCategory st)
    (favorites st) (slideshowInterval st) (currentIndex st) (searchDeb st)
    (searchInput_value st) (sortSelect_value st) (galleryEl st)
    (loadMoreBtn_display st) v (lightbox_active st) (lightboxImage_src st)
    (lightboxImage_alt st) (lightboxTitle_text st)
    (lightboxDescription_text st) (imageCounter_text st)
    (favoriteBtn_active st) (favoriteBtn_icon st) (slideshowBtn_active st)
    (slideshowBtn_icon st) (favoritesList st) (favoriteCount_text st)
    (localStorage st) (timers st) (nextTimer st).
Definition set_lightbox_active (v : bool) (st : State) : State :=
  mkState (currentPage st) (filteredList st) (activeCategory st)
    (favorites st) (slideshowInterval st) (currentIndex st) (searchDeb st)
    (searchInput_value st) (sortSelect_value st) (galleryEl st)
    (loadMoreBtn_display st) (loadingSpinner_display st) v
    (lightboxImage_src st) (lightboxImage_alt st) (lightboxTitle_text st)
    (lightboxDescription_text st) (imageCounter_text st)
    (favoriteBtn_active st) (favoriteBtn_icon st) (slideshowBtn_active st)
    (slideshowBtn_icon st) (favoritesList st) (favoriteCount_text st)
    (localStorage st) (timers st) (nextTimer st).
Definition set_lightboxImage_src (v : string) (st : State) : State :=
  mkState (currentPage st) (filteredList st) (activeCategory st)
    (favorites st) (slideshowInterval st) (currentIndex st) (searchDeb st)
    (searchInput_value st) (sortSelect_value st) (galleryEl st)
    (loadMoreBtn_display st) (loadingSpinner_display st) (lightbox_active st)
    v (lightboxImage_alt st) (lightboxTitle_text st)
    (lightboxDescription_text st) (imageCounter_text st)
    (favoriteBtn_active st) (favoriteBtn_icon st) (slideshowBtn_active st)
    (slideshowBtn_icon st) (favoritesList st) (favoriteCount_text st)
    (localStorage st) (timers st) (nextTimer st).
Definition set_lightboxImage_alt (v : string) (st : State) : State :=
  mkState (currentPage st) (filteredList st) (activeCategory st)
    (favorites st) (slideshowInterval st) (currentIndex st) (searchDeb st)
    (searchInput_value st) (sortSelect_value st) (galleryEl st)
    (loadMoreBtn_display st) (loadingSpinner_display st) (lightbox_active st)
    (lightboxImage_src st) v (lightboxTitle_text st)
    (lightboxDescription_text st) (imageCounter_text st)
    (favoriteBtn_active st) (favoriteBtn_icon st) (slideshowBtn_active st)
    (slideshowBtn_icon st) (favoritesList st) (favoriteCount_text st)
    (localStorage st) (timers st) (nextTimer st).
Definition set_lightboxTitle_text (v : string) (st : State) : State :=
  mkState (currentPage st) (filteredList st) (activeCategory st)
    (favorites st) (slideshowInterval st) (currentIndex st) (searchDeb st)
    (searchInput_value st) (sortSelect_value st) (galleryEl st)
    (loadMoreBtn_display st) (loadingSpinner_display st) (lightbox_active st)
    (lightboxImage_src st) (lightboxImage_alt st) v
    (lightboxDescription_text st) (imageCounter_text st)
    (favoriteBtn_active st) (favoriteBtn_icon st) (slideshowBtn_active st)
    (slideshowBtn_icon st) (favoritesList st) (favoriteCount_text st)
    (localStorage st) (timers st) (nextTimer st).
Definition set_lightboxDescription_text (v : string) (st : State) : State :=
  mkState (currentPage st) (filteredList st) (activeCategory st)
    (favorites st) (slideshowInterval st) (currentIndex st) (searchDeb st)
    (searchInput_value st) (sortSelect_value st) (galleryEl st)
    (loadMoreBtn_display st) (loadingSpinner_display st) (lightbox_active st)
    (lightboxImage_src st) (lightboxImage_alt st) (lightboxTitle_text st) v
    (imageCounter_text st) (favoriteBtn_active st) (favoriteBtn_icon st)
    (slideshowBtn_active st) (slideshowBtn_icon st) (favoritesList st)
    (favoriteCount_text st) (localStorage st) (timers st) (nextTimer st).
Definition set_imageCounter_text (v : string) (st : State) : State :=
  mkState (currentPage st) (filteredList st) (activeCategory st)
    (favorites st) (slideshowInterval st) (currentIndex st) (searchDeb st)
    (searchInput_value st) (sortSelect_value st) (galleryEl st)
    (loadMoreBtn_display st) (loadingSpinner_display st) (lightbox_active st)
    (lightboxImage_src st) (lightboxImage_alt st) (lightboxTitle_text st)
    (lightboxDescription_text st) v (favoriteBtn_active st)
    (favoriteBtn_icon st) (slideshowBtn_active st) (slideshowBtn_icon st)
    (favoritesList st) (favoriteCount_text st) (localStorage st) (timers st)
    (nextTimer st).
Definition set_favoriteBtn_active (v : bool) (st : State) : State :=
  mkState (currentPage st) (filteredList st) (activeCategory st)
    (favorites st) (slideshowInterval st) (currentIndex st) (searchDeb st)
    (searchInput_value st) (sortSelect_value st) (galleryEl st)
    (loadMoreBtn_display st) (loadingSpinner_display st) (lightbox_active st)
    (lightboxImage_src st) (lightboxImage_alt st) (lightboxTitle_text st)
    (lightboxDescription_text st) (imageCounter_text st) v
    (favoriteBtn_icon st) (slideshowBtn_active st) (slideshowBtn_icon st)
    (favoritesList st) (favoriteCount_text st) (localStorage st) (timers st)
    (nextTimer st).
Definition set_favoriteBtn_icon (v : Icon) (st : State) : State :=
  mkState (currentPage st) (filteredList st) (activeCategory st)
    (favorites st) (slideshowInterval st) (currentIndex st) (searchDeb st)
    (searchInput_value st) (sortSelect_value st) (galleryEl st)
    (loadMoreBtn_display st) (loadingSpinner_display st) (lightbox_active st)
    (lightboxImage_src st) (lightboxImage_alt st) (lightboxTitle_text st)
    (lightboxDescription_text st) (imageCounter_text st)
    (favoriteBtn_active st) v (slideshowBtn_active st) (slideshowBtn_icon st)
    (favoritesList st) (favoriteCount_text st) (localStorage st) (timers st)
    (nextTimer st).
Definition set_slideshowBtn_active (v : bool) (st : State) : State :=
  mkState (currentPage st) (filteredList st) (activeCategory st)
    (favorites st) (slideshowInterval st) (currentIndex st) (searchDeb st)
    (searchInput_value st) (sortSelect_value st) (galleryEl st)
    (loadMoreBtn_display st) (loadingSpinner_display st) (lightbox_active st)
    (lightboxImage_src st) (lightboxImage_alt st) (lightboxTitle_text st)
    (lightboxDescription_text st) (imageCounter_text st)
    (favoriteBtn_active st) (favoriteBtn_icon st) v (slideshowBtn_icon st)
    (favoritesList st) (favoriteCount_text st) (localStorage st) (timers st)
    (nextTimer st).
Definition set_slideshowBtn_icon (v : Icon) (st : State) : State :=
  mkState (currentPage st) (filteredList st) (activeCategory st)
    (favorites st) (slideshowInterval st) (currentIndex st) (searchDeb st)
    (searchInput_value st) (sortSelect_value st) (galleryEl st)
    (loadMoreBtn_display st) (loadingSpinner_display st) (lightbox_active st)
    (lightboxImage_src st) (lightboxImage_alt st) (lightboxTitle_text st)
    (lightboxDescription_text st) (imageCounter_text st)
    (favoriteBtn_active st) (favoriteBtn_icon st) (slideshowBtn_active st) v
    (favoritesList st) (favoriteCount_text st) (localStorage st) (timers st)
    (nextTimer st).
Definition set_favoritesList (v : list SidebarNode) (st : State) : State :=
  mkState (currentPage st) (filteredList st) (activeCategory st)
    (favorites st) (slideshowInterval st) (currentIndex st) (searchDeb st)
    (searchInput_value st) (sortSelect_value st) (galleryEl st)
    (loadMoreBtn_display st) (loadingSpinner_display st) (lightbox_active st)
    (lightboxImage_src st) (lightboxImage_alt st) (lightboxTitle_text st)
    (lightboxDescription_text st) (imageCounter_text st)
    (favoriteBtn_active st) (favoriteBtn_icon st) (slideshowBtn_active st)
    (slideshowBtn_icon st) v (favoriteCount_text st) (localStorage st)
    (timers st) (nextTimer st).
Definition set_favoriteCount_text (v : string) (st : State) : State :=
  mkState (currentPage st) (filteredList st) (activeCategory st)
    (favorites st) (slideshowInterval st) (currentIndex st) (searchDeb st)
    (searchInput_value st) (sortSelect_value st) (galleryEl st)
    (loadMoreBtn_display st) (loadingSpinner_display st) (lightbox_active st)
    (lightboxImage_src st) (lightboxImage_alt st) (lightboxTitle_text st)
    (lightboxDescription_text st) (imageCounter_text st)
    (favoriteBtn_active st) (favoriteBtn_icon st) (slideshowBtn_active st)
    (slideshowBtn_icon st) (favoritesList st) v (localStorage st) (timers st)
    (nextTimer st).
Definition set_localStorage (v : gmap string string) (st : State) : State :=
  mkState (currentPage st) (filteredList st) (activeCategory st)
    (favorites st) (slideshowInterval st) (currentIndex st) (searchDeb st)
    (searchInput_value st) (sortSelect_value st) (galleryEl st)
    (loadMoreBtn_display st) (loadingSpinner_display st) (lightbox_active st)
    (lightboxImage_src st) (lightboxImage_alt st) (lightboxTitle_text st)
    (lightboxDescription_text st) (imageCounter_text st)
    (favoriteBtn_active st) (favoriteBtn_icon st) (slideshowBtn_active st)
    (slideshowBtn_icon st) (favoritesList st) (favoriteCount_text st) v
    (timers st) (nextTimer st).
Definition set_timers (v : gmap Z TimerCallback) (st : State) : State :=
  mkState (currentPage st) (filteredList st) (activeCategory st)
    (favorites st) (slideshowInterval st) (currentIndex st) (searchDeb st)
    (searchInput_value st) (sortSelect_value st) (galleryEl st)
    (loadMoreBtn_display st) (loadingSpinner_display st) (lightbox_active st)
    (lightboxImage_src st) (lightboxImage_alt st) (lightboxTitle_text st)
    (lightboxDescription_text st) (imageCounter_text st)
    (favoriteBtn_active st) (favoriteBtn_icon st) (slideshowBtn_active st)
    (slideshowBtn_icon st) (favoritesList st) (favoriteCount_text st)
    (localStorage st) v (nextTimer st).
Definition set_nextTimer (v : Z) (st : State) : State :=
  mkState (currentPage st) (filteredList st) (activeCategory st)
    (favorites st) (slideshowInterval st) (currentIndex st) (searchDeb st)
    (searchInput_value st) (sortSelect_value st) (galleryEl st)
    (loadMoreBtn_display st) (loadingSpinner_display st) (lightbox_active st)
    (lightboxImage_src st) (lightboxImage_alt st) (lightboxTitle_text st)
    (lightboxDescription_text st) (imageCounter_text st)
    (favoriteBtn_active st) (favoriteBtn_icon st) (slideshowBtn_active st)
    (slideshowBtn_icon st) (favoritesList st) (favoriteCount_text st)
    (localStorage st) (timers st) v.

(** The number of items (not counting the placeholder) that the
    gallery element holds. *)
Definition isItem (node : GalleryNode) : bool :=
  match node with
  | GalleryItem _ _ _ => true
  | NoImagesFound => false
  end.

Definition renderedCount (st : State) : Z :=
  Z.of_nat (length (List.filter isItem (galleryEl st))).

Definition heartIcon (isFavorite : bool) : Icon :=
  if isFavorite then IconHeartSolid else IconHeartRegular.

Definition setFavBtn (icon : Icon) (node : GalleryNode) : GalleryNode :=
  match node with
  | GalleryItem img i _ => GalleryItem img i icon
  | NoImagesFound => NoImagesFound
  end.

(** A timer handle is truthy unless it is [null] or 0. *)
Definition truthyHandle (h : option Z) : bool :=
  match h with
  | Some n => negb (n =? 0)
  | None => false
  end.

Section Script.
Context `{Collator}.
(** The script's [IMAGES]; kept abstract so that the results hold for
    any catalog, the shipped one included. *)
Variable catalog : list ImageRecord.

(** *** Filtering, searching, sorting *)

Definition applyFiltersSearchSort (st : State) : State :=
  let st := set_filteredList
    (filterSort catalog (activeCategory st) (searchInput_value st)
       (sortSelect_value st)) st in
  set_currentPage 0 st.

(** *** Rendering gallery pages *)

Definition createGalleryItem (st : State) (img : ImageRecord)
    (indexAbsolute : Z) : GalleryNode :=
  GalleryItem img indexAbsolute (heartIcon (setHas (favorites st) (id img))).

(** The slice of the filtered list that one call renders, and the
    nodes built for it. *)
Definition pageItems (st : State) : list ImageRecord :=
  let start := currentPage st * PAGE_SIZE in
  let end_ := start + PAGE_SIZE in
  slice (filteredList st) start end_.

Definition pageNodes (st : State) : list GalleryNode :=
  let start := currentPage st * PAGE_SIZE in
  imap (λ idx img, createGalleryItem st img (start + Z.of_nat idx)) (pageItems st).

Definition renderGalleryPage (st : State) : State :=
  let st := set_loadingSpinner_display "flex" st in
  let st := set_loadMoreBtn_display "none" st in
  let start := currentPage st * PAGE_SIZE in
  let end_ := start + PAGE_SIZE in
  let st := set_galleryEl (galleryEl st ++ pageNodes st) st in
  let st := set_loadingSpinner_display "none" st in
  let st :=
    if end_ <? Z.of_nat (length (filteredList st))
    then set_loadMoreBtn_display "flex" st
    else set_loadMoreBtn_display "none" st in
  let st := set_currentPage (currentPage st + 1) st in
  if Z.of_nat (length (filteredList st)) =? 0
  then set_galleryEl [NoImagesFound] st
  else st.

Definition resetAndRender (st : State) : State :=
  let st := set_galleryEl [] st in
  let st := applyFiltersSearchSort st in
  renderGalleryPage st.

(** *** Favorites *)

Definition persistFavorites (st : State) : State :=
  set_localStorage
    (<["gallery_favorites" := JSON_stringify (favorites st)]> (localStorage st)) st.

Definition updateLightboxFavoriteIcon (st : State) : State :=
  match arrayGet (filteredList st) (currentIndex st) with
  | None => st
  | Some img =>
      let st := set_favoriteBtn_active (setHas (favorites st) (id img)) st in
      set_favoriteBtn_icon (heartIcon (setHas (favorites st) (id img))) st
  end.

Definition updateFavoriteCount (st : State) : State :=
  set_favoriteCount_text (pretty (length (favorites st))) st.

(** One row per favorite id that the catalog knows, in the set's
    insertion order. *)
Definition sidebarRows (favs : list string) : list SidebarNode :=
  omap (λ imgId,
          FavoritesItem <$> List.find (λ i, String.eqb (id i) imgId) catalog)
       favs.

Definition renderFavoritesSidebar (st : State) : State :=
  let st := set_favoritesList [] st in
  let st := updateFavoriteCount st in
  if Z.of_nat (length (favorites st)) =? 0
  then set_favoritesList [NoFavoritesYet] st
  else set_favoritesList (sidebarRows (favorites st)) st.

(** The declaration of [toggleFavorite] that is in force: the second
    one in the file, which replaces the first when the script is
    loaded.  [btnNode] is the position in the gallery of the item
    whose button was passed, if one was. *)
Definition toggleFavorite (imgId : string) (btnNode : option nat)
    (st : State) : State :=
  let st :=
    if setHas (favorites st) imgId then
      let st := set_favorites (setDelete (favorites st) imgId) st in
      match btnNode with
      | Some k => set_galleryEl (alter (setFavBtn IconHeartRegular) k (galleryEl st)) st
      | None => st
      end
    else
      let st := set_favorites (setAdd (favorites st) imgId) st in
      match btnNode with
      | Some k => set_galleryEl (alter (setFavBtn IconHeartSolid) k (galleryEl st)) st
      | None => st
      end in
  let st := persistFavorites st in
  let st := updateLightboxFavoriteIcon st in
  renderFavoritesSidebar st.

Definition toggleFavoriteCurrent (st : State) : State :=
  match arrayGet (filteredList st) (currentIndex st) with
  | None => st
  | Some img =>
      let st := toggleFavorite (id img) None st in
      updateLightboxFavoriteIcon st
  end.

(** *** Lightbox *)

Definition updateLightbox (st : State) : State :=
  match arrayGet (filteredList st) (currentIndex st) with
  | None => st
  | Some img =>
      let st := set_lightboxImage_src "" st in
      let st := set_lightboxImage_alt (title img) st in
      let st := set_lightboxTitle_text (title img) st in
      let st := set_lightboxDescription_text (description img) st in
      let st := set_imageCounter_text
        (pretty (currentIndex st + 1) +:+ " / " +:+
         pretty (length (filteredList st))) st in
      let st := set_lightboxImage_src (url img) st in
      updateLightboxFavoriteIcon st
  end.

Definition openLightbox (st : State) : State :=
  let st := updateLightbox st in
  set_lightbox_active true st.

Definition openLightboxByIndex (indexAbsolute : Z) (st : State) : State :=
  if (indexAbsolute <? 0) || (indexAbsolute >=? Z.of_nat (length (filteredList st)))
  then st
  else openLightbox (set_currentIndex indexAbsolute st).

Definition stopSlideshow (st : State) : State :=
  if negb (truthyHandle (slideshowInterval st)) then st
  else
    let st := set_timers
      (match slideshowInterval st with
       | Some h => delete h (timers st)
       | None => timers st
       end) st in
    let st := set_slideshowInterval None st in
    let st := set_slideshowBtn_active false st in
    set_slideshowBtn_icon IconPlay st.

Definition closeLightbox (st : State) : State :=
  let st := set_lightbox_active false st in
  stopSlideshow st.

Definition showPrev (st : State) : State :=
  let len := Z.of_nat (length (filteredList st)) in
  if len =? 0 then st
  else
    let st := set_currentIndex (Z.rem (currentIndex st - 1 + len) len) st in
    updateLightbox st.

Definition showNext (st : State) : State :=
  let len := Z.of_nat (length (filteredList st)) in
  if len =? 0 then st
  else
    let st := set_currentIndex (Z.rem (currentIndex st + 1) len) st in
    updateLightbox st.

(** *** Slideshow *)

Definition startSlideshow (st : State) : State :=
  let st := set_slideshowBtn_active true st in
  let st := set_slideshowBtn_icon IconPause st in
  let h := nextTimer st in
  let st := set_timers (<[h := SlideshowTick]> (timers st)) st in
  let st := set_nextTimer (h + 1) st in
  set_slideshowInterval (Some h) st.

Definition toggleSlideshow (st : State) : State :=
  if truthyHandle (slideshowInterval st) then stopSlideshow st
  else startSlideshow st.
End Script.

(** ** Reading the favorites back: [JSON.parse] and [new Set] *)

Inductive Exception := SyntaxError | TypeError.

(** Outcome of an evaluation: a value, a thrown exception, or the
    model's recursion budget exhausted (shown below never to happen). *)
Inductive res (A : Type) :=
  | Ok (a : A)
  | Throws (e : Exception)
  | OutOfFuel.
Arguments Ok {A} a.
Arguments Throws {A} e.
Arguments OutOfFuel {A}.

Definition res_bind {A B} (f : A → res B) (m : res A) : res B :=
  match m with
  | Ok a => f a
  | Throws e => Throws e
  | OutOfFuel => OutOfFuel
  end.

#[global] Instance res_mbind : MBind res := @res_bind.
#[global] Instance res_mret : MRet res := @Ok.

(** JSON values; a string is its sequence of code units (escapes can
    denote units above 255), a number is kept as its lexeme. *)
Inductive json :=
  | JNull
  | JBool (b : bool)
  | JNumber (lexeme : list ascii)
  | JString (units : list N)
  | JArray (elements : list json)
  | JObject (members : list (list N * json)).

Module JSON.
Local Open Scope char_scope.

Definition isWs (c : ascii) : bool :=
  let n := N_of_ascii c in ((n =? 9) || (n =? 10) || (n =? 13) || (n =? 32))%N.

Fixpoint skipWs (s : list ascii) : list ascii :=
  match s with
  | c :: r => if isWs c then skipWs r else s
  | [] => []
  end.

Definition isDigit (c : ascii) : bool :=
  let n := N_of_ascii c in ((48 <=? n) && (n <=? 57))%N.

Definition hexValue (c : ascii) : option N :=
  let n := N_of_ascii c in
  if ((48 <=? n) && (n <=? 57))%N then Some (n - 48)%N
  else if ((65 <=? n) && (n <=? 70))%N then Some (n - 55)%N
  else if ((97 <=? n) && (n <=? 102))%N then Some (n - 87)%N
  else None.

(** The code unit denoted by the character after a backslash, for
    the two-character escapes. *)
Definition simpleEscape (c : ascii) : option N :=
  if Ascii.eqb c "034" then Some 34%N
  else if Ascii.eqb c "\" then Some 92%N
  else if Ascii.eqb c "/" then Some 47%N
  else if Ascii.eqb c "b" then Some 8%N
  else if Ascii.eqb c "f" then Some 12%N
  else if Ascii.eqb c "n" then Some 10%N
  else if Ascii.eqb c "r" then Some 13%N
  else if Ascii.eqb c "t" then Some 9%N
  else None.

(** The rest of a string literal, after its opening quote. *)
Fixpoint parseStringBody (s : list ascii) : res (list N * list ascii) :=
  match s with
  | [] => Throws SyntaxError
  | c :: r =>
      if Ascii.eqb c "034" then Ok ([], r)
      else if Ascii.eqb c "\" then
        match r with
        | [] => Throws SyntaxError
        | e :: r1 =>
            match simpleEscape e with
            | Some u =>
                '(us, rest) ← parseStringBody r1; Ok (u :: us, rest)
            | None =>
                if Ascii.eqb e "u" then
                  match r1 with
                  | h1 :: h2 :: h3 :: h4 :: r2 =>
                      match hexValue h1, hexValue h2, hexValue h3, hexValue h4 with
                      | Some a, Some b, Some c', Some d =>
                          '(us, rest) ← parseStringBody r2;
                          Ok ((a * 4096 + b * 256 + c' * 16 + d)%N :: us, rest)
                      | _, _, _, _ => Throws SyntaxError
                      end
                  | _ => Throws SyntaxError
                  end
                else Throws SyntaxError
            end
        end
      else if (N_of_ascii c <? 32)%N then Throws SyntaxError
      else '(us, rest) ← parseStringBody r; Ok (N_of_ascii c :: us, rest)
  end.

Fixpoint spanDigits (s : list ascii) : list ascii * list ascii :=
  match s with
  | c :: r =>
      if isDigit c then let '(ds, rest) := spanDigits r in (c :: ds, rest)
      else ([], s)
  | [] => ([], [])
  end.

(** One or more digits. *)
Definition digits1 (s : list ascii) : res (list ascii * list ascii) :=
  match spanDigits s with
  | ([], _) => Throws SyntaxError
  | p => Ok p
  end.

Definition parseInt (s : list ascii) : res (list ascii * list ascii) :=
  match s with
  | c :: r =>
      if Ascii.eqb c "0" then Ok ([c], r)
      else digits1 s
  | [] => Throws SyntaxError
  end.

Definition parseFrac (s : list ascii) : res (list ascii * list ascii) :=
  match s with
  | c :: r =>
      if Ascii.eqb c "." then '(ds, rest) ← digits1 r; Ok (c :: ds, rest)
      else Ok ([], s)
  | [] => Ok ([], s)
  end.

Definition parseExp (s : list ascii) : res (list ascii * list ascii) :=
  match s with
  | c :: r =>
      if Ascii.eqb c "e" || Ascii.eqb c "E" then
        match r with
        | sg :: r1 =>
            if Ascii.eqb sg "+" || Ascii.eqb sg "-"
            then '(ds, rest) ← digits1 r1; Ok (c :: sg :: ds, rest)
            else '(ds, rest) ← digits1 r; Ok (c :: ds, rest)
        | [] => Throws SyntaxError
        end
      else Ok ([], s)
  | [] => Ok ([], s)
  end.

Definition parseNumber (s : list ascii) : res (list ascii * list ascii) :=
  let '(sign, s1) :=
    match s with
    | c :: r => if Ascii.eqb c "-" then ([c], r) else ([], s)
    | [] => ([], s)
    end in
  '(ip, s2) ← parseInt s1;
  '(fp, s3) ← parseFrac s2;
  '(ep, s4) ← parseExp s3;
  Ok (sign ++ ip ++ fp ++ ep, s4).

Definition expect (word : list ascii) (v : json) (s : list ascii)
    : res (json * list ascii) :=
  if bool_decide (take (length word) s = word)
  then Ok (v, drop (length word) s)
  else Throws SyntaxError.

(** Recursive descent over values, array elements and object
    members.  Each call of one of the three spends one unit of
    [fuel]; [parse] provides enough for any text. *)
Fixpoint parseValue (fuel : nat) (s : list ascii) : res (json * list ascii) :=
  match fuel with
  | O => OutOfFuel
  | S fuel' =>
      match skipWs s with
      | [] => Throws SyntaxError
      | c :: r =>
          if Ascii.eqb c "n" then expect ["n"; "u"; "l"; "l"] JNull (c :: r)
          else if Ascii.eqb c "t" then expect ["t"; "r"; "u"; "e"] (JBool true) (c :: r)
          else if Ascii.eqb c "f" then expect ["f"; "a"; "l"; "s"; "e"] (JBool false) (c :: r)
          else if Ascii.eqb c "034" then
            '(us, rest) ← parseStringBody r; Ok (JString us, rest)
          else if Ascii.eqb c "[" then
            match skipWs r with
            | c1 :: r1 =>
                if Ascii.eqb c1 "]" then Ok (JArray [], r1)
                else '(vs, rest) ← parseElements fuel' r; Ok (JArray vs, rest)
            | [] => Throws SyntaxError
            end
          else if Ascii.eqb c "{" then
            match skipWs r with
            | c1 :: r1 =>
                if Ascii.eqb c1 "}" then Ok (JObject [], r1)
                else '(ms, rest) ← parseMembers fuel' r; Ok (JObject ms, rest)
            | [] => Throws SyntaxError
            end
          else if Ascii.eqb c "-" || isDigit c then
            '(lexeme, rest) ← parseNumber (c :: r); Ok (JNumber lexeme, rest)
          else Throws SyntaxError
      end
  end
with parseElements (fuel : nat) (s : list ascii) : res (list json * list ascii) :=
  match fuel with
  | O => OutOfFuel
  | S fuel' =>
      '(v, r) ← parseValue fuel' s;
      match skipWs r with
      | c :: r1 =>
          if Ascii.eqb c "," then
            '(vs, rest) ← parseElements fuel' r1; Ok (v :: vs, rest)
          else if Ascii.eqb c "]" then Ok ([v], r1)
          else Throws SyntaxError
      | [] => Throws SyntaxError
      end
  end
with parseMembers (fuel : nat) (s : list ascii)
    : res (list (list N * json) * list ascii) :=
  match fuel with
  | O => OutOfFuel
  | S fuel' =>
      match skipWs s with
      | q :: r0 =>
          if Ascii.eqb q "034" then
            '(k, r) ← parseStringBody r0;
            match skipWs r with
            | col :: r1 =>
                if Ascii.eqb col ":" then
                  '(v, r2) ← parseValue fuel' r1;
                  match skipWs r2 with
                  | c :: r3 =>
                      if Ascii.eqb c "," then
                        '(ms, rest) ← parseMembers fuel' r3; Ok ((k, v) :: ms, rest)
                      else if Ascii.eqb c "}" then Ok ([(k, v)], r3)
                      else Throws SyntaxError
                  | [] => Throws SyntaxError
                  end
                else Throws SyntaxError
            | [] => Throws SyntaxError
            end
          else Throws SyntaxError
      | [] => Throws SyntaxError
      end
  end.

(** [JSON.parse(text)]: one value, with nothing but white space
    after it. *)
Definition parse (text : string) : res json :=
  let s := list_ascii_of_string text in
  '(v, rest) ← parseValue (2 * length s + 2) s;
  match skipWs rest with
  | [] => Ok v
  | _ => Throws SyntaxError
  end.
End JSON.

(** A string of the model from code units, when all are below 256. *)
Fixpoint stringOfUnits (us : list N) : option string :=
  match us with
  | [] => Some EmptyString
  | u :: us' =>
      if (u <? 256)%N then String (ascii_of_N u) <$> stringOfUnits us' else None
  end.

(** The iterator of a string steps by code point: a high surrogate
    followed by a low surrogate is one step of two code units, every
    other code unit, a lone surrogate included, is a step by itself. *)
Definition isHighSurrogate (u : N) : bool := ((55296 <=? u) && (u <=? 56319))%N.

Definition isLowSurrogate (u : N) : bool := ((56320 <=? u) && (u <=? 57343))%N.

Fixpoint codePoints (us : list N) : list (list N) :=
  match us with
  | [] => []
  | u :: us' =>
      match us' with
      | v :: us'' =>
          if isHighSurrogate u && isLowSurrogate v
          then [u; v] :: codePoints us''
          else [u] :: codePoints us'
      | [] => [[u]]
      end
  end.

(** The values that [new Set(v)] adds, in order: the elements of an
    array, the code points of a string, nothing for [null]; any other
    JSON value is not iterable. *)
Definition iterate (v : json) : res (list json) :=
  match v with
  | JArray l => Ok l
  | JString us => Ok (map JString (codePoints us))
  | JNull => Ok []
  | JBool _ | JNumber _ | JObject _ => Throws TypeError
  end.

(** The members added to the set [favorites] when the script is
    loaded: [new Set(JSON.parse(localStorage.getItem(key) || "[]"))];
    [getItem] gives [null] ([None]) for an absent key. *)
Definition hydrateFavorites (storage : gmap string string) : res (list json) :=
  let stored := storage !! "gallery_favorites" in
  let text :=
    match stored with
    | Some s => if String.eqb s "" then "[]" else s
    | None => "[]"
    end in
  v ← JSON.parse text; iterate v.

(** The set as a set of strings of the model, when every member added
    is such a string (as is the case for every value the script itself
    stores).  Duplicates are added once. *)
Fixpoint setOfMembers (l : list json) : option (list string) :=
  match l with
  | [] => Some []
  | JString us :: l' =>
      x ← stringOfUnits us; s ← setOfMembers l'; Some (x :: setDelete s x)
  | _ :: _ => None
  end.

(** ** Loading the script and dispatching events *)

(** What the user, the observer of the scroll sentinel and the timers
    can make happen.  Gallery items and sidebar rows are addressed by
    their position among the children of their container. *)
Inductive Event :=
  | ClickFilter (dataFilter : option string)
  | InputSearch (value : string)
  | ChangeSort (value : string)
  | ClickLoadMore
  | ClickLightboxClose
  | ClickLightboxPrev
  | ClickLightboxNext
  | ClickLightboxOverlay
  | ClickFavoriteBtn
  | ClickSlideshowBtn
  | KeyDown (key : string) (targetIsInput : bool)
  | ClickItem (k : nat)
  | ClickItemOpen (k : nat)
  | ClickItemFavorite (k : nat)
  | KeyDownItem (k : nat) (key : string)
  | ClickSidebarImage (k : nat)
  | ClickSidebarRemove (k : nat)
  | SentinelIntersects
  | TimerFires (handle : Z).

Section Events.
Context `{Collator}.
Variable catalog : list ImageRecord.

(** The state in which [init] starts: the variables as initialised
    at the top of the script, the search field and the sort selector
    as the page has them, the gallery and the sidebar list without
    children, the lightbox closed, no timer pending. *)
Definition initialState (favs : list string) (storage : gmap string string)
    (searchValue sortValue : string) : State :=
  {| currentPage := 0; filteredList := catalog; activeCategory := "all";
     favorites := favs; slideshowInterval := None; currentIndex := 0;
     searchDeb := None;
     searchInput_value := searchValue; sortSelect_value := sortValue;
     galleryEl := []; loadMoreBtn_display := ""; loadingSpinner_display := "";
     lightbox_active := false; lightboxImage_src := ""; lightboxImage_alt := "";
     lightboxTitle_text := ""; lightboxDescription_text := "";
     imageCounter_text := "";
     favoriteBtn_active := false; favoriteBtn_icon := IconFromMarkup;
     slideshowBtn_active := false; slideshowBtn_icon := IconFromMarkup;
     favoritesList := []; favoriteCount_text := "";
     localStorage := storage; timers := ∅; nextTimer := 1 |}.

(** [init]: the listeners it binds are the cases of [handle] below;
    the theme is not part of this model. *)
Definition init (st : State) : State :=
  let st := applyFiltersSearchSort catalog st in
  renderGalleryPage st.

(** Running the script from its first line to its last.  [Ok None]:
    the script runs, with a favorites set that has members which are
    not strings of the model. *)
Definition loadScript (storage : gmap string string)
    (searchValue sortValue : string) : res (option State) :=
  members ← hydrateFavorites storage;
  Ok (favs ← setOfMembers members;
      Some (renderFavoritesSidebar catalog
              (init (initialState favs storage searchValue sortValue)))).

(** The [keydown] listener of the document. *)
Definition onKeyDown (key : string) (targetIsInput : bool) (st : State) : State :=
  if lightbox_active st then
    let st := if String.eqb key "ArrowRight" then showNext st else st in
    let st := if String.eqb key "ArrowLeft" then showPrev st else st in
    let st := if String.eqb key "Escape" then closeLightbox st else st in
    if String.eqb key " " && negb targetIsInput then toggleSlideshow st else st
  else st.

(** The [input] listener of the search field: the pending debounce
    timer is cleared and a new one is set. *)
Definition onSearchInput (st : State) : State :=
  let st := set_timers
    (match searchDeb st with
     | Some h => delete h (timers st)
     | None => timers st
     end) st in
  let h := nextTimer st in
  let st := set_timers (<[h := SearchDebounce]> (timers st)) st in
  let st := set_nextTimer (h + 1) st in
  set_searchDeb (Some h) st.

Definition onTimer (h : Z) (st : State) : State :=
  match timers st !! h with
  | Some SlideshowTick => showNext st
  | Some SearchDebounce =>
      resetAndRender catalog (set_timers (delete h (timers st)) st)
  | None => st
  end.

Definition onSidebarImage (imgData : ImageRecord) (st : State) : State :=
  let index := findIndex (λ i, String.eqb (id i) (id imgData)) (filteredList st) in
  openLightboxByIndex (if index >=? 0 then index else 0) st.

Definition onSidebarRemove (imgData : ImageRecord) (st : State) : State :=
  let st := toggleFavorite catalog (id imgData) None st in
  let st := renderFavoritesSidebar catalog st in
  resetAndRender catalog st.

Definition onItemKeyDown (indexAbsolute : Z) (key : string) (st : State) : State :=
  if String.eqb key "Enter" || String.eqb key " "
  then openLightboxByIndex indexAbsolute st
  else st.

(** The listener(s) that an event runs.  An event aimed at a node
    that is not there runs nothing. *)
Definition handle (e : Event) (st : State) : State :=
  match e with
  | ClickFilter dataFilter =>
      let cat :=
        match dataFilter with
        | Some c => if String.eqb c "" then "all" else c
        | None => "all"
        end in
      resetAndRender catalog (set_activeCategory cat st)
  | InputSearch value => onSearchInput (set_searchInput_value value st)
  | ChangeSort value => resetAndRender catalog (set_sortSelect_value value st)
  | ClickLoadMore => renderGalleryPage st
  | ClickLightboxClose => closeLightbox st
  | ClickLightboxPrev => showPrev st
  | ClickLightboxNext => showNext st
  | ClickLightboxOverlay => closeLightbox st
  | ClickFavoriteBtn => toggleFavoriteCurrent catalog st
  | ClickSlideshowBtn => toggleSlideshow st
  | KeyDown key targetIsInput => onKeyDown key targetIsInput st
  | ClickItem k | ClickItemOpen k =>
      match galleryEl st !! k with
      | Some (GalleryItem _ indexAbsolute _) => openLightboxByIndex indexAbsolute st
      | _ => st
      end
  | ClickItemFavorite k =>
      match galleryEl st !! k with
      | Some (GalleryItem img _ _) => toggleFavorite catalog (id img) (Some k) st
      | _ => st
      end
  | KeyDownItem k key =>
      (* the item's listener, then the document's as the event bubbles *)
      match galleryEl st !! k with
      | Some (GalleryItem _ indexAbsolute _) =>
          onKeyDown key false (onItemKeyDown indexAbsolute key st)
      | _ => st
      end
  | ClickSidebarImage k =>
      match favoritesList st !! k with
      | Some (FavoritesItem imgData) => onSidebarImage imgData st
      | _ => st
      end
  | ClickSidebarRemove k =>
      match favoritesList st !! k with
      | Some (FavoritesItem imgData) => onSidebarRemove imgData st
      | _ => st
      end
  | SentinelIntersects =>
      if negb (String.eqb (loadMoreBtn_display st) "none")
      then renderGalleryPage st
      else st
  | TimerFires h => onTimer h st
  end.

(** Modelled from the spec: the page's markup and style sheet are not
    part of the script.  Section 4.3 of the specification makes
    next, prev and close valid only while the lightbox is open, so the
    controls that stand for them (previous, next, the close control and
    the overlay, which closes) can be clicked only then.  Every other
    event can occur in any state: the listeners of the favorite and
    slideshow buttons are bound without a guard, and the specification
    does not restrict them. *)
Definition dispatchable (e : Event) (st : State) : bool :=
  match e with
  | ClickLightboxClose | ClickLightboxPrev | ClickLightboxNext
  | ClickLightboxOverlay => lightbox_active st
  | _ => true
  end.

Fixpoint run (es : list Event) (st : State) : State :=
  match es with
  | [] => st
  | e :: es' => run es' (handle e st)
  end.

(** Along the events [es] dispatched from [st], every click on the
    slideshow button finds the lightbox open. *)
Fixpoint slideshowBtnOnlyWhenOpen (es : list Event) (st : State) : bool :=
  match es with
  | [] => true
  | e :: es' =>
      match e with
      | ClickSlideshowBtn => lightbox_active st
      | _ => true
      end && slideshowBtnOnlyWhenOpen es' (handle e st)
  end.

(** The states the page can be in: after the script has loaded and
    any number of events have been dispatched. *)
Inductive reachable : State → Prop :=
  | reachable_load storage searchValue sortValue st :
      loadScript storage searchValue sortValue = Ok (Some st) →
      reachable st
  | reachable_event e st :
      reachable st → dispatchable e st = true → reachable (handle e st).
End Events.

(** ** States used to exercise the properties *)

(** The page after the script has loaded with empty storage on the
    shipped catalog, with code-unit collation. *)
Definition loadedPage : State :=
  renderFavoritesSidebar IMAGES
    (init (H := codeUnitCollator) IMAGES (initialState IMAGES [] ∅ "" "newest")).

(** The lightbox opened on the first item of the gallery. *)
Definition lightboxOnFirst : State :=
  handle (H := codeUnitCollator) IMAGES (ClickItem 0) loadedPage.

(** All twenty items rendered, the lightbox opened on the eighteenth,
    then the category narrowed to "nature": the selection (17) is left
    beyond the five entries of the new filtered list. *)
Definition staleSelection : State :=
  run (H := codeUnitCollator) IMAGES
    [ClickLoadMore; ClickLoadMore; ClickItem 17; ClickFilter (Some "nature")]
    loadedPage.

(** The lightbox opened on the first item and the slideshow started. *)
Definition slideshowPlaying : State :=
  run (H := codeUnitCollator) IMAGES [ClickItem 0; ClickSlideshowBtn] loadedPage.

(** The favorite button of the lightbox clicked while it shows the
    first item. *)
Definition favoritedInLightbox : State :=
  handle (H := codeUnitCollator) IMAGES ClickFavoriteBtn lightboxOnFirst.

(** The favorite button of the first gallery item clicked, and then
    the remove button of the sidebar row that appeared. *)
Definition favoritedInGrid : State :=
  handle (H := codeUnitCollator) IMAGES (ClickItemFavorite 0) loadedPage.

Definition removedInSidebar : State :=
  handle (H := codeUnitCollator) IMAGES (ClickSidebarRemove 0) favoritedInGrid.

(** ** Agreement of the three views of a favorite

    What the specification asks to hold after every toggle, for an
    image id: every gallery item of that image shows the heart that
    the set prescribes; so does the lightbox if the image it displays
    is that image; and the sidebar has a row for the image exactly when
    the set has its id. *)

#[global] Instance Icon_eq_dec : EqDecision Icon.
Proof. solve_decision. Defined.

Definition gridAgrees (st : State) (imgId : string) : bool :=
  forallb (λ node,
             match node with
             | GalleryItem img _ icon =>
                 if String.eqb (id img) imgId
                 then bool_decide (icon = heartIcon (setHas (favorites st) imgId))
                 else true
             | NoImagesFound => true
             end) (galleryEl st).

(** The lightbox displays [img]: its image element holds the url of
    [img], as [updateLightbox] leaves it. *)
Definition lightboxDisplays (st : State) (img : ImageRecord) : bool :=
  String.eqb (lightboxImage_src st) (url img).

(** For every record of the catalog with this id that the lightbox
    displays, the favorite button shows the heart that the set
    prescribes. *)
Definition lightboxAgreesOn (catalog : list ImageRecord) (st : State)
    (imgId : string) : bool :=
  forallb (λ img,
             if String.eqb (id img) imgId && lightboxDisplays st img
             then bool_decide
                    (favoriteBtn_icon st = heartIcon (setHas (favorites st) imgId))
             else true) catalog.

(** On the script's own catalog. *)
Definition lightboxAgrees (st : State) (imgId : string) : bool :=
  lightboxAgreesOn IMAGES st imgId.

(** The lightbox is in step with the selection: whatever record of the
    catalog it displays is the selected entry of the filtered list. *)
Definition lightboxInStep (catalog : list ImageRecord) (st : State) : Prop :=
  ∀ r, In r catalog → lightboxDisplays st r = true →
       arrayGet (filteredList st) (currentIndex st) = Some r.

Definition sidebarHas (st : State) (imgId : string) : bool :=
  existsb (λ row,
             match row with
             | FavoritesItem imgData => String.eqb (id imgData) imgId
             | NoFavoritesYet => false
             end) (favoritesList st).

Definition sidebarAgrees (st : State) (imgId : string) : bool :=
  Bool.eqb (sidebarHas st imgId) (setHas (favorites st) imgId).

Definition viewsAgree (st : State) (imgId : string) : bool :=
  gridAgrees st imgId && lightboxAgrees st imgId && sidebarAgrees st imgId.

(** ** Invariants of the timers *)

(** The timer table agrees with the script's handles: handles are
    positive and below the next handle to be issued; the handle in
    [slideshowInterval] is the one pending slideshow timer, and the
    handle in [searchDeb] never denotes it. *)
Record TimersOk (st : State) : Prop := mkTimersOk {
  next_positive : 0 < nextTimer st;
  timers_bound : ∀ h cb, timers st !! h = Some cb → 0 < h < nextTimer st;
  interval_pending : ∀ h, slideshowInterval st = Some h →
                          timers st !! h = Some SlideshowTick;
  tick_owned : ∀ h, timers st !! h = Some SlideshowTick →
                    slideshowInterval st = Some h;
  debounce_apart : ∀ h, searchDeb st = Some h →
                        h < nextTimer st ∧ timers st !! h ≠ Some SlideshowTick
}.

(** No slideshow timer is pending. *)
Definition slideshowStopped (st : State) : Prop :=
  slideshowInterval st = None ∧ ∀ h, timers st !! h ≠ Some SlideshowTick.

(** [st'] has the timers and handles of [st], and its lightbox is
    closed only if that of [st] is. *)
Definition keepsTimers (st st' : State) : Prop :=
  timers st' = timers st ∧ nextTimer st' = nextTimer st ∧
  slideshowInterval st' = slideshowInterval st ∧ searchDeb st' = searchDeb st ∧
  (lightbox_active st' = false → lightbox_active st = false).

(** The timers are in order, and a closed lightbox has no slideshow.
    The first part holds in every state of the page; the second is
    kept by every event except a click on the slideshow button while
    the lightbox is closed. *)
Definition QuietWhenClosed (st : State) : Prop :=
  TimersOk st ∧ (lightbox_active st = false → slideshowStopped st).

(** The ways out of the lightbox: its close button, a click on the
    overlay, the Escape key. *)
Definition exitsLightbox (e : Event) : Prop :=
  e = ClickLightboxClose ∨ e = ClickLightboxOverlay ∨
  ∃ targetIsInput, e = KeyDown "Escape" targetIsInput.

(** ** Further notions used by the properties of the rest of the script *)

(** A string made of white space only. *)
Fixpoint allWhiteSpace (s : string) : bool :=
  match s with
  | EmptyString => true
  | String c s' => isWhiteSpace c && allWhiteSpace s'
  end.

(** The lightbox displays [img] as entry number [position] (from 1)
    of the filtered list: image, texts, counter and heart. *)
Definition lightboxShows (st : State) (img : ImageRecord) (position : Z) : Prop :=
  lightboxImage_src st = url img ∧
  lightboxImage_alt st = title img ∧
  lightboxTitle_text st = title img ∧
  lightboxDescription_text st = description img ∧
  imageCounter_text st =
    pretty position +:+ " / " +:+ pretty (length (filteredList st)) ∧
  favoriteBtn_active st = setHas (favorites st) (id img) ∧
  favoriteBtn_icon st = heartIcon (setHas (favorites st) (id img)).

(** [n] calls of [showNext]. *)
Fixpoint showNextTimes (n : nat) (st : State) : State :=
  match n with
  | O => st
  | S n' => showNextTimes n' (showNext st)
  end.

(** The record shown by a row of the sidebar. *)
Definition rowImage (row : SidebarNode) : option ImageRecord :=
  match row with
  | FavoritesItem imgData => Some imgData
  | NoFavoritesYet => None
  end.

(** The catalog has an entry with this id. *)
Definition knownId (catalog : list ImageRecord) (imgId : string) : bool :=
  existsb (λ i, String.eqb (id i) imgId) catalog.

(** ** Views of the state

    Groups of fields that belong together; most functions of the
    script leave most groups untouched. *)

(** The timers, the handles and the slideshow button. *)
Definition timerView (st : State) :=
  (timers st, nextTimer st, slideshowInterval st, searchDeb st,
   slideshowBtn_active st, slideshowBtn_icon st).

(** The favorites: the set, its sidebar and its stored text. *)
Definition favView (st : State) :=
  (favorites st, favoritesList st, favoriteCount_text st, localStorage st).

(** The selection of the lightbox. *)
Definition selView (st : State) := (currentIndex st, lightbox_active st).

(** The controls that choose what the gallery lists. *)
Definition inputView (st : State) :=
  (searchInput_value st, sortSelect_value st, activeCategory st).

(** What a gallery node shows and opens, apart from its heart. *)
Definition nodeKey (node : GalleryNode) : option (ImageRecord * Z) :=
  match node with
  | GalleryItem img indexAbsolute _ => Some (img, indexAbsolute)
  | NoImagesFound => None
  end.

(** The gallery (hearts apart), the list it pages through, the page
    cursor and the "load more" button. *)
Definition gridView (st : State) :=
  (map nodeKey (galleryEl st), filteredList st, currentPage st,
   loadMoreBtn_display st).

(** ** Further invariants of the page *)

(** The slideshow button mirrors the slideshow: active with the pause
    icon while a slideshow is running, inactive without it otherwise. *)
Definition ButtonShowsSlideshow (st : State) : Prop :=
  match slideshowInterval st with
  | Some _ => slideshowBtn_active st = true ∧ slideshowBtn_icon st = IconPause
  | None => slideshowBtn_active st = false ∧ slideshowBtn_icon st ≠ IconPause
  end.

(** Every pending debounce timer is the one whose handle the search
    field's listener holds. *)
Definition DebounceOwned (st : State) : Prop :=
  ∀ h, timers st !! h = Some SearchDebounce → searchDeb st = Some h.

Definition ControlsInv (st : State) : Prop :=
  ButtonShowsSlideshow st ∧ DebounceOwned st ∧ 0 <= currentIndex st.

(** The slideshow timer firing [n] times in a row. *)
Definition ticks (n : nat) (h : Z) : list Event := replicate n (TimerFires h).

(** The JSON value of a string of the model. *)
Definition jsonOfString (s : string) : json :=
  JString (map N_of_ascii (list_ascii_of_string s)).

(** The favorites are in order: the set has no id twice, the sidebar
    and its counter show the set, and the stored text reads back as
    the set. *)
Definition FavoritesInv (catalog : list ImageRecord) (st : State) : Prop :=
  List.NoDup (favorites st) ∧
  favoritesList st =
    (if favorites st is [] then [NoFavoritesYet]
     else sidebarRows catalog (favorites st)) ∧
  favoriteCount_text st = pretty (length (favorites st)) ∧
  (members ← hydrateFavorites (localStorage st); Ok (setOfMembers members))
  = Ok (Some (favorites st)).

(** The listener of [beforeunload]. *)
Definition onBeforeUnload (st : State) : State := persistFavorites st.

(** What the gallery should hold for the entries [l] up to page
    [page]: one item per entry, each opening its own position; the
    placeholder alone when there is no entry. *)
Definition expectedKeys (l : list ImageRecord) (page : Z)
    : list (option (ImageRecord * Z)) :=
  match l with
  | [] => [None]
  | _ => imap (λ i img, Some (img, Z.of_nat i)) (take (Z.to_nat (PAGE_SIZE * page)) l)
  end.

(** The gallery is in step with the filtered list: at least one page
    has been rendered, the gallery holds what [expectedKeys] says, the
    "load more" button is displayed exactly while entries remain, and
    the filtered list is one the engine computed from the catalog. *)
Definition GridInv `{Collator} (catalog : list ImageRecord) (st : State) : Prop :=
  1 <= currentPage st ∧
  map nodeKey (galleryEl st) = expectedKeys (filteredList st) (currentPage st) ∧
  loadMoreBtn_display st =
    (if PAGE_SIZE * currentPage st <? Z.of_nat (length (filteredList st))
     then "flex" else "none") ∧
  ∃ category searchValue sortBy,
    filteredList st = filterSort catalog category searchValue sortBy.

(** The part of the state that decides whether the hearts of the
    gallery agree with the set of favorites. *)
Definition heartView (st : State) : list GalleryNode * list string :=
  (galleryEl st, favorites st).

(** The events that render the gallery anew from the first page. *)
Definition rendersAnew (st : State) (e : Event) : Prop :=
  (∃ dataFilter, e = ClickFilter dataFilter) ∨
  (∃ value, e = ChangeSort value) ∨
  (∃ h, e = TimerFires h ∧ timers st !! h = Some SearchDebounce) ∨
  (∃ k imgData, e = ClickSidebarRemove k ∧
                favoritesList st !! k = Some (FavoritesItem imgData)).

(** ** The theme

    [applyStoredTheme], [updateThemeButton] and [toggleTheme] read and
    write three things only: the [data-theme] attribute of the
    document element, the markup of the theme button, and the storage.
    They are modelled on a record of their own. *)

Module Theme.

Definition DARK_THEME_KEY : string := "gallery_theme".

Inductive ButtonIcon :=
  | IconSun            (* fas fa-sun *)
  | IconMoon           (* fas fa-moon *)
  | IconOfMarkup.      (* whatever the page's markup put there *)

Record Page := mkPage {
  dataTheme : option string;          (* the attribute, [None] when absent *)
  themeToggle_icon : ButtonIcon;
  localStorage : gmap string string
}.

Definition set_dataTheme (v : option string) (p : Page) : Page :=
  mkPage v (themeToggle_icon p) (localStorage p).

Definition set_themeToggle_icon (v : ButtonIcon) (p : Page) : Page :=
  mkPage (dataTheme p) v (localStorage p).

Definition setItem (key value : string) (p : Page) : Page :=
  mkPage (dataTheme p) (themeToggle_icon p) (<[key := value]> (localStorage p)).

(** [x === "dark"] for a value that is a string or [null]. *)
Definition isDarkValue (x : option string) : bool :=
  match x with
  | Some v => String.eqb v "dark"
  | None => false
  end.

Definition updateThemeButton (p : Page) : Page :=
  let isDark := isDarkValue (dataTheme p) in
  set_themeToggle_icon (if isDark then IconSun else IconMoon) p.

Definition applyStoredTheme (p : Page) : Page :=
  let stored := localStorage p !! DARK_THEME_KEY in
  let p := if isDarkValue stored then set_dataTheme (Some "dark") p
           else set_dataTheme None p in
  updateThemeButton p.

Definition toggleTheme (p : Page) : Page :=
  let isDark := isDarkValue (dataTheme p) in
  let p :=
    if isDark then
      let p := set_dataTheme None p in
      setItem DARK_THEME_KEY "light" p
    else
      let p := set_dataTheme (Some "dark") p in
      setItem DARK_THEME_KEY "dark" p in
  updateThemeButton p.

(** A page as the browser hands it to the script on a load: attribute
    and button as the markup has them, over a given storage. *)
Definition freshPage (markupTheme : option string) (storage : gmap string string) : Page :=
  mkPage markupTheme IconOfMarkup storage.

End Theme.

(* ===================================================================== *)
(** * Properties *)
(* ===================================================================== *)

(** ** Strings *)

Lemma prefix_spec (q s : string) :
  String.prefix q s = true ↔ ∃ post, s = q +:+ post.
Proof.
  revert s. induction q as [|c q IH]; intros s.
  - split; [intros _; exists s; reflexivity | intros _; destruct s; reflexivity].
  - destruct s as [|d s]; simpl.
    + split; [discriminate | intros [post Hp]; discriminate].
    + destruct (Ascii.ascii_dec c d) as [->|Hne].
      * rewrite IH. split; intros [post Hp]; exists post.
        -- by rewrite Hp.
        -- by injection Hp.
      * split; [discriminate | intros [post Hp]; injection Hp; congruence].
Qed.

Lemma includes_spec (s q : string) :
  includes s q = true ↔ ∃ pre post, s = pre +:+ q +:+ post.
Proof.
  induction s as [|c s IH]; cbn [includes].
  - rewrite orb_false_r, prefix_spec. split.
    + intros [post Hp]. exists "", post. exact Hp.
    + intros [pre [post Hp]]. destruct pre; [by exists post | discriminate].
  - rewrite orb_true_iff, prefix_spec, IH. split.
    + intros [[post Hp] | [pre [post Hp]]].
      * exists "", post. exact Hp.
      * exists (String c pre), post. simpl. by rewrite Hp.
    + intros [pre [post Hp]]. destruct pre as [|d pre]; simpl in Hp.
      * left. by exists post.
      * right. exists pre, post. by injection Hp.
Qed.

(** ** The ordering step *)

Section Sort.
Context {A : Type} (cmp : A → A → option Z).

Lemma sortInsert_perm x l : sortInsert cmp x l ≡ₚ x :: l.
Proof.
  induction l as [|y l IH]; simpl; [done|].
  destruct (sortCompare cmp x y <=? 0); [done|].
  rewrite IH. apply Permutation_swap.
Qed.

Lemma arraySort_perm l : arraySort cmp l ≡ₚ l.
Proof.
  induction l as [|x l IH]; simpl; [done|].
  by rewrite sortInsert_perm, IH.
Qed.

Lemma arraySort_In x l : In x (arraySort cmp l) ↔ In x l.
Proof.
  rewrite <- !list_elem_of_In. by rewrite arraySort_perm.
Qed.

Lemma arraySort_length l : length (arraySort cmp l) = length l.
Proof. by rewrite arraySort_perm. Qed.

(** Stability: the elements picked out by [P], none of which the
    comparator puts after another, keep their relative order. *)
Lemma sortInsert_filter (P : A → bool) x l :
  (∀ y, In y l → P x = true → P y = true → sortCompare cmp x y <= 0) →
  List.filter P (sortInsert cmp x l) = List.filter P (x :: l).
Proof.
  intros HP. induction l as [|y l IH]; [done|].
  cbn [sortInsert]. destruct (Z.leb_spec (sortCompare cmp x y) 0) as [Hle|Hgt]; [done|].
  cbn [List.filter] in *. rewrite IH by (intros z Hz; apply HP; by apply in_cons).
  destruct (P x) eqn:Hx; [|done].
  destruct (P y) eqn:Hy; [|done].
  specialize (HP y (in_eq _ _) eq_refl Hy). lia.
Qed.

Lemma arraySort_stable (P : A → bool) l :
  (∀ x y, In x l → In y l → P x = true → P y = true →
          sortCompare cmp x y <= 0) →
  List.filter P (arraySort cmp l) = List.filter P l.
Proof.
  induction l as [|x l IH]; intros HP; [done|].
  cbn [arraySort]. rewrite sortInsert_filter.
  - cbn [List.filter]. rewrite IH; [done|].
    intros y z Hy Hz. apply HP; by apply in_cons.
  - intros y Hy. apply (proj1 (arraySort_In _ _)) in Hy.
    apply HP; [apply in_eq | by apply in_cons].
Qed.

(** A comparator that never puts an earlier element after a later
    one leaves the array as it is. *)
Lemma arraySort_id l :
  (∀ x y, sortCompare cmp x y <= 0) → arraySort cmp l = l.
Proof.
  intros Hc. induction l as [|x l IH]; [done|].
  cbn [arraySort]. rewrite IH. destruct l as [|y l]; [done|].
  cbn [sortInsert]. destruct (Z.leb_spec (sortCompare cmp x y) 0); [done|].
  specialize (Hc x y). lia.
Qed.

(** Sortedness, for a comparator that decides a total preorder on
    the elements at hand (those satisfying [Q]). *)
Section Sorted.
Variable Q : A → Prop.
Variable R : A → A → Prop.
Hypothesis R_cmp : ∀ x y, Q x → Q y → sortCompare cmp x y <= 0 → R x y.
Hypothesis R_total : ∀ x y, Q x → Q y → 0 < sortCompare cmp x y → R y x.
Hypothesis R_trans : ∀ x y z, Q x → Q y → Q z → R x y → R y z → R x z.

Lemma sortInsert_sorted x l :
  Q x → Forall Q l →
  StronglySorted R l → StronglySorted R (sortInsert cmp x l).
Proof.
  intros Hx Hl Hs. induction Hs as [|y l Hs IH Hy]; cbn [sortInsert].
  - repeat constructor.
  - apply Forall_cons in Hl as [HQy HQl].
    destruct (Z.leb_spec (sortCompare cmp x y) 0) as [Hle|Hgt].
    + constructor; [by constructor|].
      constructor; [by apply R_cmp|].
      rewrite Forall_forall in Hy, HQl. rewrite Forall_forall. intros z Hz.
      apply (R_trans x y z); auto.
    + constructor; [by apply IH|].
      rewrite Forall_forall. intros z Hz.
      rewrite sortInsert_perm in Hz.
      apply elem_of_cons in Hz as [->|Hz]; [by apply R_total|].
      rewrite Forall_forall in Hy. by apply Hy.
Qed.

Lemma arraySort_sorted l : Forall Q l → StronglySorted R (arraySort cmp l).
Proof.
  induction l as [|x l IH]; cbn [arraySort]; [constructor|].
  intros [Hx Hl]%Forall_cons. apply sortInsert_sorted; auto.
  by rewrite arraySort_perm.
Qed.
End Sorted.
End Sort.

(** ** The filter ([applyFiltersSearchSort], first half) *)

Lemma matchesCategory_spec (activeCategory : string) (img : ImageRecord) :
  matchesCategory activeCategory img = true ↔
  activeCategory = "all" ∨ category img = activeCategory.
Proof.
  unfold matchesCategory.
  destruct (String.eqb_spec activeCategory "all") as [->|Hne].
  - split; [by left | done].
  - rewrite String.eqb_eq. split; [by right | by intros [?|?]].
Qed.

Lemma matchesSearch_spec (query : string) (img : ImageRecord) :
  matchesSearch query img = true ↔
  query = "" ∨
  ∃ pre post,
    toLowerCase (title img +:+ " " +:+ description img +:+ " " +:+ category img)
    = pre +:+ query +:+ post.
Proof.
  unfold matchesSearch, searchText.
  destruct (String.eqb_spec query "") as [->|Hne].
  - split; [by left | done].
  - rewrite includes_spec. split; [by right | by intros [?|?]].
Qed.

(** C1 (as amended).  For every catalog, active category, search text
    and sort mode, an entry is in the list that [applyFiltersSearchSort]
    computes exactly when it is a catalog entry whose category is the
    active one (or the active category is "all") and, unless the
    trimmed and lowercased search text is empty, that text occurs in
    the lowercased text made of title, description and category joined
    by single spaces; and the list holds each such entry as often as
    the catalog does. *)
Theorem applyFiltersSearchSort_exact `{Collator}
    (catalog : list ImageRecord) (st : State) :
  let query := toLowerCase (trim (searchInput_value st)) in
  let out := filteredList (applyFiltersSearchSort catalog st) in
  (∀ r, In r out ↔
        In r catalog ∧
        (activeCategory st = "all" ∨ category r = activeCategory st) ∧
        (query = "" ∨
         ∃ pre post,
           toLowerCase (title r +:+ " " +:+ description r +:+ " " +:+ category r)
           = pre +:+ query +:+ post)) ∧
  out ≡ₚ List.filter (filterPredicate (activeCategory st) query) catalog.
Proof.
  cbn zeta. unfold applyFiltersSearchSort. cbn [filteredList set_currentPage set_filteredList].
  unfold filterSort. split.
  - intros r. rewrite arraySort_In, filter_In. unfold filterPredicate.
    rewrite andb_true_iff, matchesCategory_spec, matchesSearch_spec. tauto.
  - apply arraySort_perm.
Qed.

(** C1 as the specification states it fails: with the search text
    " Forest Morning " the first catalog entry is in the result (its
    title ends in "Forest" and its description starts with "Morning",
    and the script joins them with a space), although the text is no
    substring of the plain concatenation; with "forestmorning" it is
    the other way round. *)
Lemma search_spans_the_joining_space :
  In (mkImage "1" "Misty Forest" "Morning mist in evergreen forest." "nature"
        "image/photo1.avif" "2024-11-05" 80)
     (@filterSort codeUnitCollator IMAGES "all" " Forest Morning " "newest")
  ∧ specFilterPredicate "all" (toLowerCase (trim " Forest Morning "))
      (mkImage "1" "Misty Forest" "Morning mist in evergreen forest." "nature"
         "image/photo1.avif" "2024-11-05" 80) = false
  ∧ @filterSort codeUnitCollator IMAGES "all" "forestmorning" "newest" = []
  ∧ specFilterPredicate "all" (toLowerCase (trim "forestmorning"))
      (mkImage "1" "Misty Forest" "Morning mist in evergreen forest." "nature"
         "image/photo1.avif" "2024-11-05" 80) = true.
Proof.
  split; [|split; [|split]]; [|vm_compute; reflexivity..].
  vm_compute. left. reflexivity.
Qed.

(** *** The comparator of the engine *)

Lemma dateDiff_valid (x y : ImageRecord) :
  is_Some (parseDate (date x)) → is_Some (parseDate (date y)) →
  dateDiff x y = Some (timeValue x - timeValue y).
Proof.
  intros [tx Hx] [ty Hy]. unfold dateDiff, timeValue. by rewrite Hx, Hy.
Qed.

Lemma compareFn_newest `{Collator} (a b : ImageRecord) :
  compareFn "newest" a b = dateDiff b a.
Proof. reflexivity. Qed.

Lemma compareFn_oldest `{Collator} (a b : ImageRecord) :
  compareFn "oldest" a b = dateDiff a b.
Proof. reflexivity. Qed.

Lemma compareFn_popular `{Collator} (a b : ImageRecord) :
  compareFn "popular" a b = Some (popularity b - popularity a).
Proof. reflexivity. Qed.

Lemma compareFn_name `{Collator} (a b : ImageRecord) :
  compareFn "name" a b = Some (localeCompare (title a) (title b)).
Proof. reflexivity. Qed.

Lemma compareFn_other `{Collator} (sortBy : string) (a b : ImageRecord) :
  sortBy ≠ "newest" → sortBy ≠ "oldest" → sortBy ≠ "popular" → sortBy ≠ "name" →
  compareFn sortBy a b = Some 0.
Proof.
  intros H1 H2 H3 H4. unfold compareFn.
  by repeat (case String.eqb_spec; [done|intros _]).
Qed.

(** *** Comparison by code units is a consistent collation *)

Lemma codeUnitCompare_total (a b : string) :
  0 < codeUnitCompare a b → codeUnitCompare b a < 0.
Proof.
  revert b. induction a as [|x a IH]; intros [|y b]; cbn [codeUnitCompare]; try lia.
  repeat case Z.ltb_spec; intros; try lia. by apply IH.
Qed.

Lemma codeUnitCompare_trans (a b c : string) :
  codeUnitCompare a b <= 0 → codeUnitCompare b c <= 0 → codeUnitCompare a c <= 0.
Proof.
  revert b c. induction a as [|x a IH]; intros [|y b] [|z c];
    cbn [codeUnitCompare]; try lia.
  repeat case Z.ltb_spec; intros; try lia. by apply (IH b c).
Qed.

#[global] Instance codeUnitCollator_consistent : @ConsistentCollator codeUnitCollator.
Proof.
  split; [exact codeUnitCompare_total | exact codeUnitCompare_trans].
Qed.

Lemma IMAGES_dates_parse : Forall (λ r, is_Some (parseDate (date r))) IMAGES.
Proof.
  unfold IMAGES. repeat constructor; vm_compute; eauto.
Qed.

(** What [Array.prototype.sort] does with the comparator of each
    mode, on a list whose dates parse. *)
Lemma arraySort_orders `{ConsistentCollator}
    (l : list ImageRecord) (sortBy : string) :
  Forall (λ r, is_Some (parseDate (date r))) l →
  let out := arraySort (compareFn sortBy) l in
  out ≡ₚ l ∧
  (sortBy = "newest" → StronglySorted (λ a b, timeValue b <= timeValue a) out) ∧
  (sortBy = "oldest" → StronglySorted (λ a b, timeValue a <= timeValue b) out) ∧
  (sortBy = "popular" → StronglySorted (λ a b, popularity b <= popularity a) out) ∧
  (sortBy = "name" →
   StronglySorted (λ a b, localeCompare (title a) (title b) <= 0) out) ∧
  (sortBy ≠ "newest" → sortBy ≠ "oldest" → sortBy ≠ "popular" → sortBy ≠ "name" →
   out = l) ∧
  (∀ P : ImageRecord → bool,
     (∀ x y, P x = true → P y = true → sortCompare (compareFn sortBy) x y = 0) →
     List.filter P out = List.filter P l) ∧
  (sortBy = "newest" ∨ sortBy = "oldest" →
   ∀ t, List.filter (λ r, timeValue r =? t) out = List.filter (λ r, timeValue r =? t) l) ∧
  (sortBy = "popular" →
   ∀ p, List.filter (λ r, popularity r =? p) out = List.filter (λ r, popularity r =? p) l) ∧
  (sortBy = "name" →
   ∀ t, List.filter (λ r, localeCompare t (title r) =? 0) out
        = List.filter (λ r, localeCompare t (title r) =? 0) l).
Proof.
  intros Hdates out. subst out.
  set (Q := λ r : ImageRecord, is_Some (parseDate (date r))) in *.
  assert (Hstable : ∀ P : ImageRecord → bool,
             (∀ x y, P x = true → P y = true →
                     In x l → In y l → sortCompare (compareFn sortBy) x y <= 0) →
             List.filter P (arraySort (compareFn sortBy) l) = List.filter P l).
  { intros P HP. apply arraySort_stable. intros x y Hx Hy HPx HPy. by apply HP. }
  assert (Hin : ∀ x, In x l → Q x).
  { intros x Hx. rewrite Forall_forall in Hdates. by apply Hdates, list_elem_of_In. }
  split; [apply arraySort_perm|].
  split.
  { intros ->. apply (arraySort_sorted _ Q); [ | | | exact Hdates].
    - intros x y Hx Hy. unfold sortCompare. rewrite compareFn_newest, dateDiff_valid by done. lia.
    - intros x y Hx Hy. unfold sortCompare. rewrite compareFn_newest, dateDiff_valid by done. lia.
    - intros; lia. }
  split.
  { intros ->. apply (arraySort_sorted _ Q); [ | | | exact Hdates].
    - intros x y Hx Hy. unfold sortCompare. rewrite compareFn_oldest, dateDiff_valid by done. lia.
    - intros x y Hx Hy. unfold sortCompare. rewrite compareFn_oldest, dateDiff_valid by done. lia.
    - intros; lia. }
  split.
  { intros ->. apply (arraySort_sorted _ Q); [ | | | exact Hdates].
    - intros x y _ _. unfold sortCompare. rewrite compareFn_popular. lia.
    - intros x y _ _. unfold sortCompare. rewrite compareFn_popular. lia.
    - intros; lia. }
  split.
  { intros ->. apply (arraySort_sorted _ Q); [ | | | exact Hdates].
    - intros x y _ _. unfold sortCompare. by rewrite compareFn_name.
    - intros x y _ _. unfold sortCompare. rewrite compareFn_name. intros Hgt.
      apply collate_total in Hgt. lia.
    - intros x y z _ _ _. apply collate_trans. }
  split.
  { intros H1 H2 H3 H4. apply arraySort_id. intros x y. unfold sortCompare.
    by rewrite compareFn_other. }
  split.
  { intros P HP. apply Hstable. intros x y Hx Hy _ _. by rewrite HP. }
  split.
  { intros Hmode t. apply Hstable. intros x y Hx%Z.eqb_eq Hy%Z.eqb_eq Hxl Hyl.
    unfold sortCompare.
    destruct Hmode as [-> | ->];
      [rewrite compareFn_newest | rewrite compareFn_oldest];
      (rewrite dateDiff_valid by (by apply Hin)); lia. }
  split.
  { intros -> p. apply Hstable. intros x y Hx%Z.eqb_eq Hy%Z.eqb_eq _ _.
    unfold sortCompare. rewrite compareFn_popular. lia. }
  intros -> t. apply Hstable. intros x y Hx%Z.eqb_eq Hy%Z.eqb_eq _ _.
  unfold sortCompare. rewrite compareFn_name.
  apply (collate_trans _ t).
  - destruct (Z.lt_ge_cases 0 (localeCompare (title x) t)) as [Hgt|Hle]; [|lia].
    apply collate_total in Hgt. lia.
  - lia.
Qed.

Lemma filter_dates_parse (p : ImageRecord → bool) (l : list ImageRecord) :
  Forall (λ r, is_Some (parseDate (date r))) l →
  Forall (λ r, is_Some (parseDate (date r))) (List.filter p l).
Proof.
  rewrite !Forall_forall. intros Hall r Hr. apply Hall.
  apply list_elem_of_In. apply list_elem_of_In, filter_In in Hr as [Hr _]. exact Hr.
Qed.

(** C2.  The list that [applyFiltersSearchSort] leaves in
    [filteredList], for a catalog whose dates parse, is the records of
    the catalog that pass the filter, rearranged so that they are
    ordered by date, newest first, for "newest"; by date, oldest first,
    for "oldest"; by popularity, highest first, for "popular"; by the
    collation's comparison of titles for "name"; for any other mode
    they are left in catalog order.  The sort is stable: records that
    the comparator ranks as equal, in particular records with the same
    date, the same popularity or collation-equal titles, keep their
    relative catalog order. *)
Theorem sort_orders_as_specified `{ConsistentCollator}
    (catalog : list ImageRecord) (st : State) :
  Forall (λ r, is_Some (parseDate (date r))) catalog →
  let sortBy := sortSelect_value st in
  let kept :=
    List.filter
      (filterPredicate (activeCategory st) (toLowerCase (trim (searchInput_value st))))
      catalog in
  let out := filteredList (applyFiltersSearchSort catalog st) in
  out ≡ₚ kept ∧
  (sortBy = "newest" → StronglySorted (λ a b, timeValue b <= timeValue a) out) ∧
  (sortBy = "oldest" → StronglySorted (λ a b, timeValue a <= timeValue b) out) ∧
  (sortBy = "popular" → StronglySorted (λ a b, popularity b <= popularity a) out) ∧
  (sortBy = "name" →
   StronglySorted (λ a b, localeCompare (title a) (title b) <= 0) out) ∧
  (sortBy ≠ "newest" → sortBy ≠ "oldest" → sortBy ≠ "popular" → sortBy ≠ "name" →
   out = kept) ∧
  (∀ P : ImageRecord → bool,
     (∀ x y, P x = true → P y = true → sortCompare (compareFn sortBy) x y = 0) →
     List.filter P out = List.filter P kept) ∧
  (sortBy = "newest" ∨ sortBy = "oldest" →
   ∀ t, List.filter (λ r, timeValue r =? t) out
        = List.filter (λ r, timeValue r =? t) kept) ∧
  (sortBy = "popular" →
   ∀ p, List.filter (λ r, popularity r =? p) out
        = List.filter (λ r, popularity r =? p) kept) ∧
  (sortBy = "name" →
   ∀ t, List.filter (λ r, localeCompare t (title r) =? 0) out
        = List.filter (λ r, localeCompare t (title r) =? 0) kept).
Proof.
  intros Hdates sortBy kept out.
  assert (Hout : out = arraySort (compareFn sortBy) kept) by reflexivity.
  rewrite Hout. apply arraySort_orders. by apply filter_dates_parse.
Qed.

Lemma sort_orders_as_specified_witness :
  Forall (λ r, is_Some (parseDate (date r))) IMAGES ∧
  StronglySorted (λ a b, popularity b <= popularity a)
    (filteredList
       (@applyFiltersSearchSort codeUnitCollator IMAGES
          (initialState IMAGES [] ∅ "" "popular"))) ∧
  StronglySorted (λ a b, timeValue b <= timeValue a)
    (filteredList
       (@applyFiltersSearchSort codeUnitCollator IMAGES
          (initialState IMAGES [] ∅ "tower" "newest"))).
Proof.
  split; [exact IMAGES_dates_parse|]. split.
  - exact (proj1 (proj2 (proj2 (proj2
            (@sort_orders_as_specified codeUnitCollator codeUnitCollator_consistent
               IMAGES (initialState IMAGES [] ∅ "" "popular") IMAGES_dates_parse))))
           eq_refl).
  - exact (proj1 (proj2
            (@sort_orders_as_specified codeUnitCollator codeUnitCollator_consistent
               IMAGES (initialState IMAGES [] ∅ "tower" "newest") IMAGES_dates_parse))
           eq_refl).
Defined.

(** ** Pagination ([renderGalleryPage]) *)

Lemma slice_page {A} (l : list A) (start : Z) :
  0 <= start →
  slice l start (start + PAGE_SIZE) =
  take (Z.to_nat PAGE_SIZE) (drop (Z.to_nat start) l).
Proof.
  intros Hs. unfold slice, PAGE_SIZE.
  destruct (Z.ltb_spec start 0); [lia|].
  destruct (Z.ltb_spec (start + 8) 0); [lia|].
  destruct (Z.le_gt_cases (Z.of_nat (length l)) start) as [Hle|Hgt].
  - rewrite !drop_ge by lia. by rewrite !take_nil.
  - rewrite (Z.min_l start) by lia.
    destruct (Z.le_gt_cases (start + 8) (Z.of_nat (length l))).
    + rewrite Z.min_l by lia. f_equal. lia.
    + rewrite Z.min_r by lia. rewrite !take_ge; [done | |]; rewrite length_drop; lia.
Qed.

Lemma pageItems_length (st : State) :
  0 <= currentPage st →
  Z.of_nat (length (pageItems st)) =
  Z.min PAGE_SIZE
    (Z.max 0 (Z.of_nat (length (filteredList st)) - PAGE_SIZE * currentPage st)).
Proof.
  intros Hp. unfold pageItems. cbn zeta.
  rewrite slice_page by (unfold PAGE_SIZE; lia).
  rewrite length_take, length_drop. unfold PAGE_SIZE. lia.
Qed.

Lemma filter_imap_all {A B} (p : B → bool) (f : nat → A → B) (l : list A) :
  (∀ i x, p (f i x) = true) → List.filter p (imap f l) = imap f l.
Proof.
  revert f. induction l as [|x l IH]; intros f Hf; [done|].
  cbn [imap List.filter]. rewrite Hf. f_equal. apply IH. intros i y. apply Hf.
Qed.

Lemma pageNodes_items (st : State) :
  List.filter isItem (pageNodes st) = pageNodes st.
Proof. unfold pageNodes. cbn zeta. by apply filter_imap_all. Qed.

Lemma map_imap_const {A B C} (g : B → C) (h : A → C) (f : nat → A → B) (l : list A) :
  (∀ i x, g (f i x) = h x) → map g (imap f l) = map h l.
Proof.
  revert f. induction l as [|x l IH]; intros f Hf; [done|].
  cbn [imap map]. rewrite Hf. f_equal. apply IH. intros i y. apply Hf.
Qed.

Lemma pageNodes_length (st : State) :
  length (pageNodes st) = length (pageItems st).
Proof. unfold pageNodes. cbn zeta. apply length_imap. Qed.

(** What one call of [renderGalleryPage] writes. *)
Lemma renderGalleryPage_step (st : State) :
  0 <= currentPage st →
  let len := Z.of_nat (length (filteredList st)) in
  let st' := renderGalleryPage st in
  pageItems st =
    take (Z.to_nat PAGE_SIZE)
      (drop (Z.to_nat (PAGE_SIZE * currentPage st)) (filteredList st)) ∧
  (len ≠ 0 → galleryEl st' = galleryEl st ++ pageNodes st) ∧
  (len = 0 → galleryEl st' = [NoImagesFound]) ∧
  currentPage st' = currentPage st + 1 ∧
  filteredList st' = filteredList st ∧
  loadMoreBtn_display st' =
    (if currentPage st * PAGE_SIZE + PAGE_SIZE <? len then "flex" else "none").
Proof.
  intros Hp len st'.
  split.
  { unfold pageItems. cbn zeta. rewrite slice_page by (unfold PAGE_SIZE; lia).
    do 3 f_equal. lia. }
  split.
  { intros Hne. subst st'. unfold renderGalleryPage. cbn zeta.
    repeat match goal with
           | |- context [if ?c then _ else _] => destruct c eqn:?
           end; cbn; try reflexivity; cbn in *; lia. }
  split.
  { intros He. subst st'. unfold renderGalleryPage. cbn zeta.
    repeat match goal with
           | |- context [if ?c then _ else _] => destruct c eqn:?
           end; cbn; try reflexivity; cbn in *; lia. }
  split.
  { subst st'. unfold renderGalleryPage. cbn zeta.
    repeat match goal with
           | |- context [if ?c then _ else _] => destruct c eqn:?
           end; reflexivity. }
  split.
  { subst st'. unfold renderGalleryPage. cbn zeta.
    repeat match goal with
           | |- context [if ?c then _ else _] => destruct c eqn:?
           end; reflexivity. }
  subst st' len. unfold renderGalleryPage. cbn zeta.
  repeat match goal with
         | |- context [if ?c then _ else _] => destruct c eqn:?
         end; cbn in *; congruence.
Qed.

(** C3.  One call of [renderGalleryPage], at a page cursor that is not
    negative, renders the next min(8, remaining) entries of the
    filtered list, never more than 8, where remaining is the length of
    the list minus 8 times the cursor, or 0 if that is negative; it
    appends them to the gallery and advances the cursor.  When the
    gallery held the first 8 * cursor entries before the call (as it
    does on every path of the script), the "load more" button is shown
    after the call if and only if the number of rendered items is
    below the length of the filtered list, and is hidden otherwise. *)
Theorem renderGalleryPage_paginates (st : State) :
  0 <= currentPage st →
  let len := Z.of_nat (length (filteredList st)) in
  let remaining := Z.max 0 (len - PAGE_SIZE * currentPage st) in
  let st' := renderGalleryPage st in
  pageItems st =
    take (Z.to_nat PAGE_SIZE)
      (drop (Z.to_nat (PAGE_SIZE * currentPage st)) (filteredList st)) ∧
  Z.of_nat (length (pageNodes st)) = Z.min PAGE_SIZE remaining ∧
  Z.of_nat (length (pageNodes st)) <= PAGE_SIZE ∧
  (len ≠ 0 → galleryEl st' = galleryEl st ++ pageNodes st) ∧
  (len = 0 → galleryEl st' = [NoImagesFound]) ∧
  (len ≠ 0 → renderedCount st' = renderedCount st + Z.min PAGE_SIZE remaining) ∧
  currentPage st' = currentPage st + 1 ∧
  filteredList st' = filteredList st ∧
  (renderedCount st = Z.min len (PAGE_SIZE * currentPage st) →
   renderedCount st' = Z.min len (PAGE_SIZE * currentPage st') ∧
   (loadMoreBtn_display st' = "flex" ↔ renderedCount st' < len) ∧
   (loadMoreBtn_display st' = "none" ↔ ¬ renderedCount st' < len)).
Proof.
  intros Hp len remaining st'.
  destruct (renderGalleryPage_step st Hp) as (Hitems & Hgal & Hemp & Hpage & Hfl & Hbtn).
  fold len st' in Hgal, Hemp, Hpage, Hfl, Hbtn.
  assert (Hlen : Z.of_nat (length (pageNodes st)) = Z.min PAGE_SIZE remaining).
  { rewrite pageNodes_length. by apply pageItems_length. }
  assert (Hcnt : len ≠ 0 →
                 renderedCount st' = renderedCount st + Z.min PAGE_SIZE remaining).
  { intros Hne. unfold renderedCount. rewrite (Hgal Hne), List.filter_app, length_app.
    rewrite pageNodes_items. lia. }
  split; [exact Hitems|].
  do 7 (split; [done || (rewrite Hlen; unfold PAGE_SIZE; lia)|]).
  intros Hinv.
  assert (Hcnt' : renderedCount st' = Z.min len (PAGE_SIZE * currentPage st')).
  { rewrite Hpage. destruct (Z.eq_dec len 0) as [He|Hne].
    - unfold renderedCount. rewrite (Hemp He). cbn. unfold PAGE_SIZE. lia.
    - rewrite (Hcnt Hne), Hinv. unfold remaining, PAGE_SIZE. lia. }
  split; [exact Hcnt'|].
  rewrite Hbtn, Hcnt', Hpage. unfold PAGE_SIZE.
  destruct (Z.ltb_spec (currentPage st * 8 + 8) len); split; split;
    try discriminate; try lia; done.
Qed.

Lemma renderGalleryPage_paginates_witness :
  0 <= currentPage (applyFiltersSearchSort (H := codeUnitCollator) IMAGES
                      (initialState IMAGES [] ∅ "" "newest")) ∧
  loadMoreBtn_display
    (renderGalleryPage (applyFiltersSearchSort (H := codeUnitCollator) IMAGES
                          (initialState IMAGES [] ∅ "" "newest"))) = "flex" ∧
  Z.of_nat (length (pageNodes (applyFiltersSearchSort (H := codeUnitCollator) IMAGES
                                 (initialState IMAGES [] ∅ "" "newest")))) = 8.
Proof.
  pose proof (renderGalleryPage_paginates
                (applyFiltersSearchSort (H := codeUnitCollator) IMAGES
                   (initialState IMAGES [] ∅ "" "newest"))
                ltac:(vm_compute; discriminate)) as Hw.
  cbn zeta in Hw.
  destruct Hw as (_ & Hnodes & _ & _ & _ & _ & _ & _ & Hinv).
  specialize (Hinv ltac:(vm_compute; reflexivity)).
  destruct Hinv as (_ & Hshown & _).
  split; [vm_compute; discriminate|].
  split; [apply Hshown; vm_compute; reflexivity | rewrite Hnodes; vm_compute; reflexivity].
Defined.

(** ** Lightbox navigation ([showPrev], [showNext]) *)

Lemma updateLightboxFavoriteIcon_currentIndex (st : State) :
  currentIndex (updateLightboxFavoriteIcon st) = currentIndex st.
Proof. unfold updateLightboxFavoriteIcon. by destruct arrayGet. Qed.

Lemma updateLightboxFavoriteIcon_filteredList (st : State) :
  filteredList (updateLightboxFavoriteIcon st) = filteredList st.
Proof. unfold updateLightboxFavoriteIcon. by destruct arrayGet. Qed.

Lemma updateLightbox_currentIndex (st : State) :
  currentIndex (updateLightbox st) = currentIndex st.
Proof.
  unfold updateLightbox. destruct arrayGet; [|done].
  by rewrite updateLightboxFavoriteIcon_currentIndex.
Qed.

Lemma updateLightbox_filteredList (st : State) :
  filteredList (updateLightbox st) = filteredList st.
Proof.
  unfold updateLightbox. destruct arrayGet; [|done].
  by rewrite updateLightboxFavoriteIcon_filteredList.
Qed.

Lemma showNext_currentIndex (st : State) :
  filteredList st ≠ [] →
  currentIndex (showNext st) =
  Z.rem (currentIndex st + 1) (Z.of_nat (length (filteredList st))).
Proof.
  intros Hne. unfold showNext. cbn zeta.
  destruct (Z.eqb_spec (Z.of_nat (length (filteredList st))) 0) as [He|_].
  - destruct (filteredList st); [done | cbn in He; lia].
  - by rewrite updateLightbox_currentIndex.
Qed.

Lemma showPrev_currentIndex (st : State) :
  filteredList st ≠ [] →
  currentIndex (showPrev st) =
  Z.rem (currentIndex st - 1 + Z.of_nat (length (filteredList st)))
        (Z.of_nat (length (filteredList st))).
Proof.
  intros Hne. unfold showPrev. cbn zeta.
  destruct (Z.eqb_spec (Z.of_nat (length (filteredList st))) 0) as [He|_].
  - destruct (filteredList st); [done | cbn in He; lia].
  - by rewrite updateLightbox_currentIndex.
Qed.

Lemma showNext_empty (st : State) : filteredList st = [] → showNext st = st.
Proof. intros He. unfold showNext. by rewrite He. Qed.

Lemma showPrev_empty (st : State) : filteredList st = [] → showPrev st = st.
Proof. intros He. unfold showPrev. by rewrite He. Qed.

(** C4.  On a filtered list that is not empty, [showNext] at the last
    index selects index 0 and [showPrev] at index 0 selects the last
    index; on a list of one entry both leave the selection at 0; on an
    empty list both return the state unchanged. *)
Theorem lightbox_navigation_circular (st : State) :
  let len := Z.of_nat (length (filteredList st)) in
  (filteredList st ≠ [] → currentIndex st = len - 1 →
   currentIndex (showNext st) = 0) ∧
  (filteredList st ≠ [] → currentIndex st = 0 →
   currentIndex (showPrev st) = len - 1) ∧
  (len = 1 → currentIndex st = 0 →
   currentIndex (showNext st) = 0 ∧ currentIndex (showPrev st) = 0) ∧
  (filteredList st = [] → showNext st = st ∧ showPrev st = st).
Proof.
  intros len.
  assert (Hpos : filteredList st ≠ [] → 0 < len).
  { subst len. destruct (filteredList st); [done | cbn; lia]. }
  split; [|split; [|split]].
  - intros Hne Hi. rewrite showNext_currentIndex, Hi by done. fold len.
    replace (len - 1 + 1) with len by lia. apply Z.rem_same. specialize (Hpos Hne). lia.
  - intros Hne Hi. rewrite showPrev_currentIndex, Hi by done. fold len.
    specialize (Hpos Hne). replace (0 - 1 + len) with (len - 1) by lia.
    apply Z.rem_small. lia.
  - intros H1 Hi.
    assert (Hne : filteredList st ≠ []).
    { subst len. destruct (filteredList st); [cbn in H1; lia | done]. }
    rewrite showNext_currentIndex, showPrev_currentIndex, Hi by done. fold len.
    rewrite H1. by vm_compute.
  - intros He. by rewrite showNext_empty, showPrev_empty.
Qed.

(** C10.  On a filtered list that is not empty, whatever non-negative
    integer the selection holds, one call of [showNext] or of
    [showPrev] leaves it at a valid index of the list. *)
Theorem navigation_restores_range (st : State) :
  filteredList st ≠ [] →
  0 <= currentIndex st →
  let len := Z.of_nat (length (filteredList st)) in
  (0 <= currentIndex (showNext st) < len) ∧
  (0 <= currentIndex (showPrev st) < len) ∧
  is_Some (arrayGet (filteredList (showNext st)) (currentIndex (showNext st))) ∧
  is_Some (arrayGet (filteredList (showPrev st)) (currentIndex (showPrev st))).
Proof.
  intros Hne Hi len.
  assert (Hpos : 0 < len).
  { subst len. destruct (filteredList st); [done | cbn; lia]. }
  assert (Hn : 0 <= currentIndex (showNext st) < len).
  { rewrite showNext_currentIndex by done. fold len.
    apply Z.rem_bound_pos; lia. }
  assert (Hp : 0 <= currentIndex (showPrev st) < len).
  { rewrite showPrev_currentIndex by done. fold len.
    apply Z.rem_bound_pos; lia. }
  assert (Hget : ∀ l i, 0 <= i < Z.of_nat (length l) → is_Some (@arrayGet ImageRecord l i)).
  { intros l i Hb. unfold arrayGet. destruct (Z.ltb_spec i 0); [lia|].
    apply lookup_lt_is_Some. lia. }
  assert (Hfn : filteredList (showNext st) = filteredList st).
  { unfold showNext. cbn zeta. destruct (_ =? _); [done|].
    by rewrite updateLightbox_filteredList. }
  assert (Hfp : filteredList (showPrev st) = filteredList st).
  { unfold showPrev. cbn zeta. destruct (_ =? _); [done|].
    by rewrite updateLightbox_filteredList. }
  repeat split; try lia; apply Hget; rewrite ?Hfn, ?Hfp; fold len; lia.
Qed.

Lemma loadedPage_loads :
  loadScript (H := codeUnitCollator) IMAGES ∅ "" "newest" = Ok (Some loadedPage).
Proof. vm_compute. reflexivity. Qed.

Lemma lightbox_navigation_circular_witness :
  filteredList lightboxOnFirst ≠ [] ∧ currentIndex lightboxOnFirst = 0 ∧
  currentIndex (showPrev lightboxOnFirst) = 19.
Proof.
  assert (Hne : filteredList lightboxOnFirst ≠ []) by (vm_compute; discriminate).
  assert (Hi : currentIndex lightboxOnFirst = 0) by (vm_compute; reflexivity).
  split; [exact Hne|]. split; [exact Hi|].
  exact (proj1 (proj2 (lightbox_navigation_circular lightboxOnFirst)) Hne Hi).
Defined.

Lemma navigation_restores_range_witness :
  currentIndex staleSelection = 17 ∧
  length (filteredList staleSelection) = 5%nat ∧
  0 <= currentIndex (showNext staleSelection) < 5 ∧
  0 <= currentIndex (showPrev staleSelection) < 5.
Proof.
  split; [vm_compute; reflexivity|]. split; [vm_compute; reflexivity|].
  pose proof (navigation_restores_range staleSelection
                ltac:(vm_compute; discriminate) ltac:(vm_compute; discriminate)) as Hw.
  cbn zeta in Hw. destruct Hw as (Hn & Hp & _).
  replace (Z.of_nat (length (filteredList staleSelection))) with 5 in *
    by (vm_compute; reflexivity).
  split; assumption.
Defined.

(** ** Favorites *)

Lemma setHas_spec (s : list string) (x : string) : setHas s x = true ↔ In x s.
Proof.
  unfold setHas. rewrite existsb_exists. split.
  - intros [y [Hy Heq%String.eqb_eq]]. by subst.
  - intros Hx. exists x. by rewrite String.eqb_refl.
Qed.

Lemma setHas_delete (s : list string) (x y : string) :
  setHas (setDelete s x) y = setHas s y && negb (String.eqb x y).
Proof.
  unfold setDelete, setHas. induction s as [|z s IH]; [done|].
  cbn [List.filter existsb].
  destruct (String.eqb_spec x z) as [->|Hxz]; cbn [negb existsb]; rewrite IH.
  - destruct (String.eqb_spec y z) as [->|Hyz].
    + rewrite String.eqb_refl. cbn. by rewrite andb_false_r.
    + done.
  - destruct (String.eqb_spec y z) as [->|Hyz]; [|done].
    destruct (String.eqb_spec x z); [done|]. done.
Qed.

Lemma setHas_add (s : list string) (x y : string) :
  setHas (setAdd s x) y = setHas s y || String.eqb x y.
Proof.
  unfold setAdd. destruct (setHas s x) eqn:Hx.
  - destruct (String.eqb_spec x y) as [->|]; [by rewrite Hx | by rewrite orb_false_r].
  - unfold setHas. rewrite existsb_app. cbn. by rewrite orb_false_r, (String.eqb_sym y x).
Qed.

Lemma updateLightboxFavoriteIcon_favorites (st : State) :
  favorites (updateLightboxFavoriteIcon st) = favorites st.
Proof. unfold updateLightboxFavoriteIcon. by destruct arrayGet. Qed.

Lemma updateLightboxFavoriteIcon_localStorage (st : State) :
  localStorage (updateLightboxFavoriteIcon st) = localStorage st.
Proof. unfold updateLightboxFavoriteIcon. by destruct arrayGet. Qed.

Lemma updateLightboxFavoriteIcon_galleryEl (st : State) :
  galleryEl (updateLightboxFavoriteIcon st) = galleryEl st.
Proof. unfold updateLightboxFavoriteIcon. by destruct arrayGet. Qed.

Lemma renderFavoritesSidebar_favorites catalog (st : State) :
  favorites (renderFavoritesSidebar catalog st) = favorites st.
Proof. unfold renderFavoritesSidebar. cbn. by destruct (_ =? _). Qed.

Lemma renderFavoritesSidebar_localStorage catalog (st : State) :
  localStorage (renderFavoritesSidebar catalog st) = localStorage st.
Proof. unfold renderFavoritesSidebar. cbn. by destruct (_ =? _). Qed.

Lemma renderFavoritesSidebar_galleryEl catalog (st : State) :
  galleryEl (renderFavoritesSidebar catalog st) = galleryEl st.
Proof. unfold renderFavoritesSidebar. cbn. by destruct (_ =? _). Qed.

Lemma toggleFavorite_favorites catalog imgId btnNode (st : State) :
  favorites (toggleFavorite catalog imgId btnNode st) = toggled (favorites st) imgId.
Proof.
  unfold toggleFavorite, toggled. cbn zeta.
  rewrite renderFavoritesSidebar_favorites, updateLightboxFavoriteIcon_favorites.
  unfold persistFavorites. cbn [favorites set_localStorage].
  by destruct (setHas (favorites st) imgId), btnNode.
Qed.

Lemma toggleFavorite_localStorage catalog imgId btnNode (st : State) :
  localStorage (toggleFavorite catalog imgId btnNode st) =
  <["gallery_favorites" := JSON_stringify (toggled (favorites st) imgId)]>
    (localStorage st).
Proof.
  unfold toggleFavorite, toggled. cbn zeta.
  rewrite renderFavoritesSidebar_localStorage, updateLightboxFavoriteIcon_localStorage.
  unfold persistFavorites. cbn [localStorage set_localStorage].
  by destruct (setHas (favorites st) imgId), btnNode.
Qed.

Lemma setHas_toggled (favs : list string) (imgId x : string) :
  setHas (toggled favs imgId) x =
  if String.eqb imgId x then negb (setHas favs x) else setHas favs x.
Proof.
  unfold toggled. destruct (setHas favs imgId) eqn:Hh.
  - rewrite setHas_delete. destruct (String.eqb_spec imgId x) as [->|].
    + by rewrite Hh.
    + by rewrite andb_true_r.
  - rewrite setHas_add. destruct (String.eqb_spec imgId x) as [->|].
    + by rewrite Hh.
    + by rewrite orb_false_r.
Qed.

(** C6.  Whatever the set of favorites and the id, one call of
    [toggleFavorite] flips the membership of that id and of no other,
    a second call restores the membership of every id, and after each
    call the text stored under "gallery_favorites" is the JSON text of
    the set's members. *)
Theorem toggleFavorite_twice_restores (catalog : list ImageRecord)
    (imgId : string) (btn1 btn2 : option nat) (st : State) :
  let st1 := toggleFavorite catalog imgId btn1 st in
  let st2 := toggleFavorite catalog imgId btn2 st1 in
  setHas (favorites st1) imgId = negb (setHas (favorites st) imgId) ∧
  (∀ x, x ≠ imgId → setHas (favorites st1) x = setHas (favorites st) x) ∧
  (∀ x, setHas (favorites st2) x = setHas (favorites st) x) ∧
  localStorage st1 !! "gallery_favorites" = Some (JSON_stringify (favorites st1)) ∧
  localStorage st2 !! "gallery_favorites" = Some (JSON_stringify (favorites st2)).
Proof.
  cbn zeta. rewrite !toggleFavorite_localStorage, !toggleFavorite_favorites.
  rewrite !lookup_insert_eq. repeat split.
  - by rewrite setHas_toggled, String.eqb_refl.
  - intros x Hx. rewrite setHas_toggled.
    by destruct (String.eqb_spec imgId x) as [->|].
  - intros x. rewrite !setHas_toggled.
    destruct (String.eqb imgId x); [by rewrite negb_involutive | done].
Qed.

(** ** Timers and the slideshow *)

Lemma keepsTimers_refl (st : State) : keepsTimers st st.
Proof. by repeat split. Qed.

Lemma keepsTimers_trans (a b c : State) :
  keepsTimers a b → keepsTimers b c → keepsTimers a c.
Proof.
  intros (H1 & H2 & H3 & H4 & H5) (G1 & G2 & G3 & G4 & G5).
  repeat split; try congruence. auto.
Qed.

(** Discharges [keepsTimers st (f st)] for a function [f] that only
    assigns other fields, possibly under a case distinction. *)
Ltac keeps_by_cases :=
  repeat match goal with
         | |- context [match ?x with _ => _ end] => destruct x
         end;
  repeat split; cbn; intros; (reflexivity || assumption || discriminate).

Lemma keeps_updateLightboxFavoriteIcon (st : State) :
  keepsTimers st (updateLightboxFavoriteIcon st).
Proof. unfold updateLightboxFavoriteIcon. keeps_by_cases. Qed.

Lemma keeps_updateLightbox (st : State) : keepsTimers st (updateLightbox st).
Proof.
  unfold updateLightbox. destruct arrayGet; [|apply keepsTimers_refl].
  eapply keepsTimers_trans; [|apply keeps_updateLightboxFavoriteIcon].
  by repeat split.
Qed.

Lemma keeps_openLightboxByIndex (i : Z) (st : State) :
  keepsTimers st (openLightboxByIndex i st).
Proof.
  unfold openLightboxByIndex. destruct (_ || _); [apply keepsTimers_refl|].
  unfold openLightbox.
  pose proof (keeps_updateLightbox (set_currentIndex i st)) as (H1 & H2 & H3 & H4 & _).
  repeat split; done.
Qed.

Lemma keeps_showNext (st : State) : keepsTimers st (showNext st).
Proof.
  unfold showNext. cbn zeta. destruct (_ =? _); [apply keepsTimers_refl|].
  eapply keepsTimers_trans; [|apply keeps_updateLightbox]. by repeat split.
Qed.

Lemma keeps_showPrev (st : State) : keepsTimers st (showPrev st).
Proof.
  unfold showPrev. cbn zeta. destruct (_ =? _); [apply keepsTimers_refl|].
  eapply keepsTimers_trans; [|apply keeps_updateLightbox]. by repeat split.
Qed.

Lemma keeps_renderGalleryPage (st : State) : keepsTimers st (renderGalleryPage st).
Proof. unfold renderGalleryPage. cbn zeta. keeps_by_cases. Qed.

Lemma keeps_resetAndRender `{Collator} catalog (st : State) :
  keepsTimers st (resetAndRender catalog st).
Proof.
  unfold resetAndRender. cbn zeta.
  eapply keepsTimers_trans; [|apply keeps_renderGalleryPage]. by repeat split.
Qed.

Lemma keeps_renderFavoritesSidebar catalog (st : State) :
  keepsTimers st (renderFavoritesSidebar catalog st).
Proof. unfold renderFavoritesSidebar. cbn zeta. keeps_by_cases. Qed.

Lemma keeps_toggleFavorite catalog imgId btnNode (st : State) :
  keepsTimers st (toggleFavorite catalog imgId btnNode st).
Proof.
  unfold toggleFavorite. cbn zeta.
  eapply keepsTimers_trans; [|apply keeps_renderFavoritesSidebar].
  eapply keepsTimers_trans; [|apply keeps_updateLightboxFavoriteIcon].
  unfold persistFavorites. keeps_by_cases.
Qed.

Lemma keeps_toggleFavoriteCurrent catalog (st : State) :
  keepsTimers st (toggleFavoriteCurrent catalog st).
Proof.
  unfold toggleFavoriteCurrent. destruct arrayGet; [|apply keepsTimers_refl].
  eapply keepsTimers_trans; [|apply keeps_updateLightboxFavoriteIcon].
  apply keeps_toggleFavorite.
Qed.

(** The invariants depend on the timers and handles only. *)
Lemma TimersOk_keeps (st st' : State) :
  keepsTimers st st' → TimersOk st → TimersOk st'.
Proof.
  intros (H1 & H2 & H3 & H4 & _) [P1 P2 P3 P4 P5].
  split; rewrite ?H1, ?H2, ?H3, ?H4; assumption.
Qed.

Lemma slideshowStopped_keeps (st st' : State) :
  keepsTimers st st' → slideshowStopped st → slideshowStopped st'.
Proof.
  intros (H1 & H2 & H3 & H4 & _) [P1 P2].
  split; rewrite ?H1, ?H3; assumption.
Qed.

(** *** Starting and stopping *)

Lemma stopSlideshow_stops (st : State) :
  TimersOk st → TimersOk (stopSlideshow st) ∧ slideshowStopped (stopSlideshow st).
Proof.
  intros Hok. pose proof Hok as [P1 P2 P3 P4 P5]. unfold stopSlideshow, truthyHandle.
  destruct (slideshowInterval st) as [h|] eqn:Hs; cbn [negb].
  - assert (Hh : 0 < h) by (apply (P2 h SlideshowTick), P3; reflexivity).
    destruct (Z.eqb_spec h 0) as [->|Hne]; [lia|]. cbn [negb].
    split; [split|split]; cbn.
    + exact P1.
    + intros h' cb Hl. apply lookup_delete_Some in Hl as [_ Hl]. eauto.
    + discriminate.
    + intros h' Hl. apply lookup_delete_Some in Hl as [Hd Hl].
      apply P4 in Hl. congruence.
    + intros h' Hd. destruct (P5 h' Hd) as [Hb Hn]. split; [exact Hb|].
      intros Hl. apply lookup_delete_Some in Hl as [_ Hl]. contradiction.
    + reflexivity.
    + intros h' Hl. apply lookup_delete_Some in Hl as [Hd Hl].
      apply P4 in Hl. congruence.
  - split; [exact Hok|]. split; [exact Hs|].
    intros h Hl. apply P4 in Hl. congruence.
Qed.

Lemma closeLightbox_stops (st : State) :
  TimersOk st →
  TimersOk (closeLightbox st) ∧ slideshowStopped (closeLightbox st) ∧
  lightbox_active (closeLightbox st) = false.
Proof.
  intros Hok. unfold closeLightbox.
  assert (Hok' : TimersOk (set_lightbox_active false st)).
  { destruct Hok as [P1 P2 P3 P4 P5]. by apply mkTimersOk. }
  destruct (stopSlideshow_stops _ Hok') as [H1 H2]. split; [exact H1|].
  split; [exact H2|].
  unfold stopSlideshow. by destruct (negb _).
Qed.

Lemma startSlideshow_ok (st : State) :
  TimersOk st → slideshowStopped st → TimersOk (startSlideshow st).
Proof.
  intros [P1 P2 P3 P4 P5] [S1 S2]. unfold startSlideshow. split; cbn.
  - lia.
  - intros h cb Hl. apply lookup_insert_Some in Hl as [[<- _]|[_ Hl]]; [lia|].
    apply P2 in Hl. lia.
  - intros h [= <-]. apply lookup_insert_eq.
  - intros h Hl. apply lookup_insert_Some in Hl as [[<- _]|[_ Hl]]; [done|].
    by apply S2 in Hl.
  - intros h Hd. destruct (P5 h Hd) as [Hb Hn]. split; [lia|].
    rewrite lookup_insert_ne by lia. exact Hn.
Qed.

Lemma toggleSlideshow_ok (st : State) :
  TimersOk st → TimersOk (toggleSlideshow st).
Proof.
  intros Hok. unfold toggleSlideshow.
  destruct (truthyHandle (slideshowInterval st)) eqn:Ht.
  - by apply stopSlideshow_stops.
  - apply startSlideshow_ok; [exact Hok|].
    destruct Hok as [P1 P2 P3 P4 P5]. unfold truthyHandle in Ht.
    destruct (slideshowInterval st) as [h|] eqn:Hs.
    + assert (Hh : 0 < h) by (apply (P2 h SlideshowTick), P3; reflexivity).
      destruct (Z.eqb_spec h 0); [lia | discriminate].
    + split; [exact Hs|]. intros h Hl. apply P4 in Hl. congruence.
Qed.

Lemma toggleSlideshow_active (st : State) :
  lightbox_active (toggleSlideshow st) = lightbox_active st.
Proof.
  unfold toggleSlideshow, stopSlideshow, startSlideshow.
  by repeat (destruct (truthyHandle _); cbn).
Qed.

Lemma onSearchInput_ok (st : State) :
  TimersOk st →
  TimersOk (onSearchInput st) ∧
  slideshowInterval (onSearchInput st) = slideshowInterval st ∧
  lightbox_active (onSearchInput st) = lightbox_active st.
Proof.
  intros [P1 P2 P3 P4 P5]. unfold onSearchInput. cbn zeta.
  split; [|by split]. 
  assert (Hdel : ∀ h cb,
             match searchDeb st with
             | Some h0 => delete h0 (timers st)
             | None => timers st
             end !! h = Some cb → timers st !! h = Some cb).
  { intros h cb. destruct (searchDeb st); [|done].
    intros Hl. by apply lookup_delete_Some in Hl as [_ Hl]. }
  assert (Hkeep : ∀ h, timers st !! h = Some SlideshowTick →
             match searchDeb st with
             | Some h0 => delete h0 (timers st)
             | None => timers st
             end !! h = Some SlideshowTick).
  { intros h Hl. destruct (searchDeb st) as [h0|] eqn:Hd; [|done].
    rewrite lookup_delete_ne; [done|]. intros ->.
    by destruct (P5 h eq_refl). }
  split; cbn.
  - lia.
  - intros h cb Hl. apply lookup_insert_Some in Hl as [[<- _]|[_ Hl]]; [lia|].
    apply Hdel, P2 in Hl. lia.
  - intros h Hs. pose proof (P3 h Hs) as Hl. pose proof (P2 _ _ Hl).
    rewrite lookup_insert_ne by lia. by apply Hkeep.
  - intros h Hl. apply lookup_insert_Some in Hl as [[_ ?]|[_ Hl]]; [done|].
    by apply P4, Hdel.
  - intros h [= <-]. split; [lia|]. by rewrite lookup_insert_eq.
Qed.

Lemma onTimer_ok `{Collator} catalog (h : Z) (st : State) :
  TimersOk st →
  TimersOk (onTimer catalog h st) ∧
  slideshowInterval (onTimer catalog h st) = slideshowInterval st ∧
  (lightbox_active (onTimer catalog h st) = false → lightbox_active st = false).
Proof.
  intros Hok. unfold onTimer.
  destruct (timers st !! h) as [[|]|] eqn:Hl.
  - pose proof (keeps_showNext st) as Hk. split; [by eapply TimersOk_keeps|].
    destruct Hk as (_ & _ & H3 & _ & H5). by split.
  - pose proof (keeps_resetAndRender catalog (set_timers (delete h (timers st)) st))
      as Hk.
    assert (Hok' : TimersOk (set_timers (delete h (timers st)) st)).
    { destruct Hok as [P1 P2 P3 P4 P5]. split; cbn.
      - exact P1.
      - intros h' cb Hl'. apply lookup_delete_Some in Hl' as [_ Hl']. eauto.
      - intros h' Hs. rewrite lookup_delete_ne; [by apply P3|].
        intros <-. apply P3 in Hs. congruence.
      - intros h' Hl'. apply lookup_delete_Some in Hl' as [_ Hl']. by apply P4.
      - intros h' Hd. destruct (P5 h' Hd) as [Hb Hn]. split; [exact Hb|].
        intros Hl'. by apply lookup_delete_Some in Hl' as [_ Hl']. }
    split; [by eapply TimersOk_keeps|].
    destruct Hk as (_ & _ & H3 & _ & H5). by split.
  - split; [exact Hok|]. by split.
Qed.

Lemma QuietWhenClosed_keeps (st st' : State) :
  keepsTimers st st' → QuietWhenClosed st → QuietWhenClosed st'.
Proof.
  intros Hk [Hok Hq]. split; [by eapply TimersOk_keeps|].
  intros Ha. eapply slideshowStopped_keeps; [exact Hk|].
  apply Hq. by apply Hk.
Qed.

Lemma TimersOk_stopped (st : State) :
  TimersOk st → slideshowInterval st = None → slideshowStopped st.
Proof.
  intros [P1 P2 P3 P4 P5] Hs. split; [exact Hs|].
  intros h Hl. apply P4 in Hl. congruence.
Qed.

Lemma onKeyDown_quiet (key : string) (targetIsInput : bool) (st : State) :
  QuietWhenClosed st → QuietWhenClosed (onKeyDown key targetIsInput st).
Proof.
  intros Hq. unfold onKeyDown. destruct (lightbox_active st) eqn:Ha; [|exact Hq].
  set (s1 := if String.eqb key "ArrowRight" then showNext st else st).
  assert (K1 : keepsTimers st s1).
  { subst s1. destruct (String.eqb key "ArrowRight");
      [apply keeps_showNext | apply keepsTimers_refl]. }
  set (s2 := if String.eqb key "ArrowLeft" then showPrev s1 else s1).
  assert (K2 : keepsTimers st s2).
  { subst s2. destruct (String.eqb key "ArrowLeft"); [|exact K1].
    eapply keepsTimers_trans; [exact K1 | apply keeps_showPrev]. }
  assert (Q2 : QuietWhenClosed s2) by (by eapply QuietWhenClosed_keeps).
  assert (A2 : lightbox_active s2 = true).
  { destruct K2 as (_ & _ & _ & _ & K5). destruct (lightbox_active s2); [done|].
    rewrite K5 in Ha; done. }
  destruct (String.eqb_spec key "Escape") as [->|Hesc].
  - cbn [String.eqb Ascii.eqb Bool.eqb andb].
    destruct (closeLightbox_stops s2 (proj1 Q2)) as (C1 & C2 & C3). by split.
  - destruct (_ && _); [|exact Q2].
    split; [apply toggleSlideshow_ok, Q2|].
    rewrite toggleSlideshow_active, A2. discriminate.
Qed.

Lemma onKeyDown_TimersOk (key : string) (targetIsInput : bool) (st : State) :
  TimersOk st → TimersOk (onKeyDown key targetIsInput st).
Proof.
  intros Hok. destruct (lightbox_active st) eqn:Ha.
  - apply onKeyDown_quiet. split; [exact Hok|]. intros Hc. congruence.
  - unfold onKeyDown. by rewrite Ha.
Qed.

(** The timers stay in order whatever event is handled. *)
Lemma handle_TimersOk `{Collator} catalog (e : Event) (st : State) :
  TimersOk st → TimersOk (handle catalog e st).
Proof.
  intros Hok.
  assert (Hkeep : ∀ st', keepsTimers st st' → TimersOk st').
  { intros st' Hk. by eapply TimersOk_keeps. }
  destruct e; cbn [handle].
  - apply Hkeep. eapply keepsTimers_trans; [|apply keeps_resetAndRender]. by repeat split.
  - apply onSearchInput_ok. eapply TimersOk_keeps; [|exact Hok]. by repeat split.
  - apply Hkeep. eapply keepsTimers_trans; [|apply keeps_resetAndRender]. by repeat split.
  - apply Hkeep, keeps_renderGalleryPage.
  - by apply closeLightbox_stops.
  - apply Hkeep, keeps_showPrev.
  - apply Hkeep, keeps_showNext.
  - by apply closeLightbox_stops.
  - apply Hkeep, keeps_toggleFavoriteCurrent.
  - by apply toggleSlideshow_ok.
  - by apply onKeyDown_TimersOk.
  - destruct (galleryEl st !! k) as [[]|]; try exact Hok.
    apply Hkeep, keeps_openLightboxByIndex.
  - destruct (galleryEl st !! k) as [[]|]; try exact Hok.
    apply Hkeep, keeps_openLightboxByIndex.
  - destruct (galleryEl st !! k) as [[]|]; try exact Hok.
    apply Hkeep, keeps_toggleFavorite.
  - destruct (galleryEl st !! k) as [[]|]; try exact Hok.
    apply onKeyDown_TimersOk. unfold onItemKeyDown.
    destruct (_ || _); [|exact Hok]. apply Hkeep, keeps_openLightboxByIndex.
  - destruct (favoritesList st !! k) as [[]|]; try exact Hok.
    apply Hkeep, keeps_openLightboxByIndex.
  - destruct (favoritesList st !! k) as [[]|]; try exact Hok.
    apply Hkeep. unfold onSidebarRemove. cbn zeta.
    eapply keepsTimers_trans; [|apply keeps_resetAndRender].
    eapply keepsTimers_trans; [|apply keeps_renderFavoritesSidebar].
    apply keeps_toggleFavorite.
  - destruct (negb _); [|exact Hok]. apply Hkeep, keeps_renderGalleryPage.
  - by apply onTimer_ok.
Qed.

(** "No slideshow while the lightbox is closed" is kept by every
    event but one: the slideshow button, whose listener does not look
    at the lightbox, clicked while the lightbox is closed. *)
Lemma handle_quiet `{Collator} catalog (e : Event) (st : State) :
  QuietWhenClosed st → (e = ClickSlideshowBtn → lightbox_active st = true) →
  QuietWhenClosed (handle catalog e st).
Proof.
  intros Hq Hd.
  assert (Hkeep : ∀ st', keepsTimers st st' → QuietWhenClosed st').
  { intros st' Hk. by eapply QuietWhenClosed_keeps. }
  destruct e; cbn [handle] in *.
  - apply Hkeep. eapply keepsTimers_trans; [|apply keeps_resetAndRender]. by repeat split.
  - destruct (onSearchInput_ok (set_searchInput_value value st)) as (O1 & O2 & O3).
    { eapply TimersOk_keeps; [|apply Hq]. by repeat split. }
    split; [exact O1|]. intros Ha. apply TimersOk_stopped; [exact O1|].
    rewrite O2. cbn. apply Hq. rewrite O3 in Ha. exact Ha.
  - apply Hkeep. eapply keepsTimers_trans; [|apply keeps_resetAndRender]. by repeat split.
  - apply Hkeep, keeps_renderGalleryPage.
  - destruct (closeLightbox_stops st (proj1 Hq)) as (C1 & C2 & C3). by split.
  - apply Hkeep, keeps_showPrev.
  - apply Hkeep, keeps_showNext.
  - destruct (closeLightbox_stops st (proj1 Hq)) as (C1 & C2 & C3). by split.
  - apply Hkeep, keeps_toggleFavoriteCurrent.
  - split; [apply toggleSlideshow_ok, Hq|].
    rewrite toggleSlideshow_active, (Hd eq_refl). discriminate.
  - by apply onKeyDown_quiet.
  - destruct (galleryEl st !! k) as [[]|]; try exact Hq.
    apply Hkeep, keeps_openLightboxByIndex.
  - destruct (galleryEl st !! k) as [[]|]; try exact Hq.
    apply Hkeep, keeps_openLightboxByIndex.
  - destruct (galleryEl st !! k) as [[]|]; try exact Hq.
    apply Hkeep, keeps_toggleFavorite.
  - destruct (galleryEl st !! k) as [[]|]; try exact Hq.
    apply onKeyDown_quiet. unfold onItemKeyDown.
    destruct (_ || _); [|exact Hq]. apply Hkeep, keeps_openLightboxByIndex.
  - destruct (favoritesList st !! k) as [[]|]; try exact Hq.
    apply Hkeep, keeps_openLightboxByIndex.
  - destruct (favoritesList st !! k) as [[]|]; try exact Hq.
    apply Hkeep. unfold onSidebarRemove. cbn zeta.
    eapply keepsTimers_trans; [|apply keeps_resetAndRender].
    eapply keepsTimers_trans; [|apply keeps_renderFavoritesSidebar].
    apply keeps_toggleFavorite.
  - destruct (negb _); [|exact Hq]. apply Hkeep, keeps_renderGalleryPage.
  - destruct (onTimer_ok catalog handle0 st (proj1 Hq)) as (T1 & T2 & T3).
    split; [exact T1|]. intros Ha. apply TimersOk_stopped; [exact T1|].
    rewrite T2. by apply Hq, T3.
Qed.

Lemma res_bind_Some {A B} (m : res A) (g : A → option B) (b : B) :
  (a ← m; Ok (g a)) = Ok (Some b) → ∃ a, m = Ok a ∧ g a = Some b.
Proof. destruct m as [a| |]; [|discriminate..]. intros [= Hg]. by exists a. Qed.

(** A script that has loaded went through [init] and the first
    rendering of the sidebar, with the set read from storage. *)
Lemma loadScript_Some `{Collator} catalog storage searchValue sortValue (st : State) :
  loadScript catalog storage searchValue sortValue = Ok (Some st) →
  ∃ favs,
    (members ← hydrateFavorites storage; Ok (setOfMembers members)) = Ok (Some favs) ∧
    st = renderFavoritesSidebar catalog
           (init catalog (initialState catalog favs storage searchValue sortValue)).
Proof.
  unfold loadScript. intros Hload. apply res_bind_Some in Hload as (members & Hm & Hg).
  apply bind_Some in Hg as (favs & Hs & Hst). apply (inj Some) in Hst.
  exists favs. split; [|by symmetry].
  rewrite Hm. cbn [mbind res_mbind res_bind]. by rewrite Hs.
Qed.

Lemma loaded_quiet `{Collator} catalog storage searchValue sortValue (st : State) :
  loadScript catalog storage searchValue sortValue = Ok (Some st) → QuietWhenClosed st.
Proof.
  intros Hload. apply loadScript_Some in Hload as (favs & _ & ->).
  eapply QuietWhenClosed_keeps.
  + eapply keepsTimers_trans; [|apply keeps_renderFavoritesSidebar].
    unfold init. cbn zeta.
    eapply keepsTimers_trans; [|apply keeps_renderGalleryPage].
    unfold applyFiltersSearchSort. cbn zeta.
    instantiate (1 := initialState catalog favs storage searchValue sortValue).
    by repeat split.
  + split.
    * split; cbn; try done; intros h; try intros cb; rewrite lookup_empty; done.
    * intros _. split; [done|]. intros h. cbn. by rewrite lookup_empty.
Qed.

Lemma reachable_TimersOk `{Collator} catalog (st : State) :
  reachable catalog st → TimersOk st.
Proof.
  induction 1 as [storage searchValue sortValue st Hload | e st Hr IH Hd].
  - by apply (loaded_quiet catalog storage searchValue sortValue).
  - by apply handle_TimersOk.
Qed.

Lemma run_quiet `{Collator} catalog (es : list Event) (st : State) :
  QuietWhenClosed st → slideshowBtnOnlyWhenOpen catalog es st = true →
  QuietWhenClosed (run catalog es st).
Proof.
  revert st. induction es as [|e es IH]; intros st Hq Hes; [exact Hq|].
  cbn [run slideshowBtnOnlyWhenOpen] in *. apply andb_true_iff in Hes as [He Hes].
  apply IH; [|exact Hes]. apply handle_quiet; [exact Hq|]. by intros ->.
Qed.

Lemma resetAndRender_currentIndex `{Collator} catalog (st : State) :
  currentIndex (resetAndRender catalog st) = currentIndex st.
Proof.
  unfold resetAndRender, renderGalleryPage. cbn zeta.
  repeat match goal with
         | |- context [if ?c then _ else _] => destruct c
         end; reflexivity.
Qed.

(** With the slideshow stopped, timers that fire leave the selection
    alone and the lightbox as it is. *)
Lemma timers_fire_quietly `{Collator} catalog (hs : list Z) (st : State) :
  TimersOk st → slideshowStopped st →
  let st' := run catalog (map TimerFires hs) st in
  currentIndex st' = currentIndex st ∧
  lightbox_active st' = lightbox_active st ∧
  TimersOk st' ∧ slideshowStopped st'.
Proof.
  revert st. induction hs as [|h hs IH]; intros st Hok Hst; [done|].
  cbn [map run handle].
  assert (Hstep : currentIndex (onTimer catalog h st) = currentIndex st ∧
                  lightbox_active (onTimer catalog h st) = lightbox_active st).
  { unfold onTimer. destruct (timers st !! h) as [[|]|] eqn:Hl; [|split..]; try done.
    - by apply Hst in Hl.
    - by rewrite resetAndRender_currentIndex.
    - destruct (keeps_resetAndRender catalog (set_timers (delete h (timers st)) st))
        as (_ & _ & _ & _ & K5).
      unfold resetAndRender, renderGalleryPage. cbn zeta.
      repeat match goal with
             | |- context [if ?c then _ else _] => destruct c
             end; reflexivity. }
  destruct (onTimer_ok catalog h st Hok) as (T1 & T2 & _).
  assert (Hst' : slideshowStopped (onTimer catalog h st)).
  { apply TimersOk_stopped; [exact T1|]. rewrite T2. apply Hst. }
  destruct (IH _ T1 Hst') as (I1 & I2 & I3 & I4). cbn zeta in *.
  destruct Hstep as [S1 S2].
  split; [congruence|]. split; [congruence|]. split; [exact I3 | exact I4].
Qed.

(** C7.  In every state the page can reach with the lightbox open,
    each way out of the lightbox (the close button, a click on the
    overlay, the Escape key) closes it and leaves no slideshow timer
    pending and the slideshow handle null; whatever timers fire
    afterwards, the selection does not move and the slideshow stays
    stopped.  And from a state in which no slideshow runs while the
    lightbox is closed (the loaded page, or the page after a close),
    through any events in which the slideshow button is clicked only
    while the lightbox is open, no slideshow timer is pending whenever
    the lightbox is closed.  (The listener of the slideshow button
    does not look at the lightbox: a click on it while the lightbox is
    closed would start a slideshow.) *)
Theorem closing_stops_slideshow `{Collator} (catalog : list ImageRecord) :
  (∀ st e, reachable catalog st → lightbox_active st = true → exitsLightbox e →
     let st' := handle catalog e st in
     lightbox_active st' = false ∧ slideshowStopped st' ∧
     ∀ hs, let st'' := run catalog (map TimerFires hs) st' in
           currentIndex st'' = currentIndex st' ∧
           lightbox_active st'' = false ∧ slideshowStopped st'') ∧
  (∀ st es, reachable catalog st →
     (lightbox_active st = false → slideshowStopped st) →
     slideshowBtnOnlyWhenOpen catalog es st = true →
     let st' := run catalog es st in
     lightbox_active st' = false → slideshowStopped st').
Proof.
  split.
  - intros st e Hr Ha Hexit.
    pose proof (reachable_TimersOk catalog st Hr) as Hok.
    assert (Hst' : handle catalog e st = closeLightbox st).
    { destruct Hexit as [->| [->| [b ->]]]; try reflexivity.
      cbn [handle]. unfold onKeyDown. rewrite Ha. reflexivity. }
    cbn zeta. rewrite Hst'.
    destruct (closeLightbox_stops st Hok) as (C1 & C2 & C3).
    split; [exact C3|]. split; [exact C2|].
    intros hs. destruct (timers_fire_quietly catalog hs _ C1 C2) as (F1 & F2 & _ & F4).
    cbn zeta in *. split; [exact F1|]. split; [congruence | exact F4].
  - intros st es Hr Hq Hes st' Ha.
    pose proof (reachable_TimersOk catalog st Hr) as Hok.
    by apply (run_quiet catalog es st (conj Hok Hq) Hes).
Qed.

Lemma slideshowPlaying_reachable : reachable (H := codeUnitCollator) IMAGES slideshowPlaying.
Proof.
  change (reachable (H := codeUnitCollator) IMAGES
            (handle (H := codeUnitCollator) IMAGES ClickSlideshowBtn
               (handle (H := codeUnitCollator) IMAGES (ClickItem 0) loadedPage))).
  apply reachable_event; [apply reachable_event|].
  - eapply reachable_load. exact loadedPage_loads.
  - reflexivity.
  - vm_compute. reflexivity.
Qed.

Lemma closing_stops_slideshow_witness :
  lightbox_active slideshowPlaying = true ∧
  timers slideshowPlaying !! 1 = Some SlideshowTick ∧
  exitsLightbox (KeyDown "Escape" false) ∧
  slideshowStopped
    (handle (H := codeUnitCollator) IMAGES (KeyDown "Escape" false) slideshowPlaying) ∧
  currentIndex
    (run (H := codeUnitCollator) IMAGES (map TimerFires [1; 1; 2])
       (handle (H := codeUnitCollator) IMAGES (KeyDown "Escape" false) slideshowPlaying))
  = currentIndex
      (handle (H := codeUnitCollator) IMAGES (KeyDown "Escape" false) slideshowPlaying) ∧
  slideshowBtnOnlyWhenOpen (H := codeUnitCollator) IMAGES
    [KeyDownItem 0 " "; ClickSlideshowBtn; ClickSlideshowBtn; ClickLightboxOverlay]
    loadedPage = true ∧
  slideshowStopped
    (run (H := codeUnitCollator) IMAGES
       [KeyDownItem 0 " "; ClickSlideshowBtn; ClickSlideshowBtn; ClickLightboxOverlay]
       loadedPage).
Proof.
  assert (Ha : lightbox_active slideshowPlaying = true) by (vm_compute; reflexivity).
  assert (He : exitsLightbox (KeyDown "Escape" false)).
  { right. right. exists false. reflexivity. }
  pose proof (proj1 (closing_stops_slideshow (H := codeUnitCollator) IMAGES)
                slideshowPlaying (KeyDown "Escape" false)
                slideshowPlaying_reachable Ha He) as Hw.
  cbn zeta in Hw. destruct Hw as (_ & Hstop & Hrun).
  assert (Hr : reachable (H := codeUnitCollator) IMAGES loadedPage).
  { eapply reachable_load. exact loadedPage_loads. }
  assert (Hq : lightbox_active loadedPage = false → slideshowStopped loadedPage).
  { exact (proj2 (loaded_quiet IMAGES ∅ "" "newest" loadedPage loadedPage_loads)). }
  assert (Hes : slideshowBtnOnlyWhenOpen (H := codeUnitCollator) IMAGES
                  [KeyDownItem 0 " "; ClickSlideshowBtn; ClickSlideshowBtn;
                   ClickLightboxOverlay] loadedPage = true)
    by (vm_compute; reflexivity).
  pose proof (proj2 (closing_stops_slideshow (H := codeUnitCollator) IMAGES)
                loadedPage _ Hr Hq Hes) as Hw2.
  cbn zeta in Hw2.
  split; [exact Ha|]. split; [vm_compute; reflexivity|]. split; [exact He|].
  split; [exact Hstop|]. split; [exact (proj1 (Hrun [1; 1; 2]))|].
  split; [exact Hes|]. apply Hw2. vm_compute. reflexivity.
Defined.

(** ** The three views of a favorite *)

Lemma renderFavoritesSidebar_favoritesList catalog (st : State) :
  favoritesList (renderFavoritesSidebar catalog st) =
  if Z.of_nat (length (favorites st)) =? 0 then [NoFavoritesYet]
  else sidebarRows catalog (favorites st).
Proof. unfold renderFavoritesSidebar. cbn. by destruct (_ =? 0). Qed.

Lemma toggleFavorite_favoritesList catalog imgId btnNode (st : State) :
  favoritesList (toggleFavorite catalog imgId btnNode st) =
  if Z.of_nat (length (toggled (favorites st) imgId)) =? 0 then [NoFavoritesYet]
  else sidebarRows catalog (toggled (favorites st) imgId).
Proof.
  unfold toggleFavorite, toggled. cbn zeta.
  rewrite renderFavoritesSidebar_favoritesList, updateLightboxFavoriteIcon_favorites.
  unfold persistFavorites. cbn [favorites set_localStorage].
  by destruct (setHas (favorites st) imgId), btnNode.
Qed.

(** The sidebar has a row for an image of the catalog exactly when the
    set has its id. *)
Lemma sidebarRows_has catalog (favs : list string) (x : string) :
  (∃ r, In r catalog ∧ id r = x) →
  existsb (λ row, match row with
                  | FavoritesItem imgData => String.eqb (id imgData) x
                  | NoFavoritesYet => false
                  end) (sidebarRows catalog favs)
  = setHas favs x.
Proof.
  intros [r [Hr Hid]]. unfold sidebarRows, setHas.
  induction favs as [|y favs IH]; [done|].
  cbn [omap list_omap existsb]. rewrite <- IH.
  destruct (List.find (λ i, String.eqb (id i) y) catalog) as [i|] eqn:Hf;
    cbn [fmap option_fmap option_map existsb].
  - apply find_some in Hf as [_ Hi%String.eqb_eq]. subst y.
    by rewrite (String.eqb_sym x (id i)).
  - destruct (String.eqb_spec x y) as [->|]; [|done].
    apply (find_none _ _ Hf) in Hr. rewrite Hid, String.eqb_refl in Hr. done.
Qed.

(** After any call of [toggleFavorite] the rows of the sidebar agree
    with the set, for every image of the catalog. *)
Lemma toggleFavorite_sidebar_agrees catalog imgId btnNode (st : State) x :
  (∃ r, In r catalog ∧ id r = x) →
  sidebarAgrees (toggleFavorite catalog imgId btnNode st) x = true.
Proof.
  intros [r [Hr Hid]].
  unfold sidebarAgrees, sidebarHas.
  rewrite toggleFavorite_favoritesList, toggleFavorite_favorites.
  generalize (toggled (favorites st) imgId). intros favs.
  destruct favs as [|y favs]; [reflexivity|].
  destruct (Z.eqb_spec (Z.of_nat (length (y :: favs))) 0) as [He|_];
    [cbn [length] in He; lia|].
  rewrite sidebarRows_has by eauto.
  by destruct (setHas (y :: favs) x).
Qed.

(** The last two steps of [toggleFavorite] give the favorite button
    the heart of the selected entry and leave the displayed image. *)
Lemma heart_of_selected_entry catalog (s : State) (r : ImageRecord) :
  arrayGet (filteredList s) (currentIndex s) = Some r →
  let s' := renderFavoritesSidebar catalog (updateLightboxFavoriteIcon s) in
  favoriteBtn_icon s' = heartIcon (setHas (favorites s') (id r)) ∧
  lightboxImage_src s' = lightboxImage_src s.
Proof.
  intros Hg. unfold renderFavoritesSidebar, updateLightboxFavoriteIcon, updateFavoriteCount.
  rewrite Hg. cbn zeta. by destruct (_ =? 0).
Qed.

Lemma toggleFavorite_lightboxImage_src catalog imgId btnNode (st : State) :
  lightboxImage_src (toggleFavorite catalog imgId btnNode st) = lightboxImage_src st.
Proof.
  unfold toggleFavorite, renderFavoritesSidebar, updateLightboxFavoriteIcon,
    updateFavoriteCount, persistFavorites. cbn zeta.
  repeat match goal with
         | |- context [match ?x with _ => _ end] => destruct x
         end; reflexivity.
Qed.

(** While the lightbox is in step with the selection, a toggle leaves
    its heart right for every image. *)
Lemma toggleFavorite_lightbox_agrees catalog imgId btnNode (st : State) x :
  lightboxInStep catalog st →
  lightboxAgreesOn catalog (toggleFavorite catalog imgId btnNode st) x = true.
Proof.
  intros Hstep. unfold lightboxAgreesOn. apply forallb_forall. intros r Hin.
  destruct (String.eqb_spec (id r) x) as [Hid|]; [|done]. cbn [andb].
  destruct (lightboxDisplays _ r) eqn:Hd; [|done].
  apply bool_decide_eq_true.
  unfold lightboxDisplays in Hd. rewrite toggleFavorite_lightboxImage_src in Hd.
  pose proof (Hstep r Hin Hd) as Hg. rewrite <- Hid.
  unfold toggleFavorite. cbn zeta.
  match goal with
  | |- context [renderFavoritesSidebar _ (updateLightboxFavoriteIcon ?s)] =>
      assert (Hs : arrayGet (filteredList s) (currentIndex s) = Some r)
  end.
  { unfold persistFavorites. by destruct (setHas (favorites st) imgId), btnNode. }
  by destruct (heart_of_selected_entry catalog _ r Hs) as [Hh _].
Qed.

(** C5 at the input where the script departs from it: the favorite
    button of the lightbox is clicked while it shows the first item of
    the gallery.  The set gains the item's id, the lightbox shows the
    solid heart and the sidebar lists the item, but the gallery item
    keeps the outline heart: no renderer of the grid is reached from
    [toggleFavoriteCurrent]. *)
Theorem lightbox_toggle_leaves_grid_stale :
  viewsAgree lightboxOnFirst "20" = true ∧
  favorites favoritedInLightbox = ["20"] ∧
  favoriteBtn_icon favoritedInLightbox = IconHeartSolid ∧
  lightboxAgrees favoritedInLightbox "20" = true ∧
  sidebarAgrees favoritedInLightbox "20" = true ∧
  galleryEl favoritedInLightbox !! 0%nat =
    Some (GalleryItem
            (mkImage "20" "Glass Tower" "Reflections on glass facade." "architecture"
               "image/photo20.avif" "2025-08-03" 125) 0 IconHeartRegular) ∧
  gridAgrees favoritedInLightbox "20" = false ∧
  viewsAgree favoritedInLightbox "20" = false.
Proof. repeat split; vm_compute; reflexivity. Qed.

(** The two other surfaces, on the same page, leave the three views
    in agreement: the item's own button updates its heart, and the
    sidebar's remove button rebuilds the gallery. *)
Lemma grid_and_sidebar_toggles_agree :
  favorites favoritedInGrid = ["20"] ∧
  viewsAgree favoritedInGrid "20" = true ∧
  favorites removedInSidebar = [] ∧
  viewsAgree removedInSidebar "20" = true.
Proof. repeat split; vm_compute; reflexivity. Qed.

(** ** Reading the favorites back *)

Module JSONFacts.
Import JSON.
Local Open Scope char_scope.

Lemma skipWs_length s : (length (skipWs s) <= length s)%nat.
Proof.
  induction s as [|c s IH]; cbn [skipWs]; [done|].
  destruct (isWs c); cbn [length]; lia.
Qed.

Lemma skipWs_cons s c r : skipWs s = c :: r → (length r < length s)%nat.
Proof.
  intros Hs. pose proof (skipWs_length s) as Hl. rewrite Hs in Hl.
  cbn [length] in Hl. lia.
Qed.

(** Scanning a string literal or a number is by structural
    recursion: it never exhausts the budget, and what it accepts is
    not empty. *)
Lemma parseStringBody_bounded n : ∀ s, (length s <= n)%nat →
  parseStringBody s ≠ OutOfFuel ∧
  ∀ us r, parseStringBody s = Ok (us, r) → (length r < length s)%nat.
Proof.
  induction n as [|n IH]; intros s Hn.
  - destruct s; [|cbn in Hn; lia]. split; [discriminate|]. cbn. discriminate.
  - destruct s as [|c r]; [split; [discriminate | cbn; discriminate]|].
    cbn [length] in Hn. cbn [parseStringBody].
    destruct (Ascii.eqb c "034").
    { split; [discriminate|]. intros us r' [= <- <-]. cbn. lia. }
    destruct (Ascii.eqb c "\").
    { destruct r as [|e r1]; [split; discriminate|]. cbn [length] in Hn.
      destruct (simpleEscape e).
      - destruct (IH r1 ltac:(lia)) as [H1 H2].
        destruct (parseStringBody r1) as [[us rest]| |]; [| |done].
        + split; [discriminate|]. cbn. intros us' r' [= <- <-].
          specialize (H2 us rest eq_refl). lia.
        + split; discriminate.
      - destruct (Ascii.eqb e "u"); [|split; discriminate].
        destruct r1 as [|h1 [|h2 [|h3 [|h4 r2]]]]; try (split; discriminate).
        cbn [length] in Hn.
        destruct (hexValue h1), (hexValue h2), (hexValue h3), (hexValue h4);
          try (split; discriminate).
        destruct (IH r2 ltac:(lia)) as [H1 H2].
        destruct (parseStringBody r2) as [[us rest]| |]; [| |done].
        + split; [discriminate|]. cbn. intros us' r' [= <- <-].
          specialize (H2 us rest eq_refl). lia.
        + split; discriminate. }
    destruct (_ <? _)%N; [split; discriminate|].
    destruct (IH r ltac:(lia)) as [H1 H2].
    destruct (parseStringBody r) as [[us rest]| |]; [| |done].
    + split; [discriminate|]. cbn. intros us' r' [= <- <-].
      specialize (H2 us rest eq_refl). lia.
    + split; discriminate.
Qed.

Lemma parseStringBody_total s : parseStringBody s ≠ OutOfFuel.
Proof. by apply (parseStringBody_bounded (length s)). Qed.

Lemma parseStringBody_shorter s us r :
  parseStringBody s = Ok (us, r) → (length r < length s)%nat.
Proof. by apply (parseStringBody_bounded (length s)). Qed.

Lemma spanDigits_length s ds r :
  spanDigits s = (ds, r) → (length r + length ds = length s)%nat.
Proof.
  revert ds r. induction s as [|c s IH]; intros ds r; cbn [spanDigits].
  - by intros [= <- <-].
  - destruct (isDigit c); [|by intros [= <- <-]].
    destruct (spanDigits s) as [ds' r']. intros [= <- <-].
    specialize (IH ds' r' eq_refl). cbn [length]. lia.
Qed.

Lemma digits1_spec s :
  digits1 s ≠ OutOfFuel ∧
  ∀ ds r, digits1 s = Ok (ds, r) → (length r < length s)%nat.
Proof.
  unfold digits1. destruct (spanDigits s) as [ds r] eqn:Hs.
  apply spanDigits_length in Hs.
  destruct ds; [split; discriminate|]. split; [discriminate|].
  intros ds' r' [= <- <-]. cbn [length] in Hs. lia.
Qed.

Lemma parseNumber_spec s :
  parseNumber s ≠ OutOfFuel ∧
  ∀ lexeme r, parseNumber s = Ok (lexeme, r) → (length r < length s)%nat.
Proof.
  unfold parseNumber.
  set (p := match s with
            | c :: r => if Ascii.eqb c "-" then ([c], r) else ([], s)
            | [] => ([], s)
            end).
  assert (Hp : (length p.2 <= length s)%nat).
  { subst p. destruct s as [|c r]; [done|]. destruct (Ascii.eqb c "-"); cbn; lia. }
  destruct p as [sign s1]. cbn [snd] in Hp.
  assert (Hint : parseInt s1 ≠ OutOfFuel ∧
                 ∀ ip s2, parseInt s1 = Ok (ip, s2) → (length s2 < length s1)%nat).
  { unfold parseInt. destruct s1 as [|c r]; [split; discriminate|].
    destruct (Ascii.eqb c "0"); [|apply digits1_spec].
    split; [discriminate|]. intros ip s2 [= <- <-]. cbn. lia. }
  destruct Hint as [I1 I2].
  destruct (parseInt s1) as [[ip s2]| |]; [| split; discriminate | done].
  specialize (I2 ip s2 eq_refl). cbn.
  assert (Hfrac : parseFrac s2 ≠ OutOfFuel ∧
                  ∀ fp s3, parseFrac s2 = Ok (fp, s3) → (length s3 <= length s2)%nat).
  { unfold parseFrac. destruct s2 as [|c r]; [split; [discriminate|]|].
    { by intros fp s3 [= <- <-]. }
    destruct (Ascii.eqb c ".").
    - destruct (digits1_spec r) as [D1 D2].
      destruct (digits1 r) as [[ds rest]| |]; [| split; discriminate | done].
      split; [discriminate|]. cbn. intros fp s3 [= <- <-].
      specialize (D2 ds rest eq_refl). lia.
    - split; [discriminate|]. by intros fp s3 [= <- <-]. }
  destruct Hfrac as [F1 F2].
  destruct (parseFrac s2) as [[fp s3]| |]; [| split; discriminate | done].
  specialize (F2 fp s3 eq_refl). cbn.
  assert (Hexp : parseExp s3 ≠ OutOfFuel ∧
                 ∀ ep s4, parseExp s3 = Ok (ep, s4) → (length s4 <= length s3)%nat).
  { unfold parseExp. destruct s3 as [|c r]; [split; [discriminate|]|].
    { by intros ep s4 [= <- <-]. }
    destruct (_ || _).
    - destruct r as [|sg r1]; [split; discriminate|].
      destruct (_ || _).
      + destruct (digits1_spec r1) as [D1 D2].
        destruct (digits1 r1) as [[ds rest]| |]; [| split; discriminate | done].
        split; [discriminate|]. cbn. intros ep s4 [= <- <-].
        specialize (D2 ds rest eq_refl). lia.
      + destruct (digits1_spec (sg :: r1)) as [D1 D2].
        destruct (digits1 (sg :: r1)) as [[ds rest]| |];
          [| split; discriminate | done].
        split; [discriminate|]. cbn. intros ep s4 [= <- <-].
        specialize (D2 ds rest eq_refl). cbn in D2. lia.
    - split; [discriminate|]. by intros ep s4 [= <- <-]. }
  destruct Hexp as [E1 E2].
  destruct (parseExp s3) as [[ep s4]| |]; [| split; discriminate | done].
  specialize (E2 ep s4 eq_refl). cbn.
  split; [discriminate|]. intros lexeme r [= <- <-]. lia.
Qed.

Lemma expect_spec word v s :
  word ≠ [] →
  expect word v s ≠ OutOfFuel ∧
  ∀ v' r, expect word v s = Ok (v', r) → (length r < length s)%nat.
Proof.
  intros Hw. unfold expect. case_bool_decide as Ht; [|split; discriminate].
  split; [discriminate|]. intros v' r [= <- <-].
  rewrite length_drop. destruct word; [done|].
  destruct s; [discriminate|]. cbn; lia.
Qed.

(** The three mutually recursive parsers: with a budget of more than
    twice the length of the text (one more for elements and members)
    the budget is not exhausted, and what is accepted is not empty. *)
Lemma parse_bounded fuel :
  (∀ s, ((2 * length s < fuel)%nat → parseValue fuel s ≠ OutOfFuel) ∧
        ∀ v r, parseValue fuel s = Ok (v, r) → (length r < length s)%nat) ∧
  (∀ s, ((2 * length s + 1 < fuel)%nat → parseElements fuel s ≠ OutOfFuel) ∧
        ∀ vs r, parseElements fuel s = Ok (vs, r) → (length r < length s)%nat) ∧
  (∀ s, ((2 * length s + 1 < fuel)%nat → parseMembers fuel s ≠ OutOfFuel) ∧
        ∀ ms r, parseMembers fuel s = Ok (ms, r) → (length r < length s)%nat).
Proof.
  induction fuel as [|fuel (IHv & IHe & IHm)].
  { repeat split; intros; (lia || discriminate). }
  split; [|split]; intros s.
  - cbn [parseValue].
    destruct (skipWs s) as [|c r] eqn:Hws; [split; [discriminate | discriminate]|].
    pose proof (skipWs_cons _ _ _ Hws) as Hr.
    destruct (Ascii.eqb c "n").
    { destruct (expect_spec ["n"; "u"; "l"; "l"] JNull (c :: r) ltac:(done)) as [E1 E2].
      split; [done|]. intros v r' He. apply E2 in He. cbn in He. lia. }
    destruct (Ascii.eqb c "t").
    { destruct (expect_spec ["t"; "r"; "u"; "e"] (JBool true) (c :: r) ltac:(done))
        as [E1 E2].
      split; [done|]. intros v r' He. apply E2 in He. cbn in He. lia. }
    destruct (Ascii.eqb c "f").
    { destruct (expect_spec ["f"; "a"; "l"; "s"; "e"] (JBool false) (c :: r) ltac:(done))
        as [E1 E2].
      split; [done|]. intros v r' He. apply E2 in He. cbn in He. lia. }
    destruct (Ascii.eqb c "034").
    { pose proof (parseStringBody_total r) as T1.
      pose proof (parseStringBody_shorter r) as T2.
      destruct (parseStringBody r) as [[us rest]| |]; [| split; discriminate | done].
      specialize (T2 us rest eq_refl). split; [discriminate|].
      cbn. intros v r' [= <- <-]. lia. }
    destruct (Ascii.eqb c "[").
    { destruct (skipWs r) as [|c1 r1] eqn:Hws1; [split; discriminate|].
      pose proof (skipWs_cons _ _ _ Hws1) as Hr1.
      destruct (Ascii.eqb c1 "]").
      { split; [discriminate|]. intros v r' [= <- <-]. lia. }
      destruct (IHe r) as [F1 F2].
      destruct (parseElements fuel r) as [[vs rest]| |] eqn:Hpe.
      - specialize (F2 vs rest eq_refl). split; [discriminate|].
        cbn. intros v r' [= <- <-]. lia.
      - split; discriminate.
      - split; [|discriminate]. intros Hf. exfalso. apply F1; [lia | done]. }
    destruct (Ascii.eqb c "{").
    { destruct (skipWs r) as [|c1 r1] eqn:Hws1; [split; discriminate|].
      pose proof (skipWs_cons _ _ _ Hws1) as Hr1.
      destruct (Ascii.eqb c1 "}").
      { split; [discriminate|]. intros v r' [= <- <-]. lia. }
      destruct (IHm r) as [F1 F2].
      destruct (parseMembers fuel r) as [[ms rest]| |] eqn:Hpm.
      - specialize (F2 ms rest eq_refl). split; [discriminate|].
        cbn. intros v r' [= <- <-]. lia.
      - split; discriminate.
      - split; [|discriminate]. intros Hf. exfalso. apply F1; [lia | done]. }
    destruct (_ || _); [|split; discriminate].
    destruct (parseNumber_spec (c :: r)) as [N1 N2].
    destruct (parseNumber (c :: r)) as [[lexeme rest]| |]; [| split; discriminate | done].
    specialize (N2 lexeme rest eq_refl). split; [discriminate|].
    cbn. intros v r' [= <- <-]. cbn in N2. lia.
  - cbn [parseElements].
    destruct (IHv s) as [F1 F2].
    destruct (parseValue fuel s) as [[v r]| |] eqn:Hpv.
    + specialize (F2 v r eq_refl). cbn.
      destruct (skipWs r) as [|c r1] eqn:Hws; [split; discriminate|].
      pose proof (skipWs_cons _ _ _ Hws) as Hr1.
      destruct (Ascii.eqb c ",").
      * destruct (IHe r1) as [G1 G2].
        destruct (parseElements fuel r1) as [[vs rest]| |] eqn:Hpe.
        -- specialize (G2 vs rest eq_refl). split; [discriminate|].
           cbn. intros vs' r' [= <- <-]. lia.
        -- split; discriminate.
        -- split; [|discriminate]. intros Hf. exfalso. apply G1; [lia | done].
      * destruct (Ascii.eqb c "]"); [|split; discriminate].
        split; [discriminate|]. intros vs' r' [= <- <-]. lia.
    + split; discriminate.
    + split; [|discriminate]. intros Hf. exfalso. apply F1; [lia | done].
  - cbn [parseMembers].
    destruct (skipWs s) as [|q r0] eqn:Hws0; [split; discriminate|].
    pose proof (skipWs_cons _ _ _ Hws0) as Hr0.
    destruct (Ascii.eqb q "034"); [|split; discriminate].
    pose proof (parseStringBody_total r0) as T1.
    pose proof (parseStringBody_shorter r0) as T2.
    destruct (parseStringBody r0) as [[k r]| |]; [| split; discriminate | done].
    specialize (T2 k r eq_refl). cbn.
    destruct (skipWs r) as [|col r1] eqn:Hws1; [split; discriminate|].
    pose proof (skipWs_cons _ _ _ Hws1) as Hr1.
    destruct (Ascii.eqb col ":"); [|split; discriminate].
    destruct (IHv r1) as [F1 F2].
    destruct (parseValue fuel r1) as [[v r2]| |] eqn:Hpv.
    + specialize (F2 v r2 eq_refl). cbn.
      destruct (skipWs r2) as [|c r3] eqn:Hws3; [split; discriminate|].
      pose proof (skipWs_cons _ _ _ Hws3) as Hr3.
      destruct (Ascii.eqb c ",").
      * destruct (IHm r3) as [G1 G2].
        destruct (parseMembers fuel r3) as [[ms rest]| |] eqn:Hpm.
        -- specialize (G2 ms rest eq_refl). split; [discriminate|].
           cbn. intros ms' r' [= <- <-]. lia.
        -- split; discriminate.
        -- split; [|discriminate]. intros Hf. exfalso. apply G1; [lia | done].
      * destruct (Ascii.eqb c "}"); [|split; discriminate].
        split; [discriminate|]. intros ms' r' [= <- <-]. lia.
    + split; discriminate.
    + split; [|discriminate]. intros Hf. exfalso. apply F1; [lia | done].
Qed.

(** [JSON.parse] always gives a value or a [SyntaxError]. *)
Lemma parse_total text : parse text ≠ OutOfFuel.
Proof.
  unfold parse. cbn zeta.
  destruct (parse_bounded (2 * length (list_ascii_of_string text) + 2)) as (Hv & _).
  destruct (Hv (list_ascii_of_string text)) as [H1 _]. specialize (H1 ltac:(lia)).
  destruct (parseValue _ _) as [[v rest]| |]; [| discriminate | done].
  cbn. by destruct (skipWs rest).
Qed.
End JSONFacts.

(** The code points of a string are its code units, cut into single
    units and surrogate pairs. *)
Lemma codePoints_cons (u : N) (us : list N) :
  codePoints (u :: us) =
  match us with
  | v :: us'' =>
      if isHighSurrogate u && isLowSurrogate v
      then [u; v] :: codePoints us''
      else [u] :: codePoints us
  | [] => [[u]]
  end.
Proof. by destruct us. Qed.

Lemma codePoints_spec (n : nat) (us : list N) :
  (length us <= n)%nat →
  concat (codePoints us) = us ∧
  Forall (λ cp, length cp = 1%nat ∨
                ∃ hi lo, cp = [hi; lo] ∧ isHighSurrogate hi = true ∧
                         isLowSurrogate lo = true) (codePoints us).
Proof.
  revert us. induction n as [|n IH]; intros us Hn.
  { destruct us; [by split | cbn in Hn; lia]. }
  destruct us as [|u [|v us]]; [by split | split; [done | by repeat constructor] |].
  cbn [length] in Hn. rewrite codePoints_cons.
  destruct (isHighSurrogate u) eqn:Hu; cbn [andb];
    [destruct (isLowSurrogate v) eqn:Hv|].
  - destruct (IH us ltac:(lia)) as [Hc Hf]. split.
    + cbn [concat app]. by rewrite Hc.
    + constructor; [right; by exists u, v | exact Hf].
  - destruct (IH (v :: us) ltac:(cbn [length]; lia)) as [Hc Hf]. split.
    + cbn [concat app]. by rewrite Hc.
    + constructor; [by left | exact Hf].
  - destruct (IH (v :: us) ltac:(cbn [length]; lia)) as [Hc Hf]. split.
    + cbn [concat app]. by rewrite Hc.
    + constructor; [by left | exact Hf].
Qed.

Lemma codePoints_concat (us : list N) : concat (codePoints us) = us.
Proof. by apply (codePoints_spec (length us)). Qed.

Lemma codePoints_steps (us : list N) :
  Forall (λ cp, length cp = 1%nat ∨
                ∃ hi lo, cp = [hi; lo] ∧ isHighSurrogate hi = true ∧
                         isLowSurrogate lo = true) (codePoints us).
Proof. by apply (codePoints_spec (length us)). Qed.

(** C8 as the specification states it fails: text under the favorites
    key that is not JSON (here an array cut short) makes [JSON.parse]
    throw while the script is being loaded; nothing catches the error,
    and the script does not reach [init]. *)
Lemma corrupt_favorites_throw :
  hydrateFavorites (<["gallery_favorites" := "[3,"]> ∅) = Throws SyntaxError ∧
  loadScript (H := codeUnitCollator) IMAGES (<["gallery_favorites" := "[3,"]> ∅)
    "" "newest" = Throws SyntaxError ∧
  hydrateFavorites (<["gallery_favorites" := "{}"]> ∅) = Throws TypeError.
Proof. repeat split; vm_compute; reflexivity. Qed.

(** C8 (as amended).  Hydration of the favorites always terminates.
    When the favorites key is absent or holds the empty string, it
    yields the empty set.  Otherwise its outcome is decided by the
    stored text.  Text that [JSON.parse] rejects makes hydration throw
    that error.  Text that parses to an array adds the elements of the
    array; to [null], nothing; to a string, its code points (a
    surrogate pair is one member); text that parses to a number, a
    boolean or an object makes hydration throw a [TypeError].  Whenever
    hydration throws, loading the script throws: the script does not
    reach [init]. *)
Theorem hydration_outcomes `{Collator} (catalog : list ImageRecord)
    (storage : gmap string string) :
  hydrateFavorites storage ≠ OutOfFuel ∧
  (storage !! "gallery_favorites" = None ∨ storage !! "gallery_favorites" = Some "" →
   hydrateFavorites storage = Ok []) ∧
  (∀ text, storage !! "gallery_favorites" = Some text → text ≠ "" →
     (∀ e, JSON.parse text = Throws e → hydrateFavorites storage = Throws e) ∧
     (∀ l, JSON.parse text = Ok (JArray l) → hydrateFavorites storage = Ok l) ∧
     (JSON.parse text = Ok JNull → hydrateFavorites storage = Ok []) ∧
     (∀ us, JSON.parse text = Ok (JString us) →
            hydrateFavorites storage = Ok (map JString (codePoints us)) ∧
            concat (codePoints us) = us ∧
            Forall (λ cp, length cp = 1%nat ∨
                          ∃ hi lo, cp = [hi; lo] ∧ isHighSurrogate hi = true ∧
                                   isLowSurrogate lo = true) (codePoints us)) ∧
     (∀ b, JSON.parse text = Ok (JBool b) → hydrateFavorites storage = Throws TypeError) ∧
     (∀ lexeme, JSON.parse text = Ok (JNumber lexeme) →
                hydrateFavorites storage = Throws TypeError) ∧
     (∀ members, JSON.parse text = Ok (JObject members) →
                 hydrateFavorites storage = Throws TypeError)) ∧
  (∀ e, hydrateFavorites storage = Throws e →
     ∀ searchValue sortValue,
       loadScript catalog storage searchValue sortValue = Throws e).
Proof.
  split; [|split; [|split]].
  - unfold hydrateFavorites. cbn zeta.
    match goal with |- context [JSON.parse ?t] =>
      pose proof (JSONFacts.parse_total t) as Ht; destruct (JSON.parse t) as [v| |]
    end; [|discriminate|done].
    cbn. by destruct v.
  - unfold hydrateFavorites. by intros [-> | ->].
  - intros text Hs Hne.
    assert (Hh : hydrateFavorites storage = (v ← JSON.parse text; iterate v)).
    { unfold hydrateFavorites. rewrite Hs. cbn zeta.
      by destruct (String.eqb_spec text ""). }
    rewrite Hh.
    split; [by intros e ->|]. split; [by intros l ->|]. split; [by intros ->|].
    split.
    { intros us ->. split; [done|]. split.
      - apply codePoints_concat.
      - apply codePoints_steps. }
    split; [by intros b ->|]. split; [by intros lexeme ->|]. by intros members ->.
  - intros e He searchValue sortValue. unfold loadScript. by rewrite He.
Qed.

Lemma hydration_outcomes_witness :
  (<["gallery_favorites" := "oops"]> (∅ : gmap string string)) !! "gallery_favorites"
    = Some "oops" ∧
  "oops" ≠ "" ∧
  JSON.parse "oops" = Throws SyntaxError ∧
  hydrateFavorites (<["gallery_favorites" := "oops"]> ∅) = Throws SyntaxError ∧
  hydrateFavorites (<["gallery_favorites" := "7"]> ∅) = Throws TypeError ∧
  hydrateFavorites (∅ : gmap string string) = Ok [].
Proof.
  assert (Hl : (<["gallery_favorites" := "oops"]> (∅ : gmap string string))
                 !! "gallery_favorites" = Some "oops") by (vm_compute; reflexivity).
  assert (Hne : "oops" ≠ "") by discriminate.
  assert (Hp : JSON.parse "oops" = Throws SyntaxError) by (vm_compute; reflexivity).
  assert (Hl7 : (<["gallery_favorites" := "7"]> (∅ : gmap string string))
                  !! "gallery_favorites" = Some "7") by (vm_compute; reflexivity).
  assert (Hne7 : "7" ≠ "") by discriminate.
  assert (Hp7 : JSON.parse "7" = Ok (JNumber ["7"%char])) by (vm_compute; reflexivity).
  pose proof (hydration_outcomes (H := codeUnitCollator) IMAGES
                (<["gallery_favorites" := "oops"]> ∅)) as (_ & _ & Hw & _).
  pose proof (hydration_outcomes (H := codeUnitCollator) IMAGES
                (<["gallery_favorites" := "7"]> ∅)) as (_ & _ & Hw7 & _).
  pose proof (hydration_outcomes (H := codeUnitCollator) IMAGES ∅) as (_ & Hempty & _).
  split; [exact Hl|]. split; [exact Hne|]. split; [exact Hp|]. split; [|split].
  - exact (proj1 (Hw "oops" Hl Hne) SyntaxError Hp).
  - destruct (Hw7 "7" Hl7 Hne7) as (_ & _ & _ & _ & _ & Hnum & _).
    exact (Hnum _ Hp7).
  - apply Hempty. left. vm_compute. reflexivity.
Defined.

(** A stored string is added by code point: the pair of escapes of
    U+1F600 is one member of two code units, the letter after it
    another. *)
Lemma stored_string_by_code_point :
  hydrateFavorites
    (<["gallery_favorites" :=
         String "034"%char ("\uD83D\uDE00a" +:+ String "034"%char "")]> ∅)
  = Ok [JString [55357; 56832]%N; JString [97%N]].
Proof. vm_compute. reflexivity. Qed.

(** ** The "nature" scenario on the shipped catalog *)

(** C9 as the specification states it fails on the count: the shipped
    catalog has five entries of category "nature", not four. *)
Lemma nature_has_five_entries :
  length IMAGES = 20%nat ∧
  length (filterSort (H := codeUnitCollator) IMAGES "nature" "" "newest") = 5%nat ∧
  map id (filterSort (H := codeUnitCollator) IMAGES "nature" "" "newest")
    = ["10"; "5"; "1"; "19"; "14"].
Proof. repeat split; vm_compute; reflexivity. Qed.

Lemma nature_entries :
  List.filter (filterPredicate "nature" "") IMAGES =
  [ mkImage "1" "Misty Forest" "Morning mist in evergreen forest." "nature"
      "image/photo1.avif" "2024-11-05" 80;
    mkImage "5" "Mountain Lake" "Crystal lake reflection." "nature"
      "image/photo5.avif" "2025-03-03" 145;
    mkImage "10" "Coastal Cliffs" "Waves crash on cliffs." "nature"
      "image/photo10.avif" "2025-07-08" 200;
    mkImage "14" "Autumn Path" "Leaves on a quiet path." "nature"
      "image/photo14.avif" "2022-10-11" 47;
    mkImage "19" "Golden Fields" "Harvest fields at dusk." "nature"
      "image/photo19.avif" "2024-08-30" 60 ].
Proof. vm_compute. reflexivity. Qed.

(** C9 (as amended).  On the shipped catalog of 20 entries, with the
    search field empty, choosing the category "nature" yields exactly
    the five entries of that category (ids 1, 5, 10, 14 and 19), in the
    order of the sort mode in force: 10, 5, 1, 19, 14 for "newest" and
    for "popular", 14, 19, 1, 5, 10 for "oldest", catalog order for an
    unrecognized mode.  All five are rendered on the first page and
    the "load more" button is hidden. *)
Theorem nature_scenario `{Collator} (st : State) :
  searchInput_value st = "" →
  let st' := handle IMAGES (ClickFilter (Some "nature")) st in
  length IMAGES = 20%nat ∧
  length (filteredList st') = 5%nat ∧
  map id (filteredList st') ≡ₚ ["1"; "5"; "10"; "14"; "19"] ∧
  (∀ r, In r (filteredList st') ↔ In r IMAGES ∧ category r = "nature") ∧
  (sortSelect_value st = "newest" ∨ sortSelect_value st = "popular" →
   map id (filteredList st') = ["10"; "5"; "1"; "19"; "14"]) ∧
  (sortSelect_value st = "oldest" →
   map id (filteredList st') = ["14"; "19"; "1"; "5"; "10"]) ∧
  (sortSelect_value st ≠ "newest" → sortSelect_value st ≠ "oldest" →
   sortSelect_value st ≠ "popular" → sortSelect_value st ≠ "name" →
   map id (filteredList st') = ["1"; "5"; "10"; "14"; "19"]) ∧
  map (λ node, match node with
               | GalleryItem img _ _ => Some img
               | NoImagesFound => None
               end) (galleryEl st') = map Some (filteredList st') ∧
  renderedCount st' = 5 ∧
  loadMoreBtn_display st' = "none".
Proof.
  intros Hsearch st'.
  set (s1 := applyFiltersSearchSort IMAGES
               (set_galleryEl [] (set_activeCategory "nature" st))).
  assert (Hst' : st' = renderGalleryPage s1) by reflexivity.
  assert (Hfl : filteredList s1 =
                arraySort (compareFn (sortSelect_value st))
                  (List.filter (filterPredicate "nature" "") IMAGES)).
  { subst s1. unfold applyFiltersSearchSort, filterSort. cbn. by rewrite Hsearch. }
  assert (Hlen : length (filteredList s1) = 5%nat).
  { by rewrite Hfl, arraySort_length, nature_entries. }
  pose proof (renderGalleryPage_step s1 ltac:(done)) as Hpage.
  cbn zeta in Hpage. rewrite <- Hst' in Hpage.
  destruct Hpage as (Hitems & Hgal & _ & _ & Hsame & Hbtn).
  rewrite Hlen in Hgal, Hbtn.
  assert (Hcount : renderedCount st' = 5).
  { unfold renderedCount. rewrite Hgal by done.
    change (galleryEl s1) with (@nil GalleryNode). cbn [app].
    rewrite pageNodes_items, pageNodes_length.
    pose proof (pageItems_length s1 ltac:(done)) as Hpl. rewrite Hlen in Hpl.
    change (currentPage s1) with 0 in Hpl. unfold PAGE_SIZE in Hpl. lia. }
  rewrite Hsame.
  split; [reflexivity|]. split; [exact Hlen|].
  split.
  { rewrite Hfl. etransitivity; [apply Permutation_map, arraySort_perm|].
    rewrite nature_entries. reflexivity. }
  split.
  { intros r. rewrite Hfl. etransitivity; [apply arraySort_In|].
    etransitivity; [apply filter_In|]. unfold filterPredicate.
    split.
    - intros [Hin [Hcat _]%andb_true_iff]. split; [exact Hin|].
      apply matchesCategory_spec in Hcat as [Hall|Hcat]; [discriminate Hall | exact Hcat].
    - intros [Hin Hcat]. split; [exact Hin|]. apply andb_true_iff. split; [|reflexivity].
      apply matchesCategory_spec. by right. }
  split.
  { intros [Hm | Hm]; rewrite Hfl, Hm, nature_entries; vm_compute; reflexivity. }
  split.
  { intros Hm. rewrite Hfl, Hm, nature_entries. vm_compute. reflexivity. }
  split.
  { intros H1 H2 H3 H4. rewrite Hfl, arraySort_id, nature_entries; [reflexivity|].
    intros x y. unfold sortCompare. by rewrite compareFn_other. }
  split.
  { rewrite Hgal by done. subst s1. cbn [galleryEl applyFiltersSearchSort
      set_filteredList set_currentPage set_galleryEl app].
    unfold pageNodes. cbn zeta. rewrite Hitems.
    rewrite take_ge by (rewrite length_drop; unfold PAGE_SIZE; lia).
    cbn [currentPage applyFiltersSearchSort set_filteredList set_currentPage].
    cbn [Z.mul Z.to_nat drop].
    by apply map_imap_const. }
  split; [exact Hcount|]. rewrite Hbtn. reflexivity.
Qed.

Lemma nature_scenario_witness :
  searchInput_value loadedPage = "" ∧
  length (filteredList
            (handle (H := codeUnitCollator) IMAGES (ClickFilter (Some "nature"))
               loadedPage)) = 5%nat ∧
  loadMoreBtn_display
    (handle (H := codeUnitCollator) IMAGES (ClickFilter (Some "nature")) loadedPage)
  = "none".
Proof.
  assert (Hs : searchInput_value loadedPage = "") by reflexivity.
  pose proof (nature_scenario (H := codeUnitCollator) loadedPage Hs) as Hw.
  cbn zeta in Hw.
  destruct Hw as (_ & Hlen & _ & _ & _ & _ & _ & _ & _ & Hnone).
  split; [exact Hs|]. split; [exact Hlen | exact Hnone].
Defined.

(* ===================================================================== *)
(** * Further properties of the script *)
(* ===================================================================== *)

(** ** The search text *)

Lemma append_cons (c : ascii) (s t : string) :
  String c s +:+ t = String c (s +:+ t).
Proof. reflexivity. Qed.

Lemma append_empty (t : string) : "" +:+ t = t.
Proof. reflexivity. Qed.

Lemma lowerChar_idem (c : ascii) : lowerChar (lowerChar c) = lowerChar c.
Proof. destruct c as [[] [] [] [] [] [] [] []]; vm_compute; reflexivity. Qed.

Lemma isWhiteSpace_lowerChar (c : ascii) : isWhiteSpace (lowerChar c) = isWhiteSpace c.
Proof. destruct c as [[] [] [] [] [] [] [] []]; vm_compute; reflexivity. Qed.

Lemma toLowerCase_idem (s : string) : toLowerCase (toLowerCase s) = toLowerCase s.
Proof.
  induction s as [|c s IH]; [done|]. cbn -[isWhiteSpace lowerChar]. by rewrite lowerChar_idem, IH.
Qed.

Lemma trimStart_toLowerCase (s : string) :
  trimStart (toLowerCase s) = toLowerCase (trimStart s).
Proof.
  induction s as [|c s IH]; [done|]. cbn -[isWhiteSpace lowerChar].
  rewrite isWhiteSpace_lowerChar. by destruct (isWhiteSpace c).
Qed.

Lemma trimEnd_toLowerCase (s : string) :
  trimEnd (toLowerCase s) = toLowerCase (trimEnd s).
Proof.
  induction s as [|c s IH]; [done|]. cbn -[isWhiteSpace lowerChar]. rewrite IH.
  destruct (trimEnd s) as [|d t]; cbn -[isWhiteSpace lowerChar].
  - rewrite isWhiteSpace_lowerChar. by destruct (isWhiteSpace c).
  - done.
Qed.

Lemma trim_toLowerCase (s : string) : trim (toLowerCase s) = toLowerCase (trim s).
Proof. unfold trim. by rewrite trimStart_toLowerCase, trimEnd_toLowerCase. Qed.

Lemma trimStart_padding (w s : string) :
  allWhiteSpace w = true → trimStart (w +:+ s) = trimStart s.
Proof.
  induction w as [|c w IH]; [done|]. rewrite append_cons. cbn -[isWhiteSpace lowerChar].
  intros [Hc Hw]%andb_true_iff. rewrite Hc. by apply IH.
Qed.

Lemma trimEnd_allWhiteSpace (w : string) : allWhiteSpace w = true → trimEnd w = "".
Proof.
  induction w as [|c w IH]; [done|]. cbn -[isWhiteSpace lowerChar].
  intros [Hc Hw]%andb_true_iff. by rewrite IH, Hc.
Qed.

Lemma trimStart_allWhiteSpace (w : string) : allWhiteSpace w = true → trimStart w = "".
Proof.
  induction w as [|c w IH]; [done|]. cbn -[isWhiteSpace lowerChar].
  intros [Hc Hw]%andb_true_iff. rewrite Hc. by apply IH.
Qed.

Lemma trimEnd_padding (s w : string) :
  allWhiteSpace w = true → trimEnd (s +:+ w) = trimEnd s.
Proof.
  intros Hw. induction s as [|c s IH].
  - rewrite append_empty. by apply trimEnd_allWhiteSpace.
  - rewrite append_cons. cbn -[isWhiteSpace lowerChar]. by rewrite IH.
Qed.

Lemma trimStart_append (s w : string) :
  allWhiteSpace w = true →
  trimEnd (trimStart (s +:+ w)) = trimEnd (trimStart s).
Proof.
  intros Hw. induction s as [|c s IH].
  - rewrite append_empty. by rewrite trimStart_allWhiteSpace.
  - rewrite append_cons. cbn -[isWhiteSpace lowerChar trimEnd].
    destruct (isWhiteSpace c); [exact IH|].
    rewrite <- append_cons. by apply trimEnd_padding.
Qed.

Lemma trim_padding (w1 s w2 : string) :
  allWhiteSpace w1 = true → allWhiteSpace w2 = true →
  trim (w1 +:+ s +:+ w2) = trim s.
Proof.
  intros H1 H2. unfold trim. rewrite trimStart_padding by done.
  by apply trimStart_append.
Qed.

Lemma filter_matchesSearch_empty (activeCategory : string) (catalog : list ImageRecord) :
  List.filter (filterPredicate activeCategory "") catalog =
  List.filter (matchesCategory activeCategory) catalog.
Proof.
  apply List.filter_ext. intros img. unfold filterPredicate, matchesSearch.
  cbn [String.eqb]. by rewrite andb_true_r.
Qed.

(** X1.  The search ignores the case of the query and the white space
    around it: putting white space before and after the text of the
    search field, or lowercasing it, does not change the list computed
    by the engine; and a query of white space only selects by category
    alone. *)
Theorem search_ignores_case_and_padding `{Collator}
    (catalog : list ImageRecord) (activeCategory sortBy : string)
    (w1 s w2 : string) :
  allWhiteSpace w1 = true → allWhiteSpace w2 = true →
  filterSort catalog activeCategory (w1 +:+ s +:+ w2) sortBy
    = filterSort catalog activeCategory s sortBy ∧
  filterSort catalog activeCategory (toLowerCase s) sortBy
    = filterSort catalog activeCategory s sortBy ∧
  filterSort catalog activeCategory w1 sortBy
    = arraySort (compareFn sortBy)
        (List.filter (matchesCategory activeCategory) catalog).
Proof.
  intros H1 H2. unfold filterSort. cbn zeta. split; [|split].
  - by rewrite trim_padding.
  - by rewrite trim_toLowerCase, toLowerCase_idem.
  - unfold trim. rewrite trimStart_allWhiteSpace by done. cbn -[filterPredicate arraySort].
    by rewrite filter_matchesSearch_empty.
Qed.

Lemma search_ignores_case_and_padding_witness :
  allWhiteSpace "  " = true ∧ allWhiteSpace " " = true ∧
  filterSort (H := codeUnitCollator) IMAGES "all" ("  " +:+ "Bridge" +:+ " ") "name"
    = filterSort (H := codeUnitCollator) IMAGES "all" "Bridge" "name".
Proof.
  split; [reflexivity|]. split; [reflexivity|].
  exact (proj1 (search_ignores_case_and_padding (H := codeUnitCollator)
                  IMAGES "all" "name" "  " "Bridge" " " eq_refl eq_refl)).
Defined.

(** ** Opening the lightbox and moving in it *)

Lemma arrayGet_Some {A} (l : list A) (i : Z) (x : A) :
  arrayGet l i = Some x ↔ 0 <= i ∧ l !! Z.to_nat i = Some x.
Proof.
  unfold arrayGet. destruct (Z.ltb_spec i 0) as [Hlt|Hge].
  - split; [discriminate | intros [Hi _]; lia].
  - split; [intros Hx; by split | by intros [_ Hx]].
Qed.

Lemma arrayGet_in_range {A} (l : list A) (i : Z) :
  0 <= i < Z.of_nat (length l) → ∃ x, arrayGet l i = Some x.
Proof.
  intros Hi. destruct (lookup_lt_is_Some_2 l (Z.to_nat i) ltac:(lia)) as [x Hx].
  exists x. apply arrayGet_Some. split; [lia | done].
Qed.

Lemma arrayGet_out_of_range {A} (l : list A) (i : Z) :
  i < 0 ∨ Z.of_nat (length l) <= i → arrayGet l i = None.
Proof.
  intros Hi. unfold arrayGet. destruct (Z.ltb_spec i 0); [done|].
  apply lookup_ge_None. lia.
Qed.

Lemma updateLightbox_shows (st : State) (img : ImageRecord) :
  arrayGet (filteredList st) (currentIndex st) = Some img →
  lightboxShows (updateLightbox st) img (currentIndex st + 1).
Proof.
  intros Hg. unfold lightboxShows, updateLightbox, updateLightboxFavoriteIcon.
  rewrite Hg. cbn [filteredList currentIndex set_lightboxImage_src set_lightboxImage_alt
    set_lightboxTitle_text set_lightboxDescription_text set_imageCounter_text].
  rewrite Hg. by repeat split.
Qed.

Lemma updateLightbox_none (st : State) :
  arrayGet (filteredList st) (currentIndex st) = None → updateLightbox st = st.
Proof. intros Hg. unfold updateLightbox. by rewrite Hg. Qed.

(** What [updateLightbox] leaves alone. *)
Lemma updateLightbox_frame (st : State) :
  filteredList (updateLightbox st) = filteredList st ∧
  favorites (updateLightbox st) = favorites st ∧
  galleryEl (updateLightbox st) = galleryEl st ∧
  currentPage (updateLightbox st) = currentPage st ∧
  favoritesList (updateLightbox st) = favoritesList st ∧
  localStorage (updateLightbox st) = localStorage st ∧
  lightbox_active (updateLightbox st) = lightbox_active st ∧
  currentIndex (updateLightbox st) = currentIndex st.
Proof.
  unfold updateLightbox, updateLightboxFavoriteIcon.
  destruct (arrayGet (filteredList st) (currentIndex st)) as [img|] eqn:Hg;
    [|by repeat split].
  cbn [filteredList currentIndex set_lightboxImage_src set_lightboxImage_alt
    set_lightboxTitle_text set_lightboxDescription_text set_imageCounter_text].
  rewrite Hg. by repeat split.
Qed.

(** X2.  [openLightboxByIndex] with an index outside the filtered list
    (negative, or at or beyond its length) does nothing.  With an
    index inside it, it selects that index, opens the lightbox and
    displays that entry: image, title, description, the counter
    "index+1 / length" and the heart of the entry; the filtered list,
    the favorites, the gallery and the timers are left as they are. *)
Theorem openLightboxByIndex_bounds (indexAbsolute : Z) (st : State) :
  let len := Z.of_nat (length (filteredList st)) in
  let st' := openLightboxByIndex indexAbsolute st in
  (indexAbsolute < 0 ∨ len <= indexAbsolute → st' = st) ∧
  (0 <= indexAbsolute < len →
   ∃ img, filteredList st !! Z.to_nat indexAbsolute = Some img ∧
          currentIndex st' = indexAbsolute ∧
          lightbox_active st' = true ∧
          lightboxShows st' img (indexAbsolute + 1) ∧
          filteredList st' = filteredList st ∧
          favorites st' = favorites st ∧
          galleryEl st' = galleryEl st ∧
          timers st' = timers st ∧
          slideshowInterval st' = slideshowInterval st).
Proof.
  intros len st'. subst st'. unfold openLightboxByIndex. split.
  - intros Hout. fold len.
    destruct (Z.ltb_spec indexAbsolute 0); [done|].
    destruct (Z.geb_spec indexAbsolute len); [done | lia].
  - intros Hin. fold len.
    destruct (Z.ltb_spec indexAbsolute 0); [lia|].
    destruct (Z.geb_spec indexAbsolute len); [lia|]. cbn [orb].
    destruct (arrayGet_in_range (filteredList st) indexAbsolute Hin) as [img Hg].
    exists img. split; [by apply arrayGet_Some in Hg as [_ ?]|].
    pose proof (updateLightbox_shows (set_currentIndex indexAbsolute st) img Hg) as Hs.
    pose proof (updateLightbox_frame (set_currentIndex indexAbsolute st))
      as (F1 & F2 & F3 & _ & _ & _ & _ & F8).
    pose proof (keeps_updateLightbox (set_currentIndex indexAbsolute st))
      as (K1 & _ & K3 & _).
    unfold openLightbox. repeat split; try done; apply Hs.
Qed.

Lemma openLightboxByIndex_bounds_witness :
  0 <= 3 < Z.of_nat (length (filteredList loadedPage)) ∧
  currentIndex (openLightboxByIndex 3 loadedPage) = 3 ∧
  openLightboxByIndex 20 loadedPage = loadedPage.
Proof.
  assert (Hin : 0 <= 3 < Z.of_nat (length (filteredList loadedPage)))
    by (vm_compute; split; [discriminate | reflexivity]).
  assert (Hout : 3 < 0 ∨ Z.of_nat (length (filteredList loadedPage)) <= 20)
    by (right; vm_compute; discriminate).
  pose proof (openLightboxByIndex_bounds 3 loadedPage) as Hw3.
  pose proof (openLightboxByIndex_bounds 20 loadedPage) as Hw20.
  cbn zeta in Hw3, Hw20.
  destruct (proj2 Hw3 Hin) as (img & _ & Hcur & _).
  split; [exact Hin|]. split; [exact Hcur|].
  apply (proj1 Hw20). right. vm_compute. discriminate.
Defined.

Lemma showNext_filteredList (st : State) : filteredList (showNext st) = filteredList st.
Proof.
  unfold showNext. cbn zeta. destruct (_ =? _); [done|].
  by rewrite updateLightbox_filteredList.
Qed.

Lemma showPrev_filteredList (st : State) : filteredList (showPrev st) = filteredList st.
Proof.
  unfold showPrev. cbn zeta. destruct (_ =? _); [done|].
  by rewrite updateLightbox_filteredList.
Qed.

Lemma showNext_index_mod (st : State) :
  filteredList st ≠ [] → 0 <= currentIndex st →
  currentIndex (showNext st) =
  (currentIndex st + 1) mod Z.of_nat (length (filteredList st)).
Proof.
  intros Hne Hi. rewrite showNext_currentIndex by done.
  apply Z.rem_mod_nonneg; [lia|]. destruct (filteredList st); [done | cbn; lia].
Qed.

Lemma showPrev_index_mod (st : State) :
  filteredList st ≠ [] → 0 <= currentIndex st →
  currentIndex (showPrev st) =
  (currentIndex st - 1) mod Z.of_nat (length (filteredList st)).
Proof.
  intros Hne Hi. rewrite showPrev_currentIndex by done.
  assert (0 < Z.of_nat (length (filteredList st)))
    by (destruct (filteredList st); [done | cbn; lia]).
  rewrite Z.rem_mod_nonneg by lia.
  replace (currentIndex st - 1 + Z.of_nat (length (filteredList st)))
    with (currentIndex st - 1 + 1 * Z.of_nat (length (filteredList st))) by lia.
  apply Z.mod_add. lia.
Qed.

Lemma showNextTimes_index (n : nat) (st : State) :
  filteredList st ≠ [] → 0 <= currentIndex st →
  currentIndex (showNextTimes (S n) st) =
  (currentIndex st + Z.of_nat (S n)) mod Z.of_nat (length (filteredList st)).
Proof.
  revert st. induction n as [|n IH]; intros st Hne Hi.
  - cbn [showNextTimes]. by apply showNext_index_mod.
  - assert (Hlen : 0 < Z.of_nat (length (filteredList st)))
      by (destruct (filteredList st); [done | cbn; lia]).
    assert (Hn : 0 <= currentIndex (showNext st)).
    { rewrite showNext_index_mod by done. apply Z.mod_pos_bound. lia. }
    change (showNextTimes (S (S n)) st) with (showNextTimes (S n) (showNext st)).
    rewrite IH; rewrite ?showNext_filteredList; [|done|done].
    rewrite showNext_index_mod by done.
    rewrite Zplus_mod_idemp_l. f_equal. lia.
Qed.

(** X3.  On a filtered list that is not empty, with the selection in
    range, [showNext] and [showPrev] undo each other, as many calls of
    [showNext] as the list has entries bring the selection back to
    where it was, and after each of the two the lightbox displays the
    entry at the new selection. *)
Theorem navigation_round_trip (st : State) :
  filteredList st ≠ [] →
  0 <= currentIndex st < Z.of_nat (length (filteredList st)) →
  currentIndex (showPrev (showNext st)) = currentIndex st ∧
  currentIndex (showNext (showPrev st)) = currentIndex st ∧
  currentIndex (showNextTimes (length (filteredList st)) st) = currentIndex st ∧
  (∃ img, arrayGet (filteredList st) (currentIndex (showNext st)) = Some img ∧
          lightboxShows (showNext st) img (currentIndex (showNext st) + 1)) ∧
  (∃ img, arrayGet (filteredList st) (currentIndex (showPrev st)) = Some img ∧
          lightboxShows (showPrev st) img (currentIndex (showPrev st) + 1)).
Proof.
  intros Hne Hi.
  set (len := Z.of_nat (length (filteredList st))) in *.
  assert (Hn : 0 <= currentIndex (showNext st) < len).
  { rewrite showNext_index_mod by (done || lia). apply Z.mod_pos_bound. lia. }
  assert (Hp : 0 <= currentIndex (showPrev st) < len).
  { rewrite showPrev_index_mod by (done || lia). apply Z.mod_pos_bound. lia. }
  split; [|split; [|split; [|split]]].
  - rewrite showPrev_index_mod; rewrite ?showNext_filteredList; [|done|lia].
    rewrite showNext_index_mod by (done || lia). fold len.
    rewrite Zminus_mod_idemp_l. replace (currentIndex st + 1 - 1) with (currentIndex st) by lia.
    apply Z.mod_small. lia.
  - rewrite showNext_index_mod; rewrite ?showPrev_filteredList; [|done|lia].
    rewrite showPrev_index_mod by (done || lia). fold len.
    rewrite Zplus_mod_idemp_l. replace (currentIndex st - 1 + 1) with (currentIndex st) by lia.
    apply Z.mod_small. lia.
  - destruct (length (filteredList st)) as [|m] eqn:Hm; [subst len; lia|].
    rewrite (showNextTimes_index m st Hne ltac:(lia)). rewrite Hm. fold len.
    replace (Z.of_nat (S m)) with len by (subst len; lia).
    replace (currentIndex st + len) with (currentIndex st + 1 * len) by lia.
    rewrite Z.mod_add by lia. apply Z.mod_small. lia.
  - destruct (arrayGet_in_range (filteredList st) _ Hn) as [img Hg].
    exists img. split; [exact Hg|].
    unfold showNext in *. cbn zeta in *. fold len in Hg |- *.
    destruct (Z.eqb_spec len 0); [lia|].
    rewrite updateLightbox_currentIndex in *.
    apply updateLightbox_shows. exact Hg.
  - destruct (arrayGet_in_range (filteredList st) _ Hp) as [img Hg].
    exists img. split; [exact Hg|].
    unfold showPrev in *. cbn zeta in *. fold len in Hg |- *.
    destruct (Z.eqb_spec len 0); [lia|].
    rewrite updateLightbox_currentIndex in *.
    apply updateLightbox_shows. exact Hg.
Qed.

Lemma navigation_round_trip_witness :
  filteredList lightboxOnFirst ≠ [] ∧
  0 <= currentIndex lightboxOnFirst < Z.of_nat (length (filteredList lightboxOnFirst)) ∧
  currentIndex (showPrev (showNext lightboxOnFirst)) = currentIndex lightboxOnFirst.
Proof.
  assert (Hne : filteredList lightboxOnFirst ≠ []) by (vm_compute; discriminate).
  assert (Hi : 0 <= currentIndex lightboxOnFirst
               < Z.of_nat (length (filteredList lightboxOnFirst)))
    by (vm_compute; split; [discriminate | reflexivity]).
  split; [exact Hne|]. split; [exact Hi|].
  exact (proj1 (navigation_round_trip lightboxOnFirst Hne Hi)).
Defined.

(** ** The favorites sidebar *)

Lemma find_knownId (catalog : list ImageRecord) (imgId : string) :
  match List.find (λ i, String.eqb (id i) imgId) catalog with
  | Some r => knownId catalog imgId = true ∧ In r catalog ∧ id r = imgId
  | None => knownId catalog imgId = false
  end.
Proof.
  unfold knownId. induction catalog as [|r catalog IH]; [done|].
  cbn [List.find existsb]. destruct (String.eqb_spec (id r) imgId) as [He|Hne].
  - split; [done|]. split; [by left | done].
  - cbn [orb]. destruct (List.find _ catalog) as [r'|]; [|exact IH].
    destruct IH as (H1 & H2 & H3). split; [done|]. split; [by right | done].
Qed.

Lemma sidebarRows_records (catalog : list ImageRecord) (favs : list string) :
  sidebarRows catalog favs = map FavoritesItem (omap rowImage (sidebarRows catalog favs)) ∧
  map id (omap rowImage (sidebarRows catalog favs)) = List.filter (knownId catalog) favs ∧
  Forall (λ r, In r catalog) (omap rowImage (sidebarRows catalog favs)).
Proof.
  unfold sidebarRows. induction favs as [|x favs (IH1 & IH2 & IH3)]; [by repeat split|].
  cbn [omap list_omap List.filter].
  pose proof (find_knownId catalog x) as Hf.
  destruct (List.find (λ i, String.eqb (id i) x) catalog) as [r|].
  - destruct Hf as (Hk & Hin & Hid). rewrite Hk.
    cbn [fmap option_fmap option_map rowImage omap list_omap map].
    split; [by f_equal|]. split; [by rewrite Hid, <- IH2|]. by constructor.
  - rewrite Hf. cbn [fmap option_fmap option_map]. by repeat split.
Qed.

(** X4.  [renderFavoritesSidebar] writes the size of the set into the
    counter.  For the empty set the list holds the placeholder alone;
    otherwise it holds no placeholder but one row for each id of the
    set that the catalog knows, in the order in which the ids joined
    the set, each showing a catalog entry with that id; ids that the
    catalog does not know get no row, though they are counted.  The
    set, the stored text and the gallery are not touched. *)
Theorem sidebar_lists_known_favorites (catalog : list ImageRecord) (st : State) :
  let st' := renderFavoritesSidebar catalog st in
  let shown := omap rowImage (favoritesList st') in
  favoriteCount_text st' = pretty (length (favorites st)) ∧
  match favorites st with
  | [] => favoritesList st' = [NoFavoritesYet]
  | _ :: _ =>
      favoritesList st' = map FavoritesItem shown ∧
      map id shown = List.filter (knownId catalog) (favorites st) ∧
      Forall (λ r, In r catalog) shown
  end ∧
  favorites st' = favorites st ∧
  localStorage st' = localStorage st ∧
  galleryEl st' = galleryEl st.
Proof.
  cbn zeta. rewrite renderFavoritesSidebar_favoritesList,
    renderFavoritesSidebar_favorites, renderFavoritesSidebar_localStorage,
    renderFavoritesSidebar_galleryEl.
  split.
  { unfold renderFavoritesSidebar. cbn. by destruct (_ =? 0). }
  split; [|done].
  destruct (favorites st) as [|x favs]; [done|].
  destruct (Z.eqb_spec (Z.of_nat (length (x :: favs))) 0) as [He|_];
    [cbn [length] in He; lia|].
  apply sidebarRows_records.
Qed.

(** ** Opening a favorite from the sidebar *)

Lemma findIndexFrom_spec {A} (p : A → bool) (l : list A) (i : Z) :
  (findIndexFrom p l i = -1 ∧ Forall (λ x, p x = false) l) ∨
  (∃ k x, findIndexFrom p l i = i + Z.of_nat k ∧ l !! k = Some x ∧ p x = true ∧
          Forall (λ y, p y = false) (take k l)).
Proof.
  revert i. induction l as [|x l IH]; intros i.
  - left. by split.
  - cbn [findIndexFrom]. destruct (p x) eqn:Hx.
    + right. exists O, x. repeat split; [lia | done | by constructor].
    + destruct (IH (i + 1)) as [[Hr Hall] | (k & y & Hr & Hl & Hy & Hbefore)].
      * left. split; [done | by constructor].
      * right. exists (S k), y. repeat split; [lia | done | done | by constructor].
Qed.

Lemma findIndex_spec {A} (p : A → bool) (l : list A) :
  (findIndex p l = -1 ∧ Forall (λ x, p x = false) l) ∨
  (∃ k x, findIndex p l = Z.of_nat k ∧ l !! k = Some x ∧ p x = true ∧
          Forall (λ y, p y = false) (take k l)).
Proof.
  unfold findIndex.
  destruct (findIndexFrom_spec p l 0) as [?|(k & x & Hr & ?)];
    [by left|].
  right. exists k, x. by rewrite Hr.
Qed.

(** X5.  A click on the image of a sidebar row opens the lightbox on
    the first entry of the current filtered list that has the row's
    id.  When the filtered list has no such entry (the favorite is
    filtered out), the lightbox opens on the entry at index 0, which is
    another image; when the filtered list is empty nothing happens. *)
Theorem sidebar_image_click (imgData : ImageRecord) (st : State) :
  let st' := onSidebarImage imgData st in
  (∀ k img,
     filteredList st !! k = Some img → id img = id imgData →
     Forall (λ y, id y ≠ id imgData) (take k (filteredList st)) →
     currentIndex st' = Z.of_nat k ∧ lightbox_active st' = true ∧
     lightboxShows st' img (Z.of_nat k + 1)) ∧
  (∀ first,
     Forall (λ y, id y ≠ id imgData) (filteredList st) →
     filteredList st !! 0%nat = Some first →
     currentIndex st' = 0 ∧ lightbox_active st' = true ∧
     lightboxShows st' first 1 ∧ id first ≠ id imgData) ∧
  (filteredList st = [] → st' = st).
Proof.
  cbn zeta. unfold onSidebarImage. cbn zeta.
  set (p := λ i : ImageRecord, String.eqb (id i) (id imgData)).
  assert (Hopen : ∀ k img, filteredList st !! k = Some img →
            currentIndex (openLightboxByIndex (Z.of_nat k) st) = Z.of_nat k ∧
            lightbox_active (openLightboxByIndex (Z.of_nat k) st) = true ∧
            lightboxShows (openLightboxByIndex (Z.of_nat k) st) img (Z.of_nat k + 1)).
  { intros k img Hl. pose proof (lookup_lt_Some _ _ _ Hl) as Hlt.
    unfold openLightboxByIndex.
    destruct (Z.ltb_spec (Z.of_nat k) 0); [lia|].
    destruct (Z.geb_spec (Z.of_nat k) (Z.of_nat (length (filteredList st)))); [lia|].
    cbn [orb]. unfold openLightbox.
    assert (Hg : arrayGet (filteredList (set_currentIndex (Z.of_nat k) st))
                   (currentIndex (set_currentIndex (Z.of_nat k) st)) = Some img).
    { apply arrayGet_Some. split; [cbn; lia|]. cbn. by rewrite Nat2Z.id. }
    pose proof (updateLightbox_shows _ img Hg) as Hs.
    pose proof (updateLightbox_frame (set_currentIndex (Z.of_nat k) st))
      as (_ & _ & _ & _ & _ & _ & _ & F8).
    split; [exact F8|]. split; [reflexivity|]. exact Hs. }
  split; [|split].
  - intros k img Hl Hid Hbefore.
    destruct (findIndex_spec p (filteredList st)) as [[_ Hall] | (k' & x & Hr & Hl' & Hx & Hb')].
    + rewrite Forall_forall in Hall. specialize (Hall img (list_elem_of_lookup_2 _ _ _ Hl)).
      subst p. cbn in Hall. by rewrite Hid, String.eqb_refl in Hall.
    + assert (k' = k) as ->.
      { destruct (Nat.lt_trichotomy k' k) as [Hlt | [He | Hgt]]; [|done|].
        - rewrite Forall_forall in Hbefore.
          assert (Hin : x ∈ take k (filteredList st)).
          { apply list_elem_of_lookup. exists k'. by rewrite lookup_take_lt. }
          apply Hbefore in Hin. subst p. cbn in Hx. by apply String.eqb_eq in Hx.
        - rewrite Forall_forall in Hb'.
          assert (Hin : img ∈ take k' (filteredList st)).
          { apply list_elem_of_lookup. exists k. by rewrite lookup_take_lt. }
          apply Hb' in Hin. subst p. cbn in Hin. by rewrite Hid, String.eqb_refl in Hin. }
      rewrite Hr. destruct (Z.geb_spec (Z.of_nat k) 0); [|lia]. by apply Hopen.
  - intros first Hnone Hfirst.
    destruct (findIndex_spec p (filteredList st)) as [[Hr _] | (k' & x & _ & Hl' & Hx & _)].
    + rewrite Hr. cbn [Z.geb Z.compare].
      destruct (Hopen O first Hfirst) as (O1 & O2 & O3).
      split; [exact O1|]. split; [exact O2|]. split; [exact O3|].
      rewrite Forall_forall in Hnone. apply Hnone. by eapply list_elem_of_lookup_2.
    + rewrite Forall_forall in Hnone.
      specialize (Hnone x (list_elem_of_lookup_2 _ _ _ Hl')).
      subst p. cbn in Hx. by apply String.eqb_eq in Hx.
  - intros He. rewrite He. cbn. unfold openLightboxByIndex. by rewrite He.
Qed.

Lemma sidebar_image_click_witness :
  filteredList favoritedInGrid !! 0%nat
    = Some (mkImage "20" "Glass Tower" "Reflections on glass facade." "architecture"
              "image/photo20.avif" "2025-08-03" 125) ∧
  currentIndex
    (onSidebarImage
       (mkImage "20" "Glass Tower" "Reflections on glass facade." "architecture"
          "image/photo20.avif" "2025-08-03" 125) favoritedInGrid) = 0 ∧
  lightbox_active
    (onSidebarImage
       (mkImage "20" "Glass Tower" "Reflections on glass facade." "architecture"
          "image/photo20.avif" "2025-08-03" 125) favoritedInGrid) = true.
Proof.
  assert (Hl : filteredList favoritedInGrid !! 0%nat
               = Some (mkImage "20" "Glass Tower" "Reflections on glass facade."
                         "architecture" "image/photo20.avif" "2025-08-03" 125))
    by (vm_compute; reflexivity).
  pose proof (proj1 (sidebar_image_click
                       (mkImage "20" "Glass Tower" "Reflections on glass facade."
                          "architecture" "image/photo20.avif" "2025-08-03" 125)
                       favoritedInGrid) O _ Hl eq_refl ltac:(constructor)) as (W1 & W2 & _).
  split; [exact Hl|]. split; [exact W1 | exact W2].
Defined.


(** ** What each function leaves alone

    One lemma for each function of the script and each view that it
    does not touch. *)

(** Removes an assignment to a field that a view does not hold. *)
Ltac peel_setter :=
  match goal with
  | |- context [?V (?setter ?v ?s)] =>
      match type of s with State => idtac end;
      match type of (setter v s) with State => idtac end;
      progress change (V (setter v s)) with (V s)
  end.

(** Case analysis on every [match] and [if] of the goal. *)
Ltac split_cases :=
  repeat match goal with
         | |- context [match ?x with _ => _ end] => destruct x
         end.

Lemma renderGalleryPage_timerView (st : State) :
  timerView (renderGalleryPage st) = timerView st.
Proof. unfold timerView, renderGalleryPage. cbn zeta. split_cases; reflexivity. Qed.

Lemma renderGalleryPage_favView (st : State) :
  favView (renderGalleryPage st) = favView st.
Proof. unfold favView, renderGalleryPage. cbn zeta. split_cases; reflexivity. Qed.

Lemma renderGalleryPage_selView (st : State) :
  selView (renderGalleryPage st) = selView st.
Proof. unfold selView, renderGalleryPage. cbn zeta. split_cases; reflexivity. Qed.

Lemma renderGalleryPage_inputView (st : State) :
  inputView (renderGalleryPage st) = inputView st.
Proof. unfold inputView, renderGalleryPage. cbn zeta. split_cases; reflexivity. Qed.

Lemma applyFiltersSearchSort_timerView `{Collator} catalog (st : State) :
  timerView (applyFiltersSearchSort catalog st) = timerView st.
Proof. unfold timerView, applyFiltersSearchSort. cbn zeta. split_cases; reflexivity. Qed.

Lemma applyFiltersSearchSort_favView `{Collator} catalog (st : State) :
  favView (applyFiltersSearchSort catalog st) = favView st.
Proof. unfold favView, applyFiltersSearchSort. cbn zeta. split_cases; reflexivity. Qed.

Lemma applyFiltersSearchSort_selView `{Collator} catalog (st : State) :
  selView (applyFiltersSearchSort catalog st) = selView st.
Proof. unfold selView, applyFiltersSearchSort. cbn zeta. split_cases; reflexivity. Qed.

Lemma applyFiltersSearchSort_inputView `{Collator} catalog (st : State) :
  inputView (applyFiltersSearchSort catalog st) = inputView st.
Proof. unfold inputView, applyFiltersSearchSort. cbn zeta. split_cases; reflexivity. Qed.

Lemma persistFavorites_timerView (st : State) :
  timerView (persistFavorites st) = timerView st.
Proof. unfold timerView, persistFavorites. cbn zeta. split_cases; reflexivity. Qed.

Lemma persistFavorites_selView (st : State) :
  selView (persistFavorites st) = selView st.
Proof. unfold selView, persistFavorites. cbn zeta. split_cases; reflexivity. Qed.

Lemma persistFavorites_inputView (st : State) :
  inputView (persistFavorites st) = inputView st.
Proof. unfold inputView, persistFavorites. cbn zeta. split_cases; reflexivity. Qed.

Lemma persistFavorites_gridView (st : State) :
  gridView (persistFavorites st) = gridView st.
Proof. unfold gridView, persistFavorites. cbn zeta. split_cases; reflexivity. Qed.

Lemma updateLightboxFavoriteIcon_timerView (st : State) :
  timerView (updateLightboxFavoriteIcon st) = timerView st.
Proof. unfold timerView, updateLightboxFavoriteIcon. cbn zeta. split_cases; reflexivity. Qed.

Lemma updateLightboxFavoriteIcon_favView (st : State) :
  favView (updateLightboxFavoriteIcon st) = favView st.
Proof. unfold favView, updateLightboxFavoriteIcon. cbn zeta. split_cases; reflexivity. Qed.

Lemma updateLightboxFavoriteIcon_selView (st : State) :
  selView (updateLightboxFavoriteIcon st) = selView st.
Proof. unfold selView, updateLightboxFavoriteIcon. cbn zeta. split_cases; reflexivity. Qed.

Lemma updateLightboxFavoriteIcon_inputView (st : State) :
  inputView (updateLightboxFavoriteIcon st) = inputView st.
Proof. unfold inputView, updateLightboxFavoriteIcon. cbn zeta. split_cases; reflexivity. Qed.

Lemma updateLightboxFavoriteIcon_gridView (st : State) :
  gridView (updateLightboxFavoriteIcon st) = gridView st.
Proof. unfold gridView, updateLightboxFavoriteIcon. cbn zeta. split_cases; reflexivity. Qed.

Lemma renderFavoritesSidebar_timerView catalog (st : State) :
  timerView (renderFavoritesSidebar catalog st) = timerView st.
Proof. unfold timerView, renderFavoritesSidebar, updateFavoriteCount. cbn zeta. split_cases; reflexivity. Qed.

Lemma renderFavoritesSidebar_selView catalog (st : State) :
  selView (renderFavoritesSidebar catalog st) = selView st.
Proof. unfold selView, renderFavoritesSidebar, updateFavoriteCount. cbn zeta. split_cases; reflexivity. Qed.

Lemma renderFavoritesSidebar_inputView catalog (st : State) :
  inputView (renderFavoritesSidebar catalog st) = inputView st.
Proof. unfold inputView, renderFavoritesSidebar, updateFavoriteCount. cbn zeta. split_cases; reflexivity. Qed.

Lemma renderFavoritesSidebar_gridView catalog (st : State) :
  gridView (renderFavoritesSidebar catalog st) = gridView st.
Proof. unfold gridView, renderFavoritesSidebar, updateFavoriteCount. cbn zeta. split_cases; reflexivity. Qed.

Lemma updateLightbox_timerView (st : State) :
  timerView (updateLightbox st) = timerView st.
Proof.
  unfold updateLightbox. cbn zeta. split_cases;
    repeat first [ peel_setter | rewrite renderGalleryPage_timerView | rewrite applyFiltersSearchSort_timerView | rewrite persistFavorites_timerView | rewrite updateLightboxFavoriteIcon_timerView | rewrite renderFavoritesSidebar_timerView ]; reflexivity.
Qed.

Lemma updateLightbox_favView (st : State) :
  favView (updateLightbox st) = favView st.
Proof.
  unfold updateLightbox. cbn zeta. split_cases;
    repeat first [ peel_setter | rewrite renderGalleryPage_favView | rewrite applyFiltersSearchSort_favView | rewrite updateLightboxFavoriteIcon_favView ]; reflexivity.
Qed.

Lemma updateLightbox_selView (st : State) :
  selView (updateLightbox st) = selView st.
Proof.
  unfold updateLightbox. cbn zeta. split_cases;
    repeat first [ peel_setter | rewrite renderGalleryPage_selView | rewrite applyFiltersSearchSort_selView | rewrite persistFavorites_selView | rewrite updateLightboxFavoriteIcon_selView | rewrite renderFavoritesSidebar_selView ]; reflexivity.
Qed.

Lemma updateLightbox_inputView (st : State) :
  inputView (updateLightbox st) = inputView st.
Proof.
  unfold updateLightbox. cbn zeta. split_cases;
    repeat first [ peel_setter | rewrite renderGalleryPage_inputView | rewrite applyFiltersSearchSort_inputView | rewrite persistFavorites_inputView | rewrite updateLightboxFavoriteIcon_inputView | rewrite renderFavoritesSidebar_inputView ]; reflexivity.
Qed.

Lemma updateLightbox_gridView (st : State) :
  gridView (updateLightbox st) = gridView st.
Proof.
  unfold updateLightbox. cbn zeta. split_cases;
    repeat first [ peel_setter | rewrite persistFavorites_gridView | rewrite updateLightboxFavoriteIcon_gridView | rewrite renderFavoritesSidebar_gridView ]; reflexivity.
Qed.

Lemma openLightbox_timerView (st : State) :
  timerView (openLightbox st) = timerView st.
Proof.
  unfold openLightbox. cbn zeta. split_cases;
    repeat first [ peel_setter | rewrite renderGalleryPage_timerView | rewrite applyFiltersSearchSort_timerView | rewrite persistFavorites_timerView | rewrite updateLightboxFavoriteIcon_timerView | rewrite renderFavoritesSidebar_timerView | rewrite updateLightbox_timerView ]; reflexivity.
Qed.

Lemma openLightbox_favView (st : State) :
  favView (openLightbox st) = favView st.
Proof.
  unfold openLightbox. cbn zeta. split_cases;
    repeat first [ peel_setter | rewrite renderGalleryPage_favView | rewrite applyFiltersSearchSort_favView | rewrite updateLightboxFavoriteIcon_favView | rewrite updateLightbox_favView ]; reflexivity.
Qed.

Lemma openLightbox_inputView (st : State) :
  inputView (openLightbox st) = inputView st.
Proof.
  unfold openLightbox. cbn zeta. split_cases;
    repeat first [ peel_setter | rewrite renderGalleryPage_inputView | rewrite applyFiltersSearchSort_inputView | rewrite persistFavorites_inputView | rewrite updateLightboxFavoriteIcon_inputView | rewrite renderFavoritesSidebar_inputView | rewrite updateLightbox_inputView ]; reflexivity.
Qed.

Lemma openLightbox_gridView (st : State) :
  gridView (openLightbox st) = gridView st.
Proof.
  unfold openLightbox. cbn zeta. split_cases;
    repeat first [ peel_setter | rewrite persistFavorites_gridView | rewrite updateLightboxFavoriteIcon_gridView | rewrite renderFavoritesSidebar_gridView | rewrite updateLightbox_gridView ]; reflexivity.
Qed.

Lemma openLightboxByIndex_timerView i (st : State) :
  timerView (openLightboxByIndex i st) = timerView st.
Proof.
  unfold openLightboxByIndex. cbn zeta. split_cases;
    repeat first [ peel_setter | rewrite renderGalleryPage_timerView | rewrite applyFiltersSearchSort_timerView | rewrite persistFavorites_timerView | rewrite updateLightboxFavoriteIcon_timerView | rewrite renderFavoritesSidebar_timerView | rewrite updateLightbox_timerView | rewrite openLightbox_timerView ]; reflexivity.
Qed.

Lemma openLightboxByIndex_favView i (st : State) :
  favView (openLightboxByIndex i st) = favView st.
Proof.
  unfold openLightboxByIndex. cbn zeta. split_cases;
    repeat first [ peel_setter | rewrite renderGalleryPage_favView | rewrite applyFiltersSearchSort_favView | rewrite updateLightboxFavoriteIcon_favView | rewrite updateLightbox_favView | rewrite openLightbox_favView ]; reflexivity.
Qed.

Lemma openLightboxByIndex_inputView i (st : State) :
  inputView (openLightboxByIndex i st) = inputView st.
Proof.
  unfold openLightboxByIndex. cbn zeta. split_cases;
    repeat first [ peel_setter | rewrite renderGalleryPage_inputView | rewrite applyFiltersSearchSort_inputView | rewrite persistFavorites_inputView | rewrite updateLightboxFavoriteIcon_inputView | rewrite renderFavoritesSidebar_inputView | rewrite updateLightbox_inputView | rewrite openLightbox_inputView ]; reflexivity.
Qed.

Lemma openLightboxByIndex_gridView i (st : State) :
  gridView (openLightboxByIndex i st) = gridView st.
Proof.
  unfold openLightboxByIndex. cbn zeta. split_cases;
    repeat first [ peel_setter | rewrite persistFavorites_gridView | rewrite updateLightboxFavoriteIcon_gridView | rewrite renderFavoritesSidebar_gridView | rewrite updateLightbox_gridView | rewrite openLightbox_gridView ]; reflexivity.
Qed.

Lemma showNext_timerView (st : State) :
  timerView (showNext st) = timerView st.
Proof.
  unfold showNext. cbn zeta. split_cases;
    repeat first [ peel_setter | rewrite renderGalleryPage_timerView | rewrite applyFiltersSearchSort_timerView | rewrite persistFavorites_timerView | rewrite updateLightboxFavoriteIcon_timerView | rewrite renderFavoritesSidebar_timerView | rewrite updateLightbox_timerView | rewrite openLightbox_timerView | rewrite openLightboxByIndex_timerView ]; reflexivity.
Qed.

Lemma showNext_favView (st : State) :
  favView (showNext st) = favView st.
Proof.
  unfold showNext. cbn zeta. split_cases;
    repeat first [ peel_setter | rewrite renderGalleryPage_favView | rewrite applyFiltersSearchSort_favView | rewrite updateLightboxFavoriteIcon_favView | rewrite updateLightbox_favView | rewrite openLightbox_favView | rewrite openLightboxByIndex_favView ]; reflexivity.
Qed.

Lemma showNext_inputView (st : State) :
  inputView (showNext st) = inputView st.
Proof.
  unfold showNext. cbn zeta. split_cases;
    repeat first [ peel_setter | rewrite renderGalleryPage_inputView | rewrite applyFiltersSearchSort_inputView | rewrite persistFavorites_inputView | rewrite updateLightboxFavoriteIcon_inputView | rewrite renderFavoritesSidebar_inputView | rewrite updateLightbox_inputView | rewrite openLightbox_inputView | rewrite openLightboxByIndex_inputView ]; reflexivity.
Qed.

Lemma showNext_gridView (st : State) :
  gridView (showNext st) = gridView st.
Proof.
  unfold showNext. cbn zeta. split_cases;
    repeat first [ peel_setter | rewrite persistFavorites_gridView | rewrite updateLightboxFavoriteIcon_gridView | rewrite renderFavoritesSidebar_gridView | rewrite updateLightbox_gridView | rewrite openLightbox_gridView | rewrite openLightboxByIndex_gridView ]; reflexivity.
Qed.

Lemma showPrev_timerView (st : State) :
  timerView (showPrev st) = timerView st.
Proof.
  unfold showPrev. cbn zeta. split_cases;
    repeat first [ peel_setter | rewrite renderGalleryPage_timerView | rewrite applyFiltersSearchSort_timerView | rewrite persistFavorites_timerView | rewrite updateLightboxFavoriteIcon_timerView | rewrite renderFavoritesSidebar_timerView | rewrite updateLightbox_timerView | rewrite openLightbox_timerView | rewrite openLightboxByIndex_timerView | rewrite showNext_timerView ]; reflexivity.
Qed.

Lemma showPrev_favView (st : State) :
  favView (showPrev st) = favView st.
Proof.
  unfold showPrev. cbn zeta. split_cases;
    repeat first [ peel_setter | rewrite renderGalleryPage_favView | rewrite applyFiltersSearchSort_favView | rewrite updateLightboxFavoriteIcon_favView | rewrite updateLightbox_favView | rewrite openLightbox_favView | rewrite openLightboxByIndex_favView | rewrite showNext_favView ]; reflexivity.
Qed.

Lemma showPrev_inputView (st : State) :
  inputView (showPrev st) = inputView st.
Proof.
  unfold showPrev. cbn zeta. split_cases;
    repeat first [ peel_setter | rewrite renderGalleryPage_inputView | rewrite applyFiltersSearchSort_inputView | rewrite persistFavorites_inputView | rewrite updateLightboxFavoriteIcon_inputView | rewrite renderFavoritesSidebar_inputView | rewrite updateLightbox_inputView | rewrite openLightbox_inputView | rewrite openLightboxByIndex_inputView | rewrite showNext_inputView ]; reflexivity.
Qed.

Lemma showPrev_gridView (st : State) :
  gridView (showPrev st) = gridView st.
Proof.
  unfold showPrev. cbn zeta. split_cases;
    repeat first [ peel_setter | rewrite persistFavorites_gridView | rewrite updateLightboxFavoriteIcon_gridView | rewrite renderFavoritesSidebar_gridView | rewrite updateLightbox_gridView | rewrite openLightbox_gridView | rewrite openLightboxByIndex_gridView | rewrite showNext_gridView ]; reflexivity.
Qed.

Lemma stopSlideshow_favView (st : State) :
  favView (stopSlideshow st) = favView st.
Proof. unfold favView, stopSlideshow. cbn zeta. split_cases; reflexivity. Qed.

Lemma stopSlideshow_selView (st : State) :
  selView (stopSlideshow st) = selView st.
Proof. unfold selView, stopSlideshow. cbn zeta. split_cases; reflexivity. Qed.

Lemma stopSlideshow_inputView (st : State) :
  inputView (stopSlideshow st) = inputView st.
Proof. unfold inputView, stopSlideshow. cbn zeta. split_cases; reflexivity. Qed.

Lemma stopSlideshow_gridView (st : State) :
  gridView (stopSlideshow st) = gridView st.
Proof. unfold gridView, stopSlideshow. cbn zeta. split_cases; reflexivity. Qed.

Lemma startSlideshow_favView (st : State) :
  favView (startSlideshow st) = favView st.
Proof. unfold favView, startSlideshow. cbn zeta. split_cases; reflexivity. Qed.

Lemma startSlideshow_selView (st : State) :
  selView (startSlideshow st) = selView st.
Proof. unfold selView, startSlideshow. cbn zeta. split_cases; reflexivity. Qed.

Lemma startSlideshow_inputView (st : State) :
  inputView (startSlideshow st) = inputView st.
Proof. unfold inputView, startSlideshow. cbn zeta. split_cases; reflexivity. Qed.

Lemma startSlideshow_gridView (st : State) :
  gridView (startSlideshow st) = gridView st.
Proof. unfold gridView, startSlideshow. cbn zeta. split_cases; reflexivity. Qed.

Lemma toggleSlideshow_favView (st : State) :
  favView (toggleSlideshow st) = favView st.
Proof.
  unfold toggleSlideshow. cbn zeta. split_cases;
    repeat first [ peel_setter | rewrite renderGalleryPage_favView | rewrite applyFiltersSearchSort_favView | rewrite updateLightboxFavoriteIcon_favView | rewrite updateLightbox_favView | rewrite openLightbox_favView | rewrite openLightboxByIndex_favView | rewrite showNext_favView | rewrite showPrev_favView | rewrite stopSlideshow_favView | rewrite startSlideshow_favView ]; reflexivity.
Qed.

Lemma toggleSlideshow_selView (st : State) :
  selView (toggleSlideshow st) = selView st.
Proof.
  unfold toggleSlideshow. cbn zeta. split_cases;
    repeat first [ peel_setter | rewrite renderGalleryPage_selView | rewrite applyFiltersSearchSort_selView | rewrite persistFavorites_selView | rewrite updateLightboxFavoriteIcon_selView | rewrite renderFavoritesSidebar_selView | rewrite updateLightbox_selView | rewrite stopSlideshow_selView | rewrite startSlideshow_selView ]; reflexivity.
Qed.

Lemma toggleSlideshow_inputView (st : State) :
  inputView (toggleSlideshow st) = inputView st.
Proof.
  unfold toggleSlideshow. cbn zeta. split_cases;
    repeat first [ peel_setter | rewrite renderGalleryPage_inputView | rewrite applyFiltersSearchSort_inputView | rewrite persistFavorites_inputView | rewrite updateLightboxFavoriteIcon_inputView | rewrite renderFavoritesSidebar_inputView | rewrite updateLightbox_inputView | rewrite openLightbox_inputView | rewrite openLightboxByIndex_inputView | rewrite showNext_inputView | rewrite showPrev_inputView | rewrite stopSlideshow_inputView | rewrite startSlideshow_inputView ]; reflexivity.
Qed.

Lemma toggleSlideshow_gridView (st : State) :
  gridView (toggleSlideshow st) = gridView st.
Proof.
  unfold toggleSlideshow. cbn zeta. split_cases;
    repeat first [ peel_setter | rewrite persistFavorites_gridView | rewrite updateLightboxFavoriteIcon_gridView | rewrite renderFavoritesSidebar_gridView | rewrite updateLightbox_gridView | rewrite openLightbox_gridView | rewrite openLightboxByIndex_gridView | rewrite showNext_gridView | rewrite showPrev_gridView | rewrite stopSlideshow_gridView | rewrite startSlideshow_gridView ]; reflexivity.
Qed.

Lemma closeLightbox_favView (st : State) :
  favView (closeLightbox st) = favView st.
Proof.
  unfold closeLightbox. cbn zeta. split_cases;
    repeat first [ peel_setter | rewrite renderGalleryPage_favView | rewrite applyFiltersSearchSort_favView | rewrite updateLightboxFavoriteIcon_favView | rewrite updateLightbox_favView | rewrite openLightbox_favView | rewrite openLightboxByIndex_favView | rewrite showNext_favView | rewrite showPrev_favView | rewrite stopSlideshow_favView | rewrite startSlideshow_favView | rewrite toggleSlideshow_favView ]; reflexivity.
Qed.

Lemma closeLightbox_inputView (st : State) :
  inputView (closeLightbox st) = inputView st.
Proof.
  unfold closeLightbox. cbn zeta. split_cases;
    repeat first [ peel_setter | rewrite renderGalleryPage_inputView | rewrite applyFiltersSearchSort_inputView | rewrite persistFavorites_inputView | rewrite updateLightboxFavoriteIcon_inputView | rewrite renderFavoritesSidebar_inputView | rewrite updateLightbox_inputView | rewrite openLightbox_inputView | rewrite openLightboxByIndex_inputView | rewrite showNext_inputView | rewrite showPrev_inputView | rewrite stopSlideshow_inputView | rewrite startSlideshow_inputView | rewrite toggleSlideshow_inputView ]; reflexivity.
Qed.

Lemma closeLightbox_gridView (st : State) :
  gridView (closeLightbox st) = gridView st.
Proof.
  unfold closeLightbox. cbn zeta. split_cases;
    repeat first [ peel_setter | rewrite persistFavorites_gridView | rewrite updateLightboxFavoriteIcon_gridView | rewrite renderFavoritesSidebar_gridView | rewrite updateLightbox_gridView | rewrite openLightbox_gridView | rewrite openLightboxByIndex_gridView | rewrite showNext_gridView | rewrite showPrev_gridView | rewrite stopSlideshow_gridView | rewrite startSlideshow_gridView | rewrite toggleSlideshow_gridView ]; reflexivity.
Qed.

Lemma onSearchInput_favView (st : State) :
  favView (onSearchInput st) = favView st.
Proof. unfold favView, onSearchInput. cbn zeta. split_cases; reflexivity. Qed.

Lemma onSearchInput_selView (st : State) :
  selView (onSearchInput st) = selView st.
Proof. unfold selView, onSearchInput. cbn zeta. split_cases; reflexivity. Qed.

Lemma onSearchInput_inputView (st : State) :
  inputView (onSearchInput st) = inputView st.
Proof. unfold inputView, onSearchInput. cbn zeta. split_cases; reflexivity. Qed.

Lemma onSearchInput_gridView (st : State) :
  gridView (onSearchInput st) = gridView st.
Proof. unfold gridView, onSearchInput. cbn zeta. split_cases; reflexivity. Qed.

Lemma resetAndRender_timerView `{Collator} catalog (st : State) :
  timerView (resetAndRender catalog st) = timerView st.
Proof.
  unfold resetAndRender. cbn zeta. split_cases;
    repeat first [ peel_setter | rewrite renderGalleryPage_timerView | rewrite applyFiltersSearchSort_timerView | rewrite persistFavorites_timerView | rewrite updateLightboxFavoriteIcon_timerView | rewrite renderFavoritesSidebar_timerView | rewrite updateLightbox_timerView | rewrite openLightbox_timerView | rewrite openLightboxByIndex_timerView | rewrite showNext_timerView | rewrite showPrev_timerView ]; reflexivity.
Qed.

Lemma resetAndRender_favView `{Collator} catalog (st : State) :
  favView (resetAndRender catalog st) = favView st.
Proof.
  unfold resetAndRender. cbn zeta. split_cases;
    repeat first [ peel_setter | rewrite renderGalleryPage_favView | rewrite applyFiltersSearchSort_favView | rewrite updateLightboxFavoriteIcon_favView | rewrite updateLightbox_favView | rewrite openLightbox_favView | rewrite openLightboxByIndex_favView | rewrite showNext_favView | rewrite showPrev_favView | rewrite stopSlideshow_favView | rewrite startSlideshow_favView | rewrite toggleSlideshow_favView | rewrite closeLightbox_favView | rewrite onSearchInput_favView ]; reflexivity.
Qed.

Lemma resetAndRender_selView `{Collator} catalog (st : State) :
  selView (resetAndRender catalog st) = selView st.
Proof.
  unfold resetAndRender. cbn zeta. split_cases;
    repeat first [ peel_setter | rewrite renderGalleryPage_selView | rewrite applyFiltersSearchSort_selView | rewrite persistFavorites_selView | rewrite updateLightboxFavoriteIcon_selView | rewrite renderFavoritesSidebar_selView | rewrite updateLightbox_selView | rewrite stopSlideshow_selView | rewrite startSlideshow_selView | rewrite toggleSlideshow_selView | rewrite onSearchInput_selView ]; reflexivity.
Qed.

Lemma resetAndRender_inputView `{Collator} catalog (st : State) :
  inputView (resetAndRender catalog st) = inputView st.
Proof.
  unfold resetAndRender. cbn zeta. split_cases;
    repeat first [ peel_setter | rewrite renderGalleryPage_inputView | rewrite applyFiltersSearchSort_inputView | rewrite persistFavorites_inputView | rewrite updateLightboxFavoriteIcon_inputView | rewrite renderFavoritesSidebar_inputView | rewrite updateLightbox_inputView | rewrite openLightbox_inputView | rewrite openLightboxByIndex_inputView | rewrite showNext_inputView | rewrite showPrev_inputView | rewrite stopSlideshow_inputView | rewrite startSlideshow_inputView | rewrite toggleSlideshow_inputView | rewrite closeLightbox_inputView | rewrite onSearchInput_inputView ]; reflexivity.
Qed.

Lemma toggleFavorite_timerView catalog imgId btnNode (st : State) :
  timerView (toggleFavorite catalog imgId btnNode st) = timerView st.
Proof.
  unfold toggleFavorite. cbn zeta. split_cases;
    repeat first [ peel_setter | rewrite renderGalleryPage_timerView | rewrite applyFiltersSearchSort_timerView | rewrite persistFavorites_timerView | rewrite updateLightboxFavoriteIcon_timerView | rewrite renderFavoritesSidebar_timerView | rewrite updateLightbox_timerView | rewrite openLightbox_timerView | rewrite openLightboxByIndex_timerView | rewrite showNext_timerView | rewrite showPrev_timerView | rewrite resetAndRender_timerView ]; reflexivity.
Qed.

Lemma toggleFavorite_selView catalog imgId btnNode (st : State) :
  selView (toggleFavorite catalog imgId btnNode st) = selView st.
Proof.
  unfold toggleFavorite. cbn zeta. split_cases;
    repeat first [ peel_setter | rewrite renderGalleryPage_selView | rewrite applyFiltersSearchSort_selView | rewrite persistFavorites_selView | rewrite updateLightboxFavoriteIcon_selView | rewrite renderFavoritesSidebar_selView | rewrite updateLightbox_selView | rewrite stopSlideshow_selView | rewrite startSlideshow_selView | rewrite toggleSlideshow_selView | rewrite onSearchInput_selView | rewrite resetAndRender_selView ]; reflexivity.
Qed.

Lemma toggleFavorite_inputView catalog imgId btnNode (st : State) :
  inputView (toggleFavorite catalog imgId btnNode st) = inputView st.
Proof.
  unfold toggleFavorite. cbn zeta. split_cases;
    repeat first [ peel_setter | rewrite renderGalleryPage_inputView | rewrite applyFiltersSearchSort_inputView | rewrite persistFavorites_inputView | rewrite updateLightboxFavoriteIcon_inputView | rewrite renderFavoritesSidebar_inputView | rewrite updateLightbox_inputView | rewrite openLightbox_inputView | rewrite openLightboxByIndex_inputView | rewrite showNext_inputView | rewrite showPrev_inputView | rewrite stopSlideshow_inputView | rewrite startSlideshow_inputView | rewrite toggleSlideshow_inputView | rewrite closeLightbox_inputView | rewrite onSearchInput_inputView | rewrite resetAndRender_inputView ]; reflexivity.
Qed.

Lemma toggleFavoriteCurrent_timerView catalog (st : State) :
  timerView (toggleFavoriteCurrent catalog st) = timerView st.
Proof.
  unfold toggleFavoriteCurrent. cbn zeta. split_cases;
    repeat first [ peel_setter | rewrite renderGalleryPage_timerView | rewrite applyFiltersSearchSort_timerView | rewrite persistFavorites_timerView | rewrite updateLightboxFavoriteIcon_timerView | rewrite renderFavoritesSidebar_timerView | rewrite updateLightbox_timerView | rewrite openLightbox_timerView | rewrite openLightboxByIndex_timerView | rewrite showNext_timerView | rewrite showPrev_timerView | rewrite resetAndRender_timerView | rewrite toggleFavorite_timerView ]; reflexivity.
Qed.

Lemma toggleFavoriteCurrent_selView catalog (st : State) :
  selView (toggleFavoriteCurrent catalog st) = selView st.
Proof.
  unfold toggleFavoriteCurrent. cbn zeta. split_cases;
    repeat first [ peel_setter | rewrite renderGalleryPage_selView | rewrite applyFiltersSearchSort_selView | rewrite persistFavorites_selView | rewrite updateLightboxFavoriteIcon_selView | rewrite renderFavoritesSidebar_selView | rewrite updateLightbox_selView | rewrite stopSlideshow_selView | rewrite startSlideshow_selView | rewrite toggleSlideshow_selView | rewrite onSearchInput_selView | rewrite resetAndRender_selView | rewrite toggleFavorite_selView ]; reflexivity.
Qed.

Lemma toggleFavoriteCurrent_inputView catalog (st : State) :
  inputView (toggleFavoriteCurrent catalog st) = inputView st.
Proof.
  unfold toggleFavoriteCurrent. cbn zeta. split_cases;
    repeat first [ peel_setter | rewrite renderGalleryPage_inputView | rewrite applyFiltersSearchSort_inputView | rewrite persistFavorites_inputView | rewrite updateLightboxFavoriteIcon_inputView | rewrite renderFavoritesSidebar_inputView | rewrite updateLightbox_inputView | rewrite openLightbox_inputView | rewrite openLightboxByIndex_inputView | rewrite showNext_inputView | rewrite showPrev_inputView | rewrite stopSlideshow_inputView | rewrite startSlideshow_inputView | rewrite toggleSlideshow_inputView | rewrite closeLightbox_inputView | rewrite onSearchInput_inputView | rewrite resetAndRender_inputView | rewrite toggleFavorite_inputView ]; reflexivity.
Qed.

Lemma onSidebarImage_timerView imgData (st : State) :
  timerView (onSidebarImage imgData st) = timerView st.
Proof.
  unfold onSidebarImage. cbn zeta. split_cases;
    repeat first [ peel_setter | rewrite renderGalleryPage_timerView | rewrite applyFiltersSearchSort_timerView | rewrite persistFavorites_timerView | rewrite updateLightboxFavoriteIcon_timerView | rewrite renderFavoritesSidebar_timerView | rewrite updateLightbox_timerView | rewrite openLightbox_timerView | rewrite openLightboxByIndex_timerView | rewrite showNext_timerView | rewrite showPrev_timerView | rewrite resetAndRender_timerView | rewrite toggleFavorite_timerView | rewrite toggleFavoriteCurrent_timerView ]; reflexivity.
Qed.

Lemma onSidebarImage_favView imgData (st : State) :
  favView (onSidebarImage imgData st) = favView st.
Proof.
  unfold onSidebarImage. cbn zeta. split_cases;
    repeat first [ peel_setter | rewrite renderGalleryPage_favView | rewrite applyFiltersSearchSort_favView | rewrite updateLightboxFavoriteIcon_favView | rewrite updateLightbox_favView | rewrite openLightbox_favView | rewrite openLightboxByIndex_favView | rewrite showNext_favView | rewrite showPrev_favView | rewrite stopSlideshow_favView | rewrite startSlideshow_favView | rewrite toggleSlideshow_favView | rewrite closeLightbox_favView | rewrite onSearchInput_favView | rewrite resetAndRender_favView ]; reflexivity.
Qed.

Lemma onSidebarImage_inputView imgData (st : State) :
  inputView (onSidebarImage imgData st) = inputView st.
Proof.
  unfold onSidebarImage. cbn zeta. split_cases;
    repeat first [ peel_setter | rewrite renderGalleryPage_inputView | rewrite applyFiltersSearchSort_inputView | rewrite persistFavorites_inputView | rewrite updateLightboxFavoriteIcon_inputView | rewrite renderFavoritesSidebar_inputView | rewrite updateLightbox_inputView | rewrite openLightbox_inputView | rewrite openLightboxByIndex_inputView | rewrite showNext_inputView | rewrite showPrev_inputView | rewrite stopSlideshow_inputView | rewrite startSlideshow_inputView | rewrite toggleSlideshow_inputView | rewrite closeLightbox_inputView | rewrite onSearchInput_inputView | rewrite resetAndRender_inputView | rewrite toggleFavorite_inputView | rewrite toggleFavoriteCurrent_inputView ]; reflexivity.
Qed.

Lemma onSidebarImage_gridView imgData (st : State) :
  gridView (onSidebarImage imgData st) = gridView st.
Proof.
  unfold onSidebarImage. cbn zeta. split_cases;
    repeat first [ peel_setter | rewrite persistFavorites_gridView | rewrite updateLightboxFavoriteIcon_gridView | rewrite renderFavoritesSidebar_gridView | rewrite updateLightbox_gridView | rewrite openLightbox_gridView | rewrite openLightboxByIndex_gridView | rewrite showNext_gridView | rewrite showPrev_gridView | rewrite stopSlideshow_gridView | rewrite startSlideshow_gridView | rewrite toggleSlideshow_gridView | rewrite closeLightbox_gridView | rewrite onSearchInput_gridView ]; reflexivity.
Qed.

Lemma onSidebarRemove_timerView `{Collator} catalog imgData (st : State) :
  timerView (onSidebarRemove catalog imgData st) = timerView st.
Proof.
  unfold onSidebarRemove. cbn zeta. split_cases;
    repeat first [ peel_setter | rewrite renderGalleryPage_timerView | rewrite applyFiltersSearchSort_timerView | rewrite persistFavorites_timerView | rewrite updateLightboxFavoriteIcon_timerView | rewrite renderFavoritesSidebar_timerView | rewrite updateLightbox_timerView | rewrite openLightbox_timerView | rewrite openLightboxByIndex_timerView | rewrite showNext_timerView | rewrite showPrev_timerView | rewrite resetAndRender_timerView | rewrite toggleFavorite_timerView | rewrite toggleFavoriteCurrent_timerView | rewrite onSidebarImage_timerView ]; reflexivity.
Qed.

Lemma onSidebarRemove_selView `{Collator} catalog imgData (st : State) :
  selView (onSidebarRemove catalog imgData st) = selView st.
Proof.
  unfold onSidebarRemove. cbn zeta. split_cases;
    repeat first [ peel_setter | rewrite renderGalleryPage_selView | rewrite applyFiltersSearchSort_selView | rewrite persistFavorites_selView | rewrite updateLightboxFavoriteIcon_selView | rewrite renderFavoritesSidebar_selView | rewrite updateLightbox_selView | rewrite stopSlideshow_selView | rewrite startSlideshow_selView | rewrite toggleSlideshow_selView | rewrite onSearchInput_selView | rewrite resetAndRender_selView | rewrite toggleFavorite_selView | rewrite toggleFavoriteCurrent_selView ]; reflexivity.
Qed.

Lemma onSidebarRemove_inputView `{Collator} catalog imgData (st : State) :
  inputView (onSidebarRemove catalog imgData st) = inputView st.
Proof.
  unfold onSidebarRemove. cbn zeta. split_cases;
    repeat first [ peel_setter | rewrite renderGalleryPage_inputView | rewrite applyFiltersSearchSort_inputView | rewrite persistFavorites_inputView | rewrite updateLightboxFavoriteIcon_inputView | rewrite renderFavoritesSidebar_inputView | rewrite updateLightbox_inputView | rewrite openLightbox_inputView | rewrite openLightboxByIndex_inputView | rewrite showNext_inputView | rewrite showPrev_inputView | rewrite stopSlideshow_inputView | rewrite startSlideshow_inputView | rewrite toggleSlideshow_inputView | rewrite closeLightbox_inputView | rewrite onSearchInput_inputView | rewrite resetAndRender_inputView | rewrite toggleFavorite_inputView | rewrite toggleFavoriteCurrent_inputView | rewrite onSidebarImage_inputView ]; reflexivity.
Qed.

Lemma onItemKeyDown_timerView i key (st : State) :
  timerView (onItemKeyDown i key st) = timerView st.
Proof.
  unfold onItemKeyDown. cbn zeta. split_cases;
    repeat first [ peel_setter | rewrite renderGalleryPage_timerView | rewrite applyFiltersSearchSort_timerView | rewrite persistFavorites_timerView | rewrite updateLightboxFavoriteIcon_timerView | rewrite renderFavoritesSidebar_timerView | rewrite updateLightbox_timerView | rewrite openLightbox_timerView | rewrite openLightboxByIndex_timerView | rewrite showNext_timerView | rewrite showPrev_timerView | rewrite resetAndRender_timerView | rewrite toggleFavorite_timerView | rewrite toggleFavoriteCurrent_timerView | rewrite onSidebarImage_timerView | rewrite onSidebarRemove_timerView ]; reflexivity.
Qed.

Lemma onItemKeyDown_favView i key (st : State) :
  favView (onItemKeyDown i key st) = favView st.
Proof.
  unfold onItemKeyDown. cbn zeta. split_cases;
    repeat first [ peel_setter | rewrite renderGalleryPage_favView | rewrite applyFiltersSearchSort_favView | rewrite updateLightboxFavoriteIcon_favView | rewrite updateLightbox_favView | rewrite openLightbox_favView | rewrite openLightboxByIndex_favView | rewrite showNext_favView | rewrite showPrev_favView | rewrite stopSlideshow_favView | rewrite startSlideshow_favView | rewrite toggleSlideshow_favView | rewrite closeLightbox_favView | rewrite onSearchInput_favView | rewrite resetAndRender_favView | rewrite onSidebarImage_favView ]; reflexivity.
Qed.

Lemma onItemKeyDown_inputView i key (st : State) :
  inputView (onItemKeyDown i key st) = inputView st.
Proof.
  unfold onItemKeyDown. cbn zeta. split_cases;
    repeat first [ peel_setter | rewrite renderGalleryPage_inputView | rewrite applyFiltersSearchSort_inputView | rewrite persistFavorites_inputView | rewrite updateLightboxFavoriteIcon_inputView | rewrite renderFavoritesSidebar_inputView | rewrite updateLightbox_inputView | rewrite openLightbox_inputView | rewrite openLightboxByIndex_inputView | rewrite showNext_inputView | rewrite showPrev_inputView | rewrite stopSlideshow_inputView | rewrite startSlideshow_inputView | rewrite toggleSlideshow_inputView | rewrite closeLightbox_inputView | rewrite onSearchInput_inputView | rewrite resetAndRender_inputView | rewrite toggleFavorite_inputView | rewrite toggleFavoriteCurrent_inputView | rewrite onSidebarImage_inputView | rewrite onSidebarRemove_inputView ]; reflexivity.
Qed.

Lemma onItemKeyDown_gridView i key (st : State) :
  gridView (onItemKeyDown i key st) = gridView st.
Proof.
  unfold onItemKeyDown. cbn zeta. split_cases;
    repeat first [ peel_setter | rewrite persistFavorites_gridView | rewrite updateLightboxFavoriteIcon_gridView | rewrite renderFavoritesSidebar_gridView | rewrite updateLightbox_gridView | rewrite openLightbox_gridView | rewrite openLightboxByIndex_gridView | rewrite showNext_gridView | rewrite showPrev_gridView | rewrite stopSlideshow_gridView | rewrite startSlideshow_gridView | rewrite toggleSlideshow_gridView | rewrite closeLightbox_gridView | rewrite onSearchInput_gridView | rewrite onSidebarImage_gridView ]; reflexivity.
Qed.

Lemma onKeyDown_favView key targetIsInput (st : State) :
  favView (onKeyDown key targetIsInput st) = favView st.
Proof.
  unfold onKeyDown. cbn zeta. split_cases;
    repeat first [ peel_setter | rewrite renderGalleryPage_favView | rewrite applyFiltersSearchSort_favView | rewrite updateLightboxFavoriteIcon_favView | rewrite updateLightbox_favView | rewrite openLightbox_favView | rewrite openLightboxByIndex_favView | rewrite showNext_favView | rewrite showPrev_favView | rewrite stopSlideshow_favView | rewrite startSlideshow_favView | rewrite toggleSlideshow_favView | rewrite closeLightbox_favView | rewrite onSearchInput_favView | rewrite resetAndRender_favView | rewrite onSidebarImage_favView | rewrite onItemKeyDown_favView ]; reflexivity.
Qed.

Lemma onKeyDown_inputView key targetIsInput (st : State) :
  inputView (onKeyDown key targetIsInput st) = inputView st.
Proof.
  unfold onKeyDown. cbn zeta. split_cases;
    repeat first [ peel_setter | rewrite renderGalleryPage_inputView | rewrite applyFiltersSearchSort_inputView | rewrite persistFavorites_inputView | rewrite updateLightboxFavoriteIcon_inputView | rewrite renderFavoritesSidebar_inputView | rewrite updateLightbox_inputView | rewrite openLightbox_inputView | rewrite openLightboxByIndex_inputView | rewrite showNext_inputView | rewrite showPrev_inputView | rewrite stopSlideshow_inputView | rewrite startSlideshow_inputView | rewrite toggleSlideshow_inputView | rewrite closeLightbox_inputView | rewrite onSearchInput_inputView | rewrite resetAndRender_inputView | rewrite toggleFavorite_inputView | rewrite toggleFavoriteCurrent_inputView | rewrite onSidebarImage_inputView | rewrite onSidebarRemove_inputView | rewrite onItemKeyDown_inputView ]; reflexivity.
Qed.

Lemma onKeyDown_gridView key targetIsInput (st : State) :
  gridView (onKeyDown key targetIsInput st) = gridView st.
Proof.
  unfold onKeyDown. cbn zeta. split_cases;
    repeat first [ peel_setter | rewrite persistFavorites_gridView | rewrite updateLightboxFavoriteIcon_gridView | rewrite renderFavoritesSidebar_gridView | rewrite updateLightbox_gridView | rewrite openLightbox_gridView | rewrite openLightboxByIndex_gridView | rewrite showNext_gridView | rewrite showPrev_gridView | rewrite stopSlideshow_gridView | rewrite startSlideshow_gridView | rewrite toggleSlideshow_gridView | rewrite closeLightbox_gridView | rewrite onSearchInput_gridView | rewrite onSidebarImage_gridView | rewrite onItemKeyDown_gridView ]; reflexivity.
Qed.

Lemma onTimer_favView `{Collator} catalog h (st : State) :
  favView (onTimer catalog h st) = favView st.
Proof.
  unfold onTimer. cbn zeta. split_cases;
    repeat first [ peel_setter | rewrite renderGalleryPage_favView | rewrite applyFiltersSearchSort_favView | rewrite updateLightboxFavoriteIcon_favView | rewrite updateLightbox_favView | rewrite openLightbox_favView | rewrite openLightboxByIndex_favView | rewrite showNext_favView | rewrite showPrev_favView | rewrite stopSlideshow_favView | rewrite startSlideshow_favView | rewrite toggleSlideshow_favView | rewrite closeLightbox_favView | rewrite onSearchInput_favView | rewrite resetAndRender_favView | rewrite onSidebarImage_favView | rewrite onItemKeyDown_favView | rewrite onKeyDown_favView ]; reflexivity.
Qed.

Lemma onTimer_inputView `{Collator} catalog h (st : State) :
  inputView (onTimer catalog h st) = inputView st.
Proof.
  unfold onTimer. cbn zeta. split_cases;
    repeat first [ peel_setter | rewrite renderGalleryPage_inputView | rewrite applyFiltersSearchSort_inputView | rewrite persistFavorites_inputView | rewrite updateLightboxFavoriteIcon_inputView | rewrite renderFavoritesSidebar_inputView | rewrite updateLightbox_inputView | rewrite openLightbox_inputView | rewrite openLightboxByIndex_inputView | rewrite showNext_inputView | rewrite showPrev_inputView | rewrite stopSlideshow_inputView | rewrite startSlideshow_inputView | rewrite toggleSlideshow_inputView | rewrite closeLightbox_inputView | rewrite onSearchInput_inputView | rewrite resetAndRender_inputView | rewrite toggleFavorite_inputView | rewrite toggleFavoriteCurrent_inputView | rewrite onSidebarImage_inputView | rewrite onSidebarRemove_inputView | rewrite onItemKeyDown_inputView | rewrite onKeyDown_inputView ]; reflexivity.
Qed.

(** The lemmas above as rewriting rules, one base for each view. *)
Create Rewrite HintDb timerView.
Create Rewrite HintDb favView.
Create Rewrite HintDb selView.
Create Rewrite HintDb inputView.
Create Rewrite HintDb gridView.
#[global] Hint Rewrite @renderGalleryPage_timerView @applyFiltersSearchSort_timerView @persistFavorites_timerView @updateLightboxFavoriteIcon_timerView @renderFavoritesSidebar_timerView @updateLightbox_timerView @openLightbox_timerView @openLightboxByIndex_timerView @showNext_timerView @showPrev_timerView @resetAndRender_timerView @toggleFavorite_timerView @toggleFavoriteCurrent_timerView @onSidebarImage_timerView @onSidebarRemove_timerView @onItemKeyDown_timerView : timerView.
#[global] Hint Rewrite @renderGalleryPage_favView @applyFiltersSearchSort_favView @updateLightboxFavoriteIcon_favView @updateLightbox_favView @openLightbox_favView @openLightboxByIndex_favView @showNext_favView @showPrev_favView @stopSlideshow_favView @startSlideshow_favView @toggleSlideshow_favView @closeLightbox_favView @onSearchInput_favView @resetAndRender_favView @onSidebarImage_favView @onItemKeyDown_favView @onKeyDown_favView @onTimer_favView : favView.
#[global] Hint Rewrite @renderGalleryPage_selView @applyFiltersSearchSort_selView @persistFavorites_selView @updateLightboxFavoriteIcon_selView @renderFavoritesSidebar_selView @updateLightbox_selView @stopSlideshow_selView @startSlideshow_selView @toggleSlideshow_selView @onSearchInput_selView @resetAndRender_selView @toggleFavorite_selView @toggleFavoriteCurrent_selView @onSidebarRemove_selView : selView.
#[global] Hint Rewrite @renderGalleryPage_inputView @applyFiltersSearchSort_inputView @persistFavorites_inputView @updateLightboxFavoriteIcon_inputView @renderFavoritesSidebar_inputView @updateLightbox_inputView @openLightbox_inputView @openLightboxByIndex_inputView @showNext_inputView @showPrev_inputView @stopSlideshow_inputView @startSlideshow_inputView @toggleSlideshow_inputView @closeLightbox_inputView @onSearchInput_inputView @resetAndRender_inputView @toggleFavorite_inputView @toggleFavoriteCurrent_inputView @onSidebarImage_inputView @onSidebarRemove_inputView @onItemKeyDown_inputView @onKeyDown_inputView @onTimer_inputView : inputView.
#[global] Hint Rewrite @persistFavorites_gridView @updateLightboxFavoriteIcon_gridView @renderFavoritesSidebar_gridView @updateLightbox_gridView @openLightbox_gridView @openLightboxByIndex_gridView @showNext_gridView @showPrev_gridView @stopSlideshow_gridView @startSlideshow_gridView @toggleSlideshow_gridView @closeLightbox_gridView @onSearchInput_gridView @onSidebarImage_gridView @onItemKeyDown_gridView @onKeyDown_gridView : gridView.

(** Proves that a composition of the functions above keeps a view. *)
Tactic Notation "keeps_view" ident(db) :=
  cbn zeta; split_cases;
  repeat first [ peel_setter | progress autorewrite with db ]; reflexivity.


(** ** The slideshow button, the debounce timer and the selection *)

Lemma ButtonShowsSlideshow_view (st st' : State) :
  timerView st' = timerView st → ButtonShowsSlideshow st → ButtonShowsSlideshow st'.
Proof.
  unfold timerView, ButtonShowsSlideshow. intros [= _ _ -> _ -> ->]. done.
Qed.

Lemma DebounceOwned_view (st st' : State) :
  timerView st' = timerView st → DebounceOwned st → DebounceOwned st'.
Proof.
  unfold timerView, DebounceOwned. intros [= -> _ _ -> _ _]. done.
Qed.

Lemma stopSlideshow_controls (st : State) :
  ButtonShowsSlideshow st → DebounceOwned st →
  ButtonShowsSlideshow (stopSlideshow st) ∧ DebounceOwned (stopSlideshow st).
Proof.
  intros Hb Hd. unfold stopSlideshow.
  destruct (negb (truthyHandle (slideshowInterval st))) eqn:Ht; [done|].
  split.
  - unfold ButtonShowsSlideshow. cbn. split; [done | discriminate].
  - unfold DebounceOwned. cbn. intros h Hl.
    destruct (slideshowInterval st) as [h0|]; [|by apply Hd].
    apply lookup_delete_Some in Hl as [_ Hl]. by apply Hd.
Qed.

Lemma startSlideshow_controls (st : State) :
  DebounceOwned st →
  ButtonShowsSlideshow (startSlideshow st) ∧ DebounceOwned (startSlideshow st).
Proof.
  intros Hd. unfold startSlideshow. split.
  - unfold ButtonShowsSlideshow. cbn. done.
  - unfold DebounceOwned. cbn. intros h Hl.
    apply lookup_insert_Some in Hl as [[_ ?]|[_ Hl]]; [done | by apply Hd].
Qed.

Lemma toggleSlideshow_controls (st : State) :
  ButtonShowsSlideshow st → DebounceOwned st →
  ButtonShowsSlideshow (toggleSlideshow st) ∧ DebounceOwned (toggleSlideshow st).
Proof.
  intros Hb Hd. unfold toggleSlideshow. destruct (truthyHandle _).
  - by apply stopSlideshow_controls.
  - by apply startSlideshow_controls.
Qed.

Lemma closeLightbox_controls (st : State) :
  ButtonShowsSlideshow st → DebounceOwned st →
  ButtonShowsSlideshow (closeLightbox st) ∧ DebounceOwned (closeLightbox st).
Proof. intros Hb Hd. unfold closeLightbox. by apply stopSlideshow_controls. Qed.

Lemma onSearchInput_controls (st : State) :
  ButtonShowsSlideshow st → DebounceOwned st →
  ButtonShowsSlideshow (onSearchInput st) ∧ DebounceOwned (onSearchInput st).
Proof.
  intros Hb Hd. unfold onSearchInput. split; [exact Hb|].
  unfold DebounceOwned. cbn. intros h Hl.
  apply lookup_insert_Some in Hl as [[<- _]|[Hne Hl]]; [done|].
  destruct (searchDeb st) as [h0|] eqn:Hs.
  - apply lookup_delete_Some in Hl as [Hne0 Hl]. apply Hd in Hl. congruence.
  - apply Hd in Hl. congruence.
Qed.

Lemma showNext_index_nonneg (st : State) :
  0 <= currentIndex st → 0 <= currentIndex (showNext st).
Proof.
  intros Hi. destruct (filteredList st) as [|x l] eqn:Hl.
  - by rewrite showNext_empty.
  - rewrite showNext_currentIndex by (by rewrite Hl).
    apply Z.rem_nonneg; [rewrite Hl; cbn; lia | lia].
Qed.

Lemma showPrev_index_nonneg (st : State) :
  0 <= currentIndex st → 0 <= currentIndex (showPrev st).
Proof.
  intros Hi. destruct (filteredList st) as [|x l] eqn:Hl.
  - by rewrite showPrev_empty.
  - rewrite showPrev_currentIndex by (by rewrite Hl).
    apply Z.rem_nonneg; rewrite Hl; cbn [length]; lia.
Qed.

Lemma openLightboxByIndex_index_nonneg (i : Z) (st : State) :
  0 <= currentIndex st → 0 <= currentIndex (openLightboxByIndex i st).
Proof.
  intros Hi. unfold openLightboxByIndex.
  destruct (Z.ltb_spec i 0); [done|]. destruct (_ >=? _); [done|]. cbn [orb].
  unfold openLightbox. cbn. by rewrite updateLightbox_currentIndex.
Qed.

Lemma selView_index (st st' : State) :
  selView st' = selView st → currentIndex st' = currentIndex st.
Proof. unfold selView. by intros [= -> _]. Qed.

Lemma onKeyDown_controls (key : string) (targetIsInput : bool) (st : State) :
  ControlsInv st → ControlsInv (onKeyDown key targetIsInput st).
Proof.
  intros (Hb & Hd & Hi). unfold onKeyDown. destruct (lightbox_active st); [|done].
  set (s1 := if String.eqb key "ArrowRight" then showNext st else st).
  assert (I1 : ControlsInv s1).
  { subst s1. destruct (String.eqb key "ArrowRight"); [|done].
    split; [|split].
    - eapply ButtonShowsSlideshow_view; [apply showNext_timerView | done].
    - eapply DebounceOwned_view; [apply showNext_timerView | done].
    - by apply showNext_index_nonneg. }
  set (s2 := if String.eqb key "ArrowLeft" then showPrev s1 else s1).
  assert (I2 : ControlsInv s2).
  { subst s2. destruct (String.eqb key "ArrowLeft"); [|done].
    destruct I1 as (Hb1 & Hd1 & Hi1). split; [|split].
    - eapply ButtonShowsSlideshow_view; [apply showPrev_timerView | done].
    - eapply DebounceOwned_view; [apply showPrev_timerView | done].
    - by apply showPrev_index_nonneg. }
  set (s3 := if String.eqb key "Escape" then closeLightbox s2 else s2).
  assert (I3 : ControlsInv s3).
  { subst s3. destruct (String.eqb key "Escape"); [|done].
    destruct I2 as (Hb2 & Hd2 & Hi2).
    destruct (closeLightbox_controls s2 Hb2 Hd2) as [C1 C2].
    split; [done|]. split; [done|].
    unfold closeLightbox. by rewrite (selView_index _ _ (stopSlideshow_selView _)). }
  destruct (_ && _); [|done].
  destruct I3 as (Hb3 & Hd3 & Hi3).
  destruct (toggleSlideshow_controls s3 Hb3 Hd3) as [C1 C2].
  split; [done|]. split; [done|].
  by rewrite (selView_index _ _ (toggleSlideshow_selView _)).
Qed.

Lemma ControlsInv_keeps (st st' : State) :
  timerView st' = timerView st → 0 <= currentIndex st' →
  ControlsInv st → ControlsInv st'.
Proof.
  intros Hv Hi (Hb & Hd & _). split; [|split]; [| |done].
  - by eapply ButtonShowsSlideshow_view.
  - by eapply DebounceOwned_view.
Qed.

Lemma onTimer_controls `{Collator} catalog (h : Z) (st : State) :
  ControlsInv st → ControlsInv (onTimer catalog h st).
Proof.
  intros (Hb & Hd & Hi). unfold onTimer. destruct (timers st !! h) as [[|]|] eqn:Hl.
  - apply (ControlsInv_keeps st); [apply showNext_timerView | | done].
    by apply showNext_index_nonneg.
  - split; [|split].
    + eapply ButtonShowsSlideshow_view; [apply resetAndRender_timerView|]. exact Hb.
    + eapply DebounceOwned_view; [apply resetAndRender_timerView|].
      unfold DebounceOwned. cbn. intros h' Hl'.
      apply lookup_delete_Some in Hl' as [_ Hl']. by apply Hd.
    + rewrite (selView_index _ _ (resetAndRender_selView _ _)). exact Hi.
  - done.
Qed.

Lemma handle_timerView `{Collator} catalog (e : Event) (st : State) :
  match e with
  | InputSearch _ | ClickLightboxClose | ClickLightboxOverlay | ClickSlideshowBtn
  | KeyDown _ _ | KeyDownItem _ _ | TimerFires _ => True
  | _ => timerView (handle catalog e st) = timerView st
  end.
Proof.
  destruct e as [df|v|v| | | | | | | |key b|k|k|k|k key|k|k| |h]; try exact I; cbn [handle]; keeps_view timerView.
Qed.

Lemma handle_index_nonneg `{Collator} catalog (e : Event) (st : State) :
  0 <= currentIndex st →
  match e with
  | KeyDown _ _ | KeyDownItem _ _ | TimerFires _ => True
  | _ => 0 <= currentIndex (handle catalog e st)
  end.
Proof.
  intros Hi. destruct e as [df|v|v| | | | | | | |key b|k|k|k|k key|k|k| |h]; try exact I; cbn [handle].
  - by rewrite (selView_index _ _ (resetAndRender_selView _ _)).
  - by rewrite (selView_index _ _ (onSearchInput_selView _)).
  - by rewrite (selView_index _ _ (resetAndRender_selView _ _)).
  - by rewrite (selView_index _ _ (renderGalleryPage_selView _)).
  - unfold closeLightbox. by rewrite (selView_index _ _ (stopSlideshow_selView _)).
  - by apply showPrev_index_nonneg.
  - by apply showNext_index_nonneg.
  - unfold closeLightbox. by rewrite (selView_index _ _ (stopSlideshow_selView _)).
  - by rewrite (selView_index _ _ (toggleFavoriteCurrent_selView _ _)).
  - by rewrite (selView_index _ _ (toggleSlideshow_selView _)).
  - destruct (galleryEl st !! k) as [[]|]; try done.
    by apply openLightboxByIndex_index_nonneg.
  - destruct (galleryEl st !! k) as [[]|]; try done.
    by apply openLightboxByIndex_index_nonneg.
  - destruct (galleryEl st !! k) as [[]|]; try done.
    by rewrite (selView_index _ _ (toggleFavorite_selView _ _ _ _)).
  - destruct (favoritesList st !! k) as [[]|]; try done.
    unfold onSidebarImage. by apply openLightboxByIndex_index_nonneg.
  - destruct (favoritesList st !! k) as [[]|]; try done.
    by rewrite (selView_index _ _ (onSidebarRemove_selView _ _ _)).
  - destruct (negb _); [|done].
    by rewrite (selView_index _ _ (renderGalleryPage_selView _)).
Qed.

Lemma handle_controls `{Collator} catalog (e : Event) (st : State) :
  ControlsInv st → ControlsInv (handle catalog e st).
Proof.
  intros Hinv. pose proof Hinv as (Hb & Hd & Hi).
  pose proof (handle_timerView catalog e st) as Hv.
  pose proof (handle_index_nonneg catalog e st Hi) as Hn.
  destruct e as [df|v|v| | | | | | | |key b|k|k|k|k key|k|k| |h];
    try (by apply (ControlsInv_keeps st)); cbn [handle].
  - destruct (onSearchInput_controls (set_searchInput_value v st) Hb Hd) as [C1 C2].
    split; [done|]. split; [done|]. exact Hn.
  - destruct (closeLightbox_controls st Hb Hd) as [C1 C2]. by repeat split.
  - destruct (closeLightbox_controls st Hb Hd) as [C1 C2]. by repeat split.
  - destruct (toggleSlideshow_controls st Hb Hd) as [C1 C2]. by repeat split.
  - by apply onKeyDown_controls.
  - destruct (galleryEl st !! k) as [[]|]; try done.
    apply onKeyDown_controls. unfold onItemKeyDown. destruct (_ || _); [|done].
    apply (ControlsInv_keeps st); [apply openLightboxByIndex_timerView | | done].
    by apply openLightboxByIndex_index_nonneg.
  - by apply onTimer_controls.
Qed.

Lemma reachable_controls `{Collator} catalog (st : State) :
  reachable catalog st → ControlsInv st.
Proof.
  induction 1 as [storage searchValue sortValue st Hload | e st Hr IH Hd].
  - apply loadScript_Some in Hload as (favs & _ & ->).
    apply (ControlsInv_keeps (initialState catalog favs storage searchValue sortValue)).
    + unfold init. keeps_view timerView.
    + unfold init.
      rewrite (selView_index _ _ (renderFavoritesSidebar_selView _ _)).
      cbn zeta. rewrite (selView_index _ _ (renderGalleryPage_selView _)).
      by rewrite (selView_index _ _ (applyFiltersSearchSort_selView _ _)).
    + split; [|split]; [| |done].
      * unfold ButtonShowsSlideshow. cbn. done.
      * unfold DebounceOwned. cbn. intros h. by rewrite lookup_empty.
  - by apply handle_controls.
Qed.

(** X6.  Starting the slideshow and stopping it again leaves no timer
    behind.  From a state with well-kept timers and no slideshow,
    [toggleSlideshow] registers one new timer under [slideshowInterval]
    and gives the button the pause icon; a second [toggleSlideshow]
    clears exactly that timer, so that the table of pending timers is
    what it was, nulls the handle and gives the button the play icon.
    Neither touches the selection or whether the lightbox is open. *)
Theorem slideshow_toggle_round_trip (st : State) :
  TimersOk st → slideshowInterval st = None →
  let st1 := toggleSlideshow st in
  let st2 := toggleSlideshow st1 in
  slideshowInterval st1 = Some (nextTimer st) ∧
  timers st1 = <[nextTimer st := SlideshowTick]> (timers st) ∧
  timers st !! nextTimer st = None ∧
  slideshowBtn_active st1 = true ∧ slideshowBtn_icon st1 = IconPause ∧
  slideshowInterval st2 = None ∧
  timers st2 = timers st ∧
  slideshowBtn_active st2 = false ∧ slideshowBtn_icon st2 = IconPlay ∧
  selView st1 = selView st ∧ selView st2 = selView st.
Proof.
  intros Hok Hnone st1 st2.
  assert (Hfresh : timers st !! nextTimer st = None).
  { destruct (timers st !! nextTimer st) as [cb|] eqn:Hl; [|done].
    apply (timers_bound st Hok) in Hl. lia. }
  assert (H1 : st1 = startSlideshow st).
  { subst st1. unfold toggleSlideshow. by rewrite Hnone. }
  assert (Hpos : 0 < nextTimer st) by apply (next_positive st Hok).
  assert (H2 : st2 = stopSlideshow st1).
  { subst st2. unfold toggleSlideshow. rewrite H1. cbn.
    destruct (Z.eqb_spec (nextTimer st) 0); [lia | done]. }
  assert (Hstop : timers st2 = delete (nextTimer st) (timers st1) ∧
                  slideshowInterval st2 = None ∧
                  slideshowBtn_active st2 = false ∧ slideshowBtn_icon st2 = IconPlay).
  { rewrite H2, H1. unfold stopSlideshow. cbn.
    destruct (Z.eqb_spec (nextTimer st) 0); [lia|]. cbn. done. }
  destruct Hstop as (S1 & S2 & S3 & S4).
  rewrite S1, H1. cbn [timers slideshowInterval slideshowBtn_active slideshowBtn_icon
    startSlideshow set_slideshowInterval set_nextTimer set_timers set_slideshowBtn_icon
    set_slideshowBtn_active nextTimer].
  rewrite delete_insert_id by done.
  repeat split; try done.
  - rewrite H2. by rewrite stopSlideshow_selView, H1, startSlideshow_selView.
Qed.

Lemma slideshow_toggle_round_trip_witness :
  TimersOk lightboxOnFirst ∧ slideshowInterval lightboxOnFirst = None ∧
  timers (toggleSlideshow (toggleSlideshow lightboxOnFirst)) = timers lightboxOnFirst ∧
  slideshowInterval (toggleSlideshow lightboxOnFirst) = Some 1.
Proof.
  assert (Hok : TimersOk lightboxOnFirst).
  { split; try (vm_compute; reflexivity);
      try (intros h; vm_compute; discriminate);
      intros h cb; vm_compute; discriminate. }
  assert (Hn : slideshowInterval lightboxOnFirst = None) by (vm_compute; reflexivity).
  pose proof (slideshow_toggle_round_trip lightboxOnFirst Hok Hn) as Hw.
  cbn zeta in Hw. destruct Hw as (W1 & _ & _ & _ & _ & _ & W7 & _).
  split; [exact Hok|]. split; [exact Hn|]. split; [exact W7 | exact W1].
Defined.

(** X7.  In every state the page can reach, at most one slideshow
    timer is pending, and it is the one whose handle
    [slideshowInterval] holds; the slideshow button is active and shows
    the pause icon exactly while such a timer is pending; and the
    selection is not negative. *)
Theorem one_slideshow_at_most `{Collator} (catalog : list ImageRecord) (st : State) :
  reachable catalog st →
  (∀ h1 h2, timers st !! h1 = Some SlideshowTick →
            timers st !! h2 = Some SlideshowTick → h1 = h2) ∧
  (∀ h, timers st !! h = Some SlideshowTick ↔ slideshowInterval st = Some h) ∧
  ((∃ h, timers st !! h = Some SlideshowTick) ↔
   slideshowBtn_active st = true ∧ slideshowBtn_icon st = IconPause) ∧
  0 <= currentIndex st.
Proof.
  intros Hr.
  pose proof (reachable_TimersOk catalog st Hr) as Hok.
  pose proof (reachable_controls catalog st Hr) as (Hb & _ & Hi).
  assert (Hiff : ∀ h, timers st !! h = Some SlideshowTick ↔ slideshowInterval st = Some h).
  { intros h. split; [apply (tick_owned st Hok) | apply (interval_pending st Hok)]. }
  split; [|split; [exact Hiff|split; [|exact Hi]]].
  - intros h1 h2 H1%Hiff H2%Hiff. congruence.
  - unfold ButtonShowsSlideshow in Hb. split.
    + intros [h Hh%Hiff]. by rewrite Hh in Hb.
    + intros [Ha Hic]. destruct (slideshowInterval st) as [h|] eqn:Hs.
      * exists h. by apply Hiff.
      * destruct Hb as [_ Hne]. contradiction.
Qed.

Lemma one_slideshow_at_most_witness :
  reachable (H := codeUnitCollator) IMAGES slideshowPlaying ∧
  slideshowBtn_icon slideshowPlaying = IconPause ∧
  ∃ h, timers slideshowPlaying !! h = Some SlideshowTick.
Proof.
  pose proof (one_slideshow_at_most (H := codeUnitCollator) IMAGES slideshowPlaying
                slideshowPlaying_reachable) as (_ & _ & Hw & _).
  split; [exact slideshowPlaying_reachable|].
  split; [vm_compute; reflexivity|].
  apply Hw. split; vm_compute; reflexivity.
Defined.

Lemma run_app `{Collator} catalog (es1 es2 : list Event) (st : State) :
  run catalog (es1 ++ es2) st = run catalog es2 (run catalog es1 st).
Proof. revert st. induction es1 as [|e es1 IH]; intros st; [done|]. cbn. apply IH. Qed.

Lemma showNext_timers (st : State) : timers (showNext st) = timers st.
Proof. pose proof (showNext_timerView st) as Hv. unfold timerView in Hv. congruence. Qed.

Lemma ticks_showNext `{Collator} catalog (n : nat) (h : Z) (st : State) :
  timers st !! h = Some SlideshowTick →
  run catalog (ticks n h) st = showNextTimes n st.
Proof.
  revert st. unfold ticks. induction n as [|n IH]; intros st Hl; [done|].
  cbn [replicate run handle showNextTimes]. unfold onTimer. rewrite Hl.
  apply IH. by rewrite showNext_timers.
Qed.

Lemma showNextTimes_timerView (n : nat) (st : State) :
  timerView (showNextTimes n st) = timerView st.
Proof.
  revert st. induction n as [|n IH]; intros st; [done|].
  cbn [showNextTimes]. by rewrite IH, showNext_timerView.
Qed.

Lemma showNextTimes_filteredList (n : nat) (st : State) :
  filteredList (showNextTimes n st) = filteredList st.
Proof.
  revert st. induction n as [|n IH]; intros st; [done|].
  cbn [showNextTimes]. by rewrite IH, showNext_filteredList.
Qed.

(** X8.  A running slideshow steps through the filtered list in a
    circle: in a reachable state whose slideshow timer is pending and
    whose filtered list is not empty, after the timer has fired [n]
    times the selection is the old one plus [n], modulo the length of
    the list; the timer is still pending, and the list is the same. *)
Theorem slideshow_ticks_advance `{Collator} (catalog : list ImageRecord)
    (st : State) (h : Z) (n : nat) :
  reachable catalog st →
  timers st !! h = Some SlideshowTick →
  filteredList st ≠ [] →
  let st' := run catalog (ticks n h) st in
  currentIndex st' =
    (if n is O then currentIndex st
     else (currentIndex st + Z.of_nat n) mod Z.of_nat (length (filteredList st))) ∧
  timers st' !! h = Some SlideshowTick ∧
  slideshowInterval st' = Some h ∧
  filteredList st' = filteredList st.
Proof.
  intros Hr Hl Hne st'. subst st'. rewrite ticks_showNext by done.
  pose proof (reachable_controls catalog st Hr) as (_ & _ & Hi).
  pose proof (reachable_TimersOk catalog st Hr) as Hok.
  pose proof (showNextTimes_timerView n st) as Hv. unfold timerView in Hv.
  injection Hv as Ht _ Hs _ _ _.
  split; [|split; [|split]].
  - destruct n as [|n]; [done|]. by apply showNextTimes_index.
  - by rewrite Ht.
  - rewrite Hs. by apply (tick_owned st Hok).
  - apply showNextTimes_filteredList.
Qed.

Lemma slideshow_ticks_advance_witness :
  reachable (H := codeUnitCollator) IMAGES slideshowPlaying ∧
  timers slideshowPlaying !! 1 = Some SlideshowTick ∧
  filteredList slideshowPlaying ≠ [] ∧
  currentIndex (run (H := codeUnitCollator) IMAGES (ticks 21 1) slideshowPlaying) = 1.
Proof.
  assert (Hl : timers slideshowPlaying !! 1 = Some SlideshowTick)
    by (vm_compute; reflexivity).
  assert (Hne : filteredList slideshowPlaying ≠ []) by (vm_compute; discriminate).
  pose proof (slideshow_ticks_advance (H := codeUnitCollator) IMAGES slideshowPlaying
                1 21 slideshowPlaying_reachable Hl Hne) as Hw.
  cbn zeta in Hw. destruct Hw as (Hidx & _).
  split; [exact slideshowPlaying_reachable|]. split; [exact Hl|]. split; [exact Hne|].
  rewrite Hidx. vm_compute. reflexivity.
Defined.

Lemma onSearchInput_fields (st : State) :
  timers (onSearchInput st) =
    <[nextTimer st := SearchDebounce]>
      (match searchDeb st with
       | Some h => delete h (timers st)
       | None => timers st
       end) ∧
  nextTimer (onSearchInput st) = nextTimer st + 1 ∧
  searchDeb (onSearchInput st) = Some (nextTimer st).
Proof. by repeat split. Qed.

Lemma resetAndRender_filteredList `{Collator} catalog (st : State) :
  filteredList (resetAndRender catalog st) =
    filterSort catalog (activeCategory st) (searchInput_value st) (sortSelect_value st) ∧
  currentPage (resetAndRender catalog st) = 1.
Proof.
  unfold resetAndRender, renderGalleryPage. cbn zeta. split_cases; by split.
Qed.

(** X9.  The search field is debounced, the last keystroke winning.
    A keystroke only sets a timer; a second keystroke cancels the timer
    of the first (firing its handle afterwards changes nothing) and
    sets a new one; when that one fires, the filtered list is computed
    from the text of the second keystroke, the page cursor restarts
    and no debounce timer is left.  In a reachable state, the timer set
    by a keystroke is the only debounce timer pending. *)
Theorem search_is_debounced `{Collator} (catalog : list ImageRecord)
    (st : State) (v1 v2 : string) :
  let st1 := handle catalog (InputSearch v1) st in
  let st2 := handle catalog (InputSearch v2) st1 in
  let st3 := handle catalog (TimerFires (nextTimer st + 1)) st2 in
  timers st1 !! nextTimer st = Some SearchDebounce ∧
  filteredList st1 = filteredList st ∧ galleryEl st1 = galleryEl st ∧
  timers st2 !! nextTimer st = None ∧
  timers st2 !! (nextTimer st + 1) = Some SearchDebounce ∧
  handle catalog (TimerFires (nextTimer st)) st2 = st2 ∧
  filteredList st3 =
    filterSort catalog (activeCategory st) v2 (sortSelect_value st) ∧
  currentPage st3 = 1 ∧
  timers st3 !! (nextTimer st + 1) = None ∧
  (reachable catalog st →
   (∀ h, timers st1 !! h = Some SearchDebounce → h = nextTimer st) ∧
   (∀ h, timers st3 !! h ≠ Some SearchDebounce)).
Proof.
  intros st1 st2 st3.
  assert (T1 : timers st1 = <[nextTimer st := SearchDebounce]>
                 (match searchDeb st with
                  | Some h => delete h (timers st)
                  | None => timers st
                  end)) by reflexivity.
  assert (T2 : timers st2 = <[nextTimer st + 1 := SearchDebounce]>
                 (delete (nextTimer st) (timers st1))) by reflexivity.
  assert (L2 : timers st2 !! (nextTimer st + 1) = Some SearchDebounce).
  { rewrite T2. apply lookup_insert_eq. }
  assert (N2 : timers st2 !! nextTimer st = None).
  { rewrite T2, lookup_insert_ne by lia. apply lookup_delete_eq. }
  assert (H3 : st3 = resetAndRender catalog
                 (set_timers (delete (nextTimer st + 1) (timers st2)) st2)).
  { subst st3. cbn [handle]. unfold onTimer. by rewrite L2. }
  assert (T3 : timers st3 = delete (nextTimer st + 1) (timers st2)).
  { rewrite H3. pose proof (resetAndRender_timerView catalog
      (set_timers (delete (nextTimer st + 1) (timers st2)) st2)) as Hv.
    unfold timerView in Hv. injection Hv as Ht _ _ _ _ _. exact Ht. }
  split; [rewrite T1; apply lookup_insert_eq|].
  split; [reflexivity|]. split; [reflexivity|].
  split; [exact N2|]. split; [exact L2|].
  split; [cbn [handle]; unfold onTimer; by rewrite N2|].
  split; [rewrite H3; exact (proj1 (resetAndRender_filteredList catalog _))|].
  split; [rewrite H3; exact (proj2 (resetAndRender_filteredList catalog _))|].
  split; [rewrite T3; apply lookup_delete_eq|].
  intros Hr. pose proof (reachable_controls catalog st Hr) as (_ & Hd & _).
  assert (Hold : ∀ h, match searchDeb st with
                      | Some h0 => delete h0 (timers st)
                      | None => timers st
                      end !! h ≠ Some SearchDebounce).
  { intros h Hl. destruct (searchDeb st) as [h0|] eqn:Hs.
    - apply lookup_delete_Some in Hl as [Hne Hl]. apply Hd in Hl. congruence.
    - apply Hd in Hl. congruence. }
  split.
  - intros h Hl. rewrite T1 in Hl.
    apply lookup_insert_Some in Hl as [[<- _]|[_ Hl]]; [done|]. by apply Hold in Hl.
  - intros h Hl. rewrite T3, T2 in Hl.
    apply lookup_delete_Some in Hl as [Hne Hl].
    rewrite lookup_insert_ne in Hl by done.
    apply lookup_delete_Some in Hl as [Hne' Hl]. rewrite T1 in Hl.
    rewrite lookup_insert_ne in Hl by done. by apply Hold in Hl.
Qed.

Lemma search_is_debounced_witness :
  reachable (H := codeUnitCollator) IMAGES loadedPage ∧
  map id (filteredList
            (run (H := codeUnitCollator) IMAGES
               [InputSearch "b"; InputSearch "bridge"; TimerFires 1; TimerFires 2]
               loadedPage)) = ["9"] ∧
  ∀ h, timers (handle (H := codeUnitCollator) IMAGES (InputSearch "b") loadedPage) !! h
       = Some SearchDebounce → h = nextTimer loadedPage.
Proof.
  assert (Hr : reachable (H := codeUnitCollator) IMAGES loadedPage).
  { eapply reachable_load. exact loadedPage_loads. }
  pose proof (search_is_debounced (H := codeUnitCollator) IMAGES loadedPage "b" "bridge")
    as Hw.
  cbn zeta in Hw. destruct Hw as (_ & _ & _ & _ & _ & Hstale & Hfl & _ & _ & Hreach).
  split; [exact Hr|]. split; [|exact (proj1 (Hreach Hr))].
  vm_compute. reflexivity.
Defined.

(** ** Writing the favorites and reading them back *)

Module RoundTrip.
Import JSON.
Local Open Scope char_scope.

Lemma chars_append (a b : string) :
  list_ascii_of_string (a +:+ b) = list_ascii_of_string a ++ list_ascii_of_string b.
Proof.
  induction a as [|c a IH]; [done|]. rewrite append_cons. cbn. by rewrite IH.
Qed.

(** An escaped character reads back as the character. *)
Lemma quoteChar_reads_back (c : ascii) (tail : list ascii) :
  parseStringBody (list_ascii_of_string (quoteChar c) ++ tail) =
  res_bind (λ '(us, rest), Ok (N_of_ascii c :: us, rest)) (parseStringBody tail).
Proof. destruct c as [[] [] [] [] [] [] [] []]; reflexivity. Qed.

Lemma quoteBody_reads_back (s : string) (rest : list ascii) :
  parseStringBody (list_ascii_of_string (quoteBody s) ++ "034" :: rest) =
  Ok (map N_of_ascii (list_ascii_of_string s), rest).
Proof.
  induction s as [|c s IH]; [done|].
  cbn [quoteBody]. rewrite chars_append, <- app_assoc, quoteChar_reads_back, IH.
  reflexivity.
Qed.

Lemma quoted_chars (s : string) :
  list_ascii_of_string (quoteJSONString s) =
  "034" :: list_ascii_of_string (quoteBody s) ++ ["034"].
Proof. unfold quoteJSONString. cbn. by rewrite chars_append. Qed.

Lemma parseValue_quoted (fuel : nat) (s : string) (rest : list ascii) :
  parseValue (S fuel) (list_ascii_of_string (quoteJSONString s) ++ rest) =
  Ok (jsonOfString s, rest).
Proof.
  rewrite quoted_chars. cbn [app]. rewrite <- app_assoc. cbn [app].
  cbn [parseValue skipWs]. change (isWs "034") with false. cbv iota.
  change (Ascii.eqb "034" "n") with false. change (Ascii.eqb "034" "t") with false.
  change (Ascii.eqb "034" "f") with false. change (Ascii.eqb "034" "034") with true.
  cbv iota. by rewrite quoteBody_reads_back.
Qed.

Lemma parseElements_S (fuel : nat) (s : list ascii) :
  parseElements (S fuel) s =
  res_bind (λ '(v, r),
              match skipWs r with
              | c :: r1 =>
                  if Ascii.eqb c ","
                  then res_bind (λ '(vs, rest), Ok (v :: vs, rest)) (parseElements fuel r1)
                  else if Ascii.eqb c "]" then Ok ([v], r1)
                  else Throws SyntaxError
              | [] => Throws SyntaxError
              end) (parseValue fuel s).
Proof. reflexivity. Qed.

Lemma parseElements_quoted (l : list string) (x : string) (rest : list ascii) :
  ∀ fuel, (length l < fuel)%nat →
  parseElements (S fuel)
    (list_ascii_of_string (String.concat "," (map quoteJSONString (x :: l)))
       ++ "]" :: rest) =
  Ok (map jsonOfString (x :: l), rest).
Proof.
  revert x. induction l as [|y l IH]; intros x fuel Hf.
  - destruct fuel as [|fuel]; [lia|].
    cbn [map String.concat]. rewrite parseElements_S, parseValue_quoted.
    reflexivity.
  - destruct fuel as [|fuel]; [cbn in Hf; lia|].
    change (String.concat "," (map quoteJSONString (x :: y :: l)))
      with (quoteJSONString x +:+ "," +:+ String.concat "," (map quoteJSONString (y :: l))).
    rewrite chars_append, <- app_assoc. rewrite parseElements_S.
    rewrite parseValue_quoted. rewrite chars_append, <- app_assoc.
    change (list_ascii_of_string ",") with [","]. cbn [app].
    cbn [res_bind skipWs].
    change (isWs ",") with false. cbv iota.
    change (Ascii.eqb "," ",") with true. cbv iota.
    rewrite IH by (cbn in Hf; lia). reflexivity.
Qed.

Lemma concat_length (l : list string) :
  (length l <= length (list_ascii_of_string (String.concat "," (map quoteJSONString l))) + 1)%nat.
Proof.
  induction l as [|x l IH]; [cbn; lia|].
  destruct l as [|y l]; [cbn; lia|].
  change (String.concat "," (map quoteJSONString (x :: y :: l)))
    with (quoteJSONString x +:+ "," +:+ String.concat "," (map quoteJSONString (y :: l))).
  rewrite !chars_append, !length_app. cbn [length] in *.
  change (length (list_ascii_of_string ",")) with 1%nat. lia.
Qed.

(** [JSON.parse] reads the text of [JSON.stringify] back. *)
Lemma parse_stringify (l : list string) :
  parse (JSON_stringify l) = Ok (JArray (map jsonOfString l)).
Proof.
  unfold parse, JSON_stringify. cbn zeta.
  rewrite !chars_append. change (list_ascii_of_string "[") with ["["].
  change (list_ascii_of_string "]") with ["]"]. cbn [app].
  set (body := list_ascii_of_string (String.concat "," (map quoteJSONString l))).
  set (fuel := (2 * length ("[" :: body ++ ["]"]) + 2)%nat).
  assert (Hfuel : ∃ f, fuel = S (S f) ∧ (length l <= f)%nat).
  { subst fuel. pose proof (concat_length l) as Hl. fold body in Hl.
    cbn [length]. rewrite length_app. cbn [length].
    exists (2 * (length body + 1) + 2)%nat. split; lia. }
  destruct Hfuel as (f & -> & Hf).
  cbn [parseValue skipWs]. change (isWs "[") with false. cbv iota.
  change (Ascii.eqb "[" "n") with false. change (Ascii.eqb "[" "t") with false.
  change (Ascii.eqb "[" "f") with false. change (Ascii.eqb "[" "034") with false.
  change (Ascii.eqb "[" "[") with true. cbv iota.
  destruct l as [|x l].
  - reflexivity.
  - assert (Hb : ∃ tl, body = "034" :: tl).
    { subst body. destruct l as [|y l].
      - cbn [map String.concat]. rewrite quoted_chars. eauto.
      - change (String.concat "," (map quoteJSONString (x :: y :: l)))
          with (quoteJSONString x +:+ ","
                  +:+ String.concat "," (map quoteJSONString (y :: l))).
        rewrite chars_append, quoted_chars. cbn [app]. eauto. }
    destruct Hb as [tl Hb].
    assert (Hs : body ++ ["]"] = "034" :: (tl ++ ["]"])) by (by rewrite Hb).
    remember (body ++ ["]"]) as s eqn:Es. rewrite Hs. cbn [skipWs].
    change (isWs "034") with false. cbv iota.
    change (Ascii.eqb "034" "]") with false. cbv iota.
    rewrite <- Hs, Es. subst body.
    destruct f as [|f]; [cbn in Hf; lia|].
    rewrite parseElements_quoted by (cbn in Hf; lia).
    reflexivity.
Qed.
End RoundTrip.

Lemma stringOfUnits_chars (s : string) :
  stringOfUnits (map N_of_ascii (list_ascii_of_string s)) = Some s.
Proof.
  induction s as [|c s IH]; [done|]. cbn [list_ascii_of_string map stringOfUnits].
  rewrite IH, ascii_N_embedding.
  destruct (N.ltb_spec (N_of_ascii c) 256) as [_|Hge]; [done|].
  pose proof (N_ascii_bounded c). lia.
Qed.

Lemma setDelete_absent (s : list string) (x : string) :
  ¬ In x s → setDelete s x = s.
Proof.
  intros Hx. unfold setDelete. induction s as [|y s IH]; [done|].
  cbn [List.filter]. destruct (String.eqb_spec x y) as [->|Hne].
  - exfalso. apply Hx. by left.
  - cbn [negb]. rewrite IH; [done|]. intros Hin. apply Hx. by right.
Qed.

Lemma setOfMembers_strings (l : list string) :
  List.NoDup l → setOfMembers (map jsonOfString l) = Some l.
Proof.
  induction 1 as [|x l Hx Hnd IH]; [done|].
  cbn [map jsonOfString setOfMembers]. fold (jsonOfString x).
  rewrite stringOfUnits_chars. cbn [mbind option_bind]. rewrite IH.
  cbn [mbind option_bind]. by rewrite setDelete_absent.
Qed.

Lemma hydrate_persisted (storage : gmap string string) (favs : list string) :
  hydrateFavorites (<["gallery_favorites" := JSON_stringify favs]> storage)
  = Ok (map jsonOfString favs).
Proof.
  unfold hydrateFavorites. rewrite lookup_insert_eq. cbn zeta.
  assert (Hne : String.eqb (JSON_stringify favs) "" = false) by reflexivity.
  rewrite Hne, RoundTrip.parse_stringify. reflexivity.
Qed.

Lemma setDelete_NoDup (s : list string) (x : string) :
  List.NoDup s → List.NoDup (setDelete s x) ∧ ¬ In x (setDelete s x).
Proof.
  intros Hnd. unfold setDelete. split.
  - by apply List.NoDup_filter.
  - intros [_ Hx]%filter_In. by rewrite String.eqb_refl in Hx.
Qed.

Lemma toggled_NoDup (favs : list string) (imgId : string) :
  List.NoDup favs → List.NoDup (toggled favs imgId).
Proof.
  intros Hnd. unfold toggled. destruct (setHas favs imgId) eqn:Hh.
  - by apply setDelete_NoDup.
  - unfold setAdd. rewrite Hh. apply NoDup_ListNoDup, NoDup_app.
    apply NoDup_ListNoDup in Hnd. split; [done|]. split; [|apply NoDup_singleton].
    intros y Hy ->%list_elem_of_singleton.
    apply list_elem_of_In, setHas_spec in Hy. congruence.
Qed.

Lemma setOfMembers_NoDup (l : list json) (s : list string) :
  setOfMembers l = Some s → List.NoDup s.
Proof.
  revert s. induction l as [|v l IH]; intros s.
  - intros [= <-]. constructor.
  - destruct v as [| | |us| |]; try discriminate. cbn [setOfMembers].
    destruct (stringOfUnits us) as [x|]; [|discriminate]. cbn [mbind option_bind].
    destruct (setOfMembers l) as [s'|]; [|discriminate]. cbn [mbind option_bind].
    intros [= <-]. destruct (setDelete_NoDup s' x (IH s' eq_refl)) as [H1 H2].
    by constructor.
Qed.

Lemma sidebar_of_set catalog (favs : list string) :
  (if Z.of_nat (length favs) =? 0 then [NoFavoritesYet] else sidebarRows catalog favs)
  = (if favs is [] then [NoFavoritesYet] else sidebarRows catalog favs).
Proof. by destruct favs. Qed.

Lemma persisted_reads_back (storage : gmap string string) (favs : list string) :
  List.NoDup favs →
  (members ← hydrateFavorites (<["gallery_favorites" := JSON_stringify favs]> storage);
   Ok (setOfMembers members)) = Ok (Some favs).
Proof.
  intros Hnd. rewrite hydrate_persisted. cbn [mbind res_mbind res_bind].
  by rewrite setOfMembers_strings.
Qed.

Lemma FavoritesInv_view catalog (st st' : State) :
  favView st' = favView st → FavoritesInv catalog st → FavoritesInv catalog st'.
Proof.
  unfold favView, FavoritesInv. intros [= -> -> -> ->]. done.
Qed.

Lemma toggleFavorite_favoriteCount catalog imgId btnNode (st : State) :
  favoriteCount_text (toggleFavorite catalog imgId btnNode st) =
  pretty (length (toggled (favorites st) imgId)).
Proof.
  unfold toggleFavorite, toggled. cbn zeta.
  unfold renderFavoritesSidebar, updateFavoriteCount. cbn zeta. split_cases;
    cbn; rewrite updateLightboxFavoriteIcon_favorites; reflexivity.
Qed.

Lemma toggleFavorite_FavoritesInv catalog imgId btnNode (st : State) :
  List.NoDup (favorites st) →
  FavoritesInv catalog (toggleFavorite catalog imgId btnNode st).
Proof.
  intros Hnd. unfold FavoritesInv.
  rewrite toggleFavorite_favorites, toggleFavorite_favoritesList,
    toggleFavorite_favoriteCount, toggleFavorite_localStorage.
  pose proof (toggled_NoDup _ imgId Hnd) as Hnd'.
  split; [done|]. split; [apply sidebar_of_set|]. split; [done|].
  by apply persisted_reads_back.
Qed.

Lemma renderFavoritesSidebar_FavoritesInv catalog (st : State) :
  List.NoDup (favorites st) →
  (members ← hydrateFavorites (localStorage st); Ok (setOfMembers members))
    = Ok (Some (favorites st)) →
  FavoritesInv catalog (renderFavoritesSidebar catalog st).
Proof.
  intros Hnd Hp. unfold FavoritesInv.
  rewrite renderFavoritesSidebar_favorites, renderFavoritesSidebar_favoritesList,
    renderFavoritesSidebar_localStorage.
  split; [done|]. split; [apply sidebar_of_set|]. split; [|done].
  unfold renderFavoritesSidebar, updateFavoriteCount. cbn zeta. by split_cases.
Qed.

Lemma handle_favView `{Collator} catalog (e : Event) (st : State) :
  match e with
  | ClickFavoriteBtn | ClickItemFavorite _ | ClickSidebarRemove _ => True
  | _ => favView (handle catalog e st) = favView st
  end.
Proof.
  destruct e as [df|v|v| | | | | | | |key b|k|k|k|k key|k|k| |h];
    try exact I; cbn [handle]; keeps_view favView.
Qed.

Lemma handle_FavoritesInv `{Collator} catalog (e : Event) (st : State) :
  FavoritesInv catalog st → FavoritesInv catalog (handle catalog e st).
Proof.
  intros Hinv. pose proof (handle_favView catalog e st) as Hv.
  destruct e as [df|v|v| | | | | | | |key b|k|k|k|k key|k|k| |h];
    try (by apply (FavoritesInv_view catalog st)); cbn [handle].
  - unfold toggleFavoriteCurrent. destruct arrayGet as [img|]; [|done].
    eapply FavoritesInv_view; [apply updateLightboxFavoriteIcon_favView|].
    apply toggleFavorite_FavoritesInv, Hinv.
  - destruct (galleryEl st !! k) as [[img i icon|]|]; try done.
    apply toggleFavorite_FavoritesInv, Hinv.
  - destruct (favoritesList st !! k) as [[imgData|]|]; try done.
    unfold onSidebarRemove. cbn zeta.
    eapply FavoritesInv_view; [apply resetAndRender_favView|].
    destruct (toggleFavorite_FavoritesInv catalog (id imgData) None st (proj1 Hinv))
      as (T1 & _ & _ & T4).
    by apply renderFavoritesSidebar_FavoritesInv.
Qed.

Lemma reachable_FavoritesInv `{Collator} catalog (st : State) :
  reachable catalog st → FavoritesInv catalog st.
Proof.
  induction 1 as [storage searchValue sortValue st Hload | e st Hr IH Hd].
  - apply loadScript_Some in Hload as (favs & Hread & ->).
    assert (Hnd : List.NoDup favs).
    { destruct (hydrateFavorites storage) as [members| |]; try discriminate.
      cbn [mbind res_mbind res_bind] in Hread. injection Hread as Hs.
      by eapply setOfMembers_NoDup. }
    set (s0 := initialState catalog favs storage searchValue sortValue).
    assert (Hv : favView (init catalog s0) = favView s0).
    { unfold init. keeps_view favView. }
    unfold favView in Hv. injection Hv as Hf _ _ Hst.
    apply renderFavoritesSidebar_FavoritesInv; rewrite ?Hf, ?Hst; done.
  - by apply handle_FavoritesInv.
Qed.

(** X10.  Favorites survive a reload.  After [persistFavorites] (the
    listener of [beforeunload], and the step of every toggle that
    writes the set), a set without duplicates is read back unchanged by
    the first lines of the script: loading the script on the resulting
    storage succeeds and starts with the same favorites, whatever the
    set's ids are made of. *)
Theorem favorites_survive_reload `{Collator} (catalog : list ImageRecord)
    (st : State) (searchValue sortValue : string) :
  List.NoDup (favorites st) →
  ∃ st', loadScript catalog (localStorage (onBeforeUnload st)) searchValue sortValue
         = Ok (Some st') ∧
         favorites st' = favorites st ∧
         localStorage st' = localStorage (onBeforeUnload st).
Proof.
  intros Hnd. unfold onBeforeUnload, persistFavorites, loadScript.
  cbn [localStorage set_localStorage].
  rewrite hydrate_persisted. cbn [mbind res_mbind res_bind].
  rewrite setOfMembers_strings by done. cbn [mbind option_bind].
  eexists. split; [reflexivity|].
  set (s0 := initialState catalog (favorites st) _ searchValue sortValue).
  assert (Hv : favView (init catalog s0) = favView s0).
  { unfold init. keeps_view favView. }
  unfold favView in Hv. injection Hv as Hf _ _ Hst.
  by rewrite renderFavoritesSidebar_favorites, renderFavoritesSidebar_localStorage, Hf, Hst.
Qed.

Lemma favorites_survive_reload_witness :
  List.NoDup (favorites favoritedInGrid) ∧
  ∃ st', loadScript (H := codeUnitCollator) IMAGES
           (localStorage (onBeforeUnload favoritedInGrid)) "" "newest" = Ok (Some st') ∧
         favorites st' = ["20"].
Proof.
  assert (Hnd : List.NoDup (favorites favoritedInGrid)).
  { change (favorites favoritedInGrid) with ["20"]. repeat constructor. by intros []. }
  split; [exact Hnd|].
  destruct (favorites_survive_reload (H := codeUnitCollator) IMAGES favoritedInGrid
              "" "newest" Hnd) as (st' & Hload & Hf & _).
  exists st'. split; [exact Hload|]. rewrite Hf. reflexivity.
Defined.

(** X11.  In every state the page can reach, the set of favorites has
    no id twice, the sidebar shows the set (the placeholder for the
    empty set, else the rows of the ids the catalog knows), the counter
    shows its size, and the text in storage reads back as the set: a
    reload at that moment starts with the same favorites. *)
Theorem favorites_kept_in_order `{Collator} (catalog : list ImageRecord) (st : State) :
  reachable catalog st →
  List.NoDup (favorites st) ∧
  favoritesList st =
    (if favorites st is [] then [NoFavoritesYet]
     else sidebarRows catalog (favorites st)) ∧
  favoriteCount_text st = pretty (length (favorites st)) ∧
  ∀ searchValue sortValue,
    ∃ st', loadScript catalog (localStorage st) searchValue sortValue = Ok (Some st') ∧
           favorites st' = favorites st.
Proof.
  intros Hr. destruct (reachable_FavoritesInv catalog st Hr) as (Hnd & Hl & Hc & Hp).
  split; [done|]. split; [done|]. split; [done|].
  intros searchValue sortValue. unfold loadScript.
  destruct (hydrateFavorites (localStorage st)) as [members| |]; try discriminate.
  cbn [mbind res_mbind res_bind] in Hp |- *. injection Hp as ->.
  cbn [mbind option_bind]. eexists. split; [reflexivity|].
  set (s0 := initialState catalog (favorites st) _ searchValue sortValue).
  assert (Hv : favView (init catalog s0) = favView s0).
  { unfold init. keeps_view favView. }
  unfold favView in Hv. injection Hv as Hf _ _ _.
  by rewrite renderFavoritesSidebar_favorites, Hf.
Qed.

Lemma favoritedInGrid_reachable : reachable (H := codeUnitCollator) IMAGES favoritedInGrid.
Proof.
  apply reachable_event; [|reflexivity].
  eapply reachable_load. exact loadedPage_loads.
Qed.

Lemma favorites_kept_in_order_witness :
  reachable (H := codeUnitCollator) IMAGES favoritedInGrid ∧
  favoriteCount_text favoritedInGrid = "1" ∧
  List.NoDup (favorites favoritedInGrid).
Proof.
  destruct (favorites_kept_in_order (H := codeUnitCollator) IMAGES favoritedInGrid
              favoritedInGrid_reachable) as (Hnd & _ & Hc & _).
  split; [exact favoritedInGrid_reachable|].
  split; [rewrite Hc; vm_compute; reflexivity | exact Hnd].
Defined.

(** ** The gallery and the filtered list *)

Lemma renderGalleryPage_fields (st : State) :
  galleryEl (renderGalleryPage st) =
    (if Z.of_nat (length (filteredList st)) =? 0 then [NoImagesFound]
     else galleryEl st ++ pageNodes st) ∧
  currentPage (renderGalleryPage st) = currentPage st + 1 ∧
  filteredList (renderGalleryPage st) = filteredList st ∧
  loadMoreBtn_display (renderGalleryPage st) =
    (if currentPage st * PAGE_SIZE + PAGE_SIZE <? Z.of_nat (length (filteredList st))
     then "flex" else "none").
Proof.
  unfold renderGalleryPage.
  cbn -[Z.ltb Z.eqb Z.mul Z.add Z.of_nat length pageNodes PAGE_SIZE app].
  destruct (currentPage st * PAGE_SIZE + PAGE_SIZE <? Z.of_nat (length (filteredList st)));
    cbn -[Z.ltb Z.eqb Z.mul Z.add Z.of_nat length pageNodes PAGE_SIZE app];
    destruct (Z.of_nat (length (filteredList st)) =? 0);
    repeat split; reflexivity.
Qed.

Lemma map_imap {A B C} (g : B → C) (f : nat → A → B) (l : list A) :
  map g (imap f l) = imap (λ i x, g (f i x)) l.
Proof.
  revert f. induction l as [|x l IH]; intros f; [done|].
  cbn [imap map]. f_equal. apply IH.
Qed.

Lemma pageNodes_keys (st : State) :
  map nodeKey (pageNodes st) =
  imap (λ idx img, Some (img, currentPage st * PAGE_SIZE + Z.of_nat idx)) (pageItems st).
Proof. unfold pageNodes. cbn zeta. by rewrite map_imap. Qed.

Lemma renderGalleryPage_keys (st : State) :
  0 <= currentPage st →
  (filteredList st ≠ [] →
   map nodeKey (galleryEl st) = expectedKeys (filteredList st) (currentPage st)) →
  map nodeKey (galleryEl (renderGalleryPage st)) =
  expectedKeys (filteredList st) (currentPage st + 1).
Proof.
  intros Hp Hpre.
  destruct (renderGalleryPage_fields st) as (-> & _).
  destruct (filteredList st) as [|x l] eqn:Hl; [done|].
  specialize (Hpre ltac:(done)).
  destruct (Z.eqb_spec (Z.of_nat (length (x :: l))) 0) as [He|_];
    [cbn [length] in He; lia|].
  rewrite map_app, Hpre, pageNodes_keys. unfold expectedKeys.
  unfold pageItems. cbn zeta. rewrite Hl, slice_page by (unfold PAGE_SIZE; lia).
  replace (Z.to_nat (PAGE_SIZE * (currentPage st + 1)))
    with (Z.to_nat (PAGE_SIZE * currentPage st) + Z.to_nat PAGE_SIZE)%nat
    by (unfold PAGE_SIZE; lia).
  replace (Z.to_nat (currentPage st * PAGE_SIZE))
    with (Z.to_nat (PAGE_SIZE * currentPage st)) by lia.
  rewrite <- take_take_drop, imap_app. f_equal.
  set (n := Z.to_nat (PAGE_SIZE * currentPage st)).
  destruct (Nat.le_gt_cases (length (x :: l)) n) as [Hge|Hlt].
  - rewrite (drop_ge _ n) by done. by rewrite take_nil.
  - apply imap_ext. intros i y _. cbn. rewrite length_take. do 2 f_equal.
    subst n. unfold PAGE_SIZE in *. lia.
Qed.

Lemma renderGalleryPage_GridInv `{Collator} catalog (st : State) :
  0 <= currentPage st →
  (filteredList st ≠ [] →
   map nodeKey (galleryEl st) = expectedKeys (filteredList st) (currentPage st)) →
  (∃ category searchValue sortBy,
     filteredList st = filterSort catalog category searchValue sortBy) →
  GridInv catalog (renderGalleryPage st).
Proof.
  intros Hp Hpre Hfrom. unfold GridInv.
  pose proof (renderGalleryPage_keys st Hp Hpre) as Hk.
  destruct (renderGalleryPage_fields st) as (_ & -> & -> & ->).
  split; [lia|]. split; [exact Hk|]. split; [|exact Hfrom].
  replace (currentPage st * PAGE_SIZE + PAGE_SIZE)
    with (PAGE_SIZE * (currentPage st + 1)) by lia. done.
Qed.

Lemma expectedKeys_0 (l : list ImageRecord) : l ≠ [] → expectedKeys l 0 = [].
Proof. by destruct l. Qed.

Lemma resetAndRender_GridInv `{Collator} catalog (st : State) :
  GridInv catalog (resetAndRender catalog st).
Proof.
  unfold resetAndRender. cbn zeta. apply renderGalleryPage_GridInv.
  - done.
  - intros Hne. by rewrite expectedKeys_0.
  - cbn. eauto.
Qed.

Lemma GridInv_view `{Collator} catalog (st st' : State) :
  gridView st' = gridView st → GridInv catalog st → GridInv catalog st'.
Proof.
  unfold gridView, GridInv. intros [= -> -> -> ->]. done.
Qed.

Lemma map_nodeKey_alter (icon : Icon) (k : nat) (l : list GalleryNode) :
  map nodeKey (alter (setFavBtn icon) k l) = map nodeKey l.
Proof.
  revert k. induction l as [|x l IH]; intros k; [done|].
  destruct k as [|k]; cbn.
  - f_equal. by destruct x.
  - f_equal. apply IH.
Qed.

Lemma toggleFavorite_gridView catalog imgId btnNode (st : State) :
  gridView (toggleFavorite catalog imgId btnNode st) = gridView st.
Proof.
  unfold toggleFavorite. cbn zeta.
  rewrite renderFavoritesSidebar_gridView, updateLightboxFavoriteIcon_gridView,
    persistFavorites_gridView.
  unfold gridView. split_cases; cbn; rewrite ?map_nodeKey_alter; reflexivity.
Qed.

Lemma toggleFavoriteCurrent_gridView catalog (st : State) :
  gridView (toggleFavoriteCurrent catalog st) = gridView st.
Proof.
  unfold toggleFavoriteCurrent. destruct arrayGet; [|done].
  by rewrite updateLightboxFavoriteIcon_gridView, toggleFavorite_gridView.
Qed.

Lemma handle_GridInv `{Collator} catalog (e : Event) (st : State) :
  GridInv catalog st → GridInv catalog (handle catalog e st).
Proof.
  intros Hinv.
  assert (Hrender : GridInv catalog (renderGalleryPage st)).
  { destruct Hinv as (Hp & Hk & _ & Hfrom).
    apply renderGalleryPage_GridInv; [lia | done | done]. }
  destruct e as [df|v|v| | | | | | | |key b|k|k|k|k key|k|k| |h]; cbn [handle].
  - apply resetAndRender_GridInv.
  - eapply GridInv_view; [|exact Hinv]. by rewrite onSearchInput_gridView.
  - apply resetAndRender_GridInv.
  - exact Hrender.
  - eapply GridInv_view; [apply closeLightbox_gridView | exact Hinv].
  - eapply GridInv_view; [apply showPrev_gridView | exact Hinv].
  - eapply GridInv_view; [apply showNext_gridView | exact Hinv].
  - eapply GridInv_view; [apply closeLightbox_gridView | exact Hinv].
  - eapply GridInv_view; [apply toggleFavoriteCurrent_gridView | exact Hinv].
  - eapply GridInv_view; [apply toggleSlideshow_gridView | exact Hinv].
  - eapply GridInv_view; [apply onKeyDown_gridView | exact Hinv].
  - destruct (galleryEl st !! k) as [[]|]; try done.
    eapply GridInv_view; [apply openLightboxByIndex_gridView | exact Hinv].
  - destruct (galleryEl st !! k) as [[]|]; try done.
    eapply GridInv_view; [apply openLightboxByIndex_gridView | exact Hinv].
  - destruct (galleryEl st !! k) as [[]|]; try done.
    eapply GridInv_view; [apply toggleFavorite_gridView | exact Hinv].
  - destruct (galleryEl st !! k) as [[]|]; try done.
    eapply GridInv_view; [|exact Hinv].
    by rewrite onKeyDown_gridView, onItemKeyDown_gridView.
  - destruct (favoritesList st !! k) as [[]|]; try done.
    eapply GridInv_view; [apply onSidebarImage_gridView | exact Hinv].
  - destruct (favoritesList st !! k) as [[]|]; try done.
    unfold onSidebarRemove. cbn zeta. apply resetAndRender_GridInv.
  - destruct (negb _); [exact Hrender | exact Hinv].
  - unfold onTimer. destruct (timers st !! h) as [[|]|]; [| |exact Hinv].
    + eapply GridInv_view; [apply showNext_gridView | exact Hinv].
    + apply resetAndRender_GridInv.
Qed.

Lemma reachable_GridInv `{Collator} catalog (st : State) :
  reachable catalog st → GridInv catalog st.
Proof.
  induction 1 as [storage searchValue sortValue st Hload | e st Hr IH Hd].
  - apply loadScript_Some in Hload as (favs & _ & ->).
    eapply GridInv_view; [apply renderFavoritesSidebar_gridView|].
    unfold init. cbn zeta. apply renderGalleryPage_GridInv.
    + done.
    + intros Hne. by rewrite expectedKeys_0.
    + cbn. eauto.
  - by apply handle_GridInv.
Qed.

Lemma lookup_map {A B} (f : A → B) (l : list A) (k : nat) :
  map f l !! k = f <$> l !! k.
Proof.
  revert k. induction l as [|x l IH]; intros [|k]; try done. cbn. apply IH.
Qed.

(** What the invariant says of one gallery node. *)
Lemma GridInv_item `{Collator} catalog (st : State) (k : nat)
    (img : ImageRecord) (i : Z) (icon : Icon) :
  GridInv catalog st →
  galleryEl st !! k = Some (GalleryItem img i icon) →
  i = Z.of_nat k ∧ filteredList st !! k = Some img.
Proof.
  intros (_ & Hk & _) Hl.
  assert (Hm : map nodeKey (galleryEl st) !! k = Some (Some (img, i))).
  { by rewrite lookup_map, Hl. }
  rewrite Hk in Hm. unfold expectedKeys in Hm.
  destruct (filteredList st) as [|x l] eqn:Hfl.
  - destruct k as [|[|k]]; cbn in Hm; discriminate.
  - rewrite list_lookup_imap in Hm.
    destruct (take _ (x :: l) !! k) as [y|] eqn:Ht; [|discriminate].
    cbn in Hm. injection Hm as -> <-.
    apply lookup_take_Some in Ht as [Ht _]. done.
Qed.

Lemma GridInv_count `{Collator} catalog (st : State) :
  GridInv catalog st →
  renderedCount st = Z.min (Z.of_nat (length (filteredList st)))
                           (PAGE_SIZE * currentPage st) ∧
  (filteredList st = [] → galleryEl st = [NoImagesFound]).
Proof.
  intros (Hp & Hk & _).
  assert (Hcount : ∀ l, length (List.filter isItem l)
                        = length (omap (λ o, o) (map nodeKey l))).
  { induction l as [|x l IH]; [done|]. destruct x; cbn; by rewrite IH. }
  unfold renderedCount. rewrite Hcount, Hk. unfold expectedKeys.
  destruct (filteredList st) as [|x l] eqn:Hfl.
  - split; [cbn; unfold PAGE_SIZE; lia|]. intros _.
    destruct (galleryEl st) as [|[] [|]]; cbn in Hk; try discriminate. done.
  - split; [|done].
    assert (Hall : ∀ (l' : list ImageRecord) (f : nat → ImageRecord → (ImageRecord * Z)),
               omap (λ o, o) (imap (λ i img, Some (f i img)) l') = imap f l').
    { induction l' as [|y l' IH]; intros f; [done|]. cbn. f_equal. apply IH. }
    rewrite (Hall _ (λ i img, (img, Z.of_nat i))), length_imap, length_take.
    unfold PAGE_SIZE. lia.
Qed.

(** X12.  The gallery is always in step with the filtered list.  In
    every state the page can reach, at least one page has been
    rendered; when the filtered list is empty the gallery holds the
    placeholder alone; otherwise it holds one item for each of the
    first min(length, 8 * page) entries of the filtered list, in order,
    the item at position k showing entry k and opening index k; so it
    never holds more items than the list has entries, and the "load
    more" button is displayed exactly while some entry is not
    rendered. *)
Theorem gallery_in_step `{Collator} (catalog : list ImageRecord) (st : State) :
  reachable catalog st →
  let len := Z.of_nat (length (filteredList st)) in
  1 <= currentPage st ∧
  renderedCount st = Z.min len (PAGE_SIZE * currentPage st) ∧
  renderedCount st <= len ∧
  (filteredList st = [] → galleryEl st = [NoImagesFound]) ∧
  (∀ k img i icon, galleryEl st !! k = Some (GalleryItem img i icon) →
                   i = Z.of_nat k ∧ filteredList st !! k = Some img) ∧
  (∀ k img, filteredList st !! k = Some img →
            Z.of_nat k < PAGE_SIZE * currentPage st →
            ∃ icon, galleryEl st !! k = Some (GalleryItem img (Z.of_nat k) icon)) ∧
  (loadMoreBtn_display st = "flex" ↔ renderedCount st < len) ∧
  (loadMoreBtn_display st = "none" ↔ renderedCount st = len).
Proof.
  intros Hr len. pose proof (reachable_GridInv catalog st Hr) as Hinv.
  destruct (GridInv_count catalog st Hinv) as [Hc He].
  pose proof Hinv as (Hp & Hk & Hb & _). fold len in Hc, Hb.
  split; [done|]. split; [done|]. split; [lia|]. split; [done|].
  split; [intros k img i icon; by apply (GridInv_item catalog)|].
  split.
  { intros k img Hl Hlt.
    assert (Hm : map nodeKey (galleryEl st) !! k = Some (Some (img, Z.of_nat k))).
    { rewrite Hk. unfold expectedKeys.
      destruct (filteredList st) as [|x l] eqn:Hfl; [by rewrite lookup_nil in Hl|].
      rewrite list_lookup_imap, lookup_take_lt by (unfold PAGE_SIZE in *; lia).
      by rewrite Hl. }
    rewrite lookup_map in Hm.
    destruct (galleryEl st !! k) as [[img' i' icon|]|]; cbn in Hm; try discriminate.
    injection Hm as -> ->. by exists icon. }
  rewrite Hb, Hc. unfold PAGE_SIZE.
  destruct (Z.ltb_spec (8 * currentPage st) len); split; split;
    try discriminate; try lia; done.
Qed.

Lemma gallery_in_step_witness :
  reachable (H := codeUnitCollator) IMAGES staleSelection ∧
  renderedCount staleSelection = 5 ∧ loadMoreBtn_display staleSelection = "none".
Proof.
  assert (Hr : reachable (H := codeUnitCollator) IMAGES staleSelection).
  { unfold staleSelection. cbn [run].
    repeat (apply reachable_event; [|vm_compute; reflexivity]).
    eapply reachable_load. exact loadedPage_loads. }
  pose proof (gallery_in_step (H := codeUnitCollator) IMAGES staleSelection Hr) as Hw.
  cbn zeta in Hw. destruct Hw as (_ & Hc & _ & _ & _ & _ & _ & Hnone).
  split; [exact Hr|].
  assert (H5 : renderedCount staleSelection = 5) by (rewrite Hc; vm_compute; reflexivity).
  split; [exact H5|]. apply Hnone. rewrite H5. vm_compute. reflexivity.
Defined.

(** [openLightboxByIndex] at the position of an entry. *)
Lemma openLightboxByIndex_opens (k : nat) (img : ImageRecord) (st : State) :
  filteredList st !! k = Some img →
  let st' := openLightboxByIndex (Z.of_nat k) st in
  lightbox_active st' = true ∧ currentIndex st' = Z.of_nat k ∧
  lightboxShows st' img (Z.of_nat k + 1) ∧
  filteredList st' = filteredList st ∧ favorites st' = favorites st ∧
  galleryEl st' = galleryEl st ∧ timers st' = timers st ∧
  nextTimer st' = nextTimer st ∧
  slideshowInterval st' = slideshowInterval st.
Proof.
  intros Hl st'. subst st'. unfold openLightboxByIndex.
  pose proof (lookup_lt_Some _ _ _ Hl) as Hlen.
  destruct (Z.ltb_spec (Z.of_nat k) 0); [lia|].
  destruct (Z.geb_spec (Z.of_nat k) (Z.of_nat (length (filteredList st)))); [lia|].
  cbn [orb].
  assert (Hg : arrayGet (filteredList (set_currentIndex (Z.of_nat k) st))
                        (currentIndex (set_currentIndex (Z.of_nat k) st)) = Some img).
  { apply arrayGet_Some. split; [cbn; lia|]. cbn. by rewrite Nat2Z.id. }
  pose proof (updateLightbox_shows (set_currentIndex (Z.of_nat k) st) img Hg) as Hs.
  pose proof (updateLightbox_frame (set_currentIndex (Z.of_nat k) st))
    as (F1 & F2 & F3 & _ & _ & _ & _ & F8).
  pose proof (keeps_updateLightbox (set_currentIndex (Z.of_nat k) st))
    as (K1 & K2 & K3 & _).
  unfold openLightbox.
  split; [done|]. split; [exact F8|]. split; [exact Hs|].
  split; [exact F1|]. split; [exact F2|]. split; [exact F3|].
  split; [exact K1|]. split; [exact K2|]. exact K3.
Qed.

Lemma onKeyDown_Enter (targetIsInput : bool) (st : State) :
  onKeyDown "Enter" targetIsInput st = st.
Proof. unfold onKeyDown. by destruct (lightbox_active st). Qed.

(** X13.  Opening a gallery item opens the lightbox on that item's own
    image.  In every state the page can reach, a click on the item at
    position k of the gallery, a click on its "open" button, or Enter
    pressed on it, opens the lightbox with the index k selected, and
    what is displayed (image, title, description, heart, and the
    counter "k+1 / length") is the image that the item shows; the
    gallery, the favorites and the slideshow are left as they were. *)
Theorem item_opens_its_own_image `{Collator} (catalog : list ImageRecord)
    (st : State) (k : nat) (img : ImageRecord) (i : Z) (icon : Icon) (e : Event) :
  reachable catalog st →
  galleryEl st !! k = Some (GalleryItem img i icon) →
  e = ClickItem k ∨ e = ClickItemOpen k ∨ e = KeyDownItem k "Enter" →
  let st' := handle catalog e st in
  lightbox_active st' = true ∧
  currentIndex st' = Z.of_nat k ∧
  filteredList st' !! k = Some img ∧
  lightboxShows st' img (Z.of_nat k + 1) ∧
  galleryEl st' = galleryEl st ∧
  favorites st' = favorites st ∧
  slideshowInterval st' = slideshowInterval st.
Proof.
  intros Hr Hl He st'.
  destruct (GridInv_item catalog st k img i icon (reachable_GridInv catalog st Hr) Hl)
    as [-> Hfl].
  pose proof (openLightboxByIndex_opens k img st Hfl) as Ho. cbn zeta in Ho.
  assert (Hst : st' = openLightboxByIndex (Z.of_nat k) st).
  { subst st'. destruct He as [-> | [-> | ->]]; cbn [handle]; rewrite Hl; try done.
    by rewrite onKeyDown_Enter. }
  rewrite Hst. destruct Ho as (O1 & O2 & O3 & O4 & O5 & O6 & _ & _ & O9).
  split; [done|]. split; [done|]. split; [by rewrite O4|]. done.
Qed.

Lemma item_opens_its_own_image_witness :
  galleryEl loadedPage !! 0%nat
    = Some (GalleryItem
       (mkImage "20" "Glass Tower" "Reflections on glass facade." "architecture"
          "image/photo20.avif" "2025-08-03" 125) 0 IconHeartRegular) ∧
  currentIndex (handle (H := codeUnitCollator) IMAGES (ClickItem 0) loadedPage) = 0 ∧
  lightboxTitle_text (handle (H := codeUnitCollator) IMAGES (ClickItem 0) loadedPage)
    = "Glass Tower".
Proof.
  assert (Hr : reachable (H := codeUnitCollator) IMAGES loadedPage).
  { eapply reachable_load. exact loadedPage_loads. }
  assert (Hl : galleryEl loadedPage !! 0%nat
               = Some (GalleryItem
       (mkImage "20" "Glass Tower" "Reflections on glass facade." "architecture"
          "image/photo20.avif" "2025-08-03" 125) 0 IconHeartRegular))
    by (vm_compute; reflexivity).
  pose proof (item_opens_its_own_image (H := codeUnitCollator) IMAGES loadedPage 0
                _ _ _ (ClickItem 0) Hr Hl (or_introl eq_refl)) as Hw.
  cbn zeta in Hw. destruct Hw as (_ & Hi & _ & Hs & _).
  split; [exact Hl|]. split; [exact Hi|].
  destruct Hs as (_ & _ & Ht & _). exact Ht.
Defined.

(** X14.  Space on a gallery item both opens the lightbox and starts
    the slideshow.  The item's own listener opens the lightbox on the
    item; the key event then reaches the document's listener, which by
    then finds the lightbox open and toggles the slideshow.  So from a
    reachable state in which no slideshow is running, Space on the item
    at position k leaves the lightbox open on k with a fresh slideshow
    timer pending, whereas Enter opens it without starting one. *)
Theorem space_on_item_starts_slideshow `{Collator} (catalog : list ImageRecord)
    (st : State) (k : nat) (img : ImageRecord) (i : Z) (icon : Icon) :
  reachable catalog st →
  slideshowInterval st = None →
  galleryEl st !! k = Some (GalleryItem img i icon) →
  let space := handle catalog (KeyDownItem k " ") st in
  let enter := handle catalog (KeyDownItem k "Enter") st in
  lightbox_active space = true ∧
  currentIndex space = Z.of_nat k ∧
  lightboxShows space img (Z.of_nat k + 1) ∧
  slideshowInterval space = Some (nextTimer st) ∧
  timers space = <[nextTimer st := SlideshowTick]> (timers st) ∧
  slideshowBtn_active space = true ∧
  slideshowBtn_icon space = IconPause ∧
  lightbox_active enter = true ∧
  slideshowInterval enter = None ∧
  timers enter = timers st.
Proof.
  intros Hr Hnone Hl space enter.
  destruct (GridInv_item catalog st k img i icon (reachable_GridInv catalog st Hr) Hl)
    as [-> Hfl].
  pose proof (openLightboxByIndex_opens k img st Hfl) as Ho. cbn zeta in Ho.
  destruct Ho as (O1 & O2 & O3 & O4 & O5 & O6 & O7 & O8 & O9).
  assert (Hsp : space = startSlideshow (openLightboxByIndex (Z.of_nat k) st)).
  { subst space. cbn [handle]. rewrite Hl. unfold onItemKeyDown, onKeyDown.
    cbn [String.eqb Ascii.eqb Bool.eqb orb andb negb]. rewrite O1.
    cbn [String.eqb Ascii.eqb Bool.eqb orb andb negb].
    unfold toggleSlideshow. by rewrite O9, Hnone. }
  assert (Hen : enter = openLightboxByIndex (Z.of_nat k) st).
  { subst enter. cbn [handle]. rewrite Hl, onKeyDown_Enter. done. }
  rewrite Hsp, Hen. unfold startSlideshow.
  cbn [lightbox_active currentIndex slideshowInterval timers nextTimer
       slideshowBtn_active slideshowBtn_icon
       set_slideshowBtn_active set_slideshowBtn_icon set_timers set_nextTimer
       set_slideshowInterval].
  split; [done|]. split; [done|].
  split. { unfold lightboxShows in *. cbn. exact O3. }
  split; [by rewrite O8|]. split; [by rewrite O7, O8|].
  split; [done|]. split; [done|]. split; [done|].
  split; [by rewrite O9|]. done.
Qed.

Lemma space_on_item_starts_slideshow_witness :
  slideshowInterval loadedPage = None ∧
  slideshowInterval
    (handle (H := codeUnitCollator) IMAGES (KeyDownItem 0 " ") loadedPage)
  = Some (nextTimer loadedPage).
Proof.
  assert (Hr : reachable (H := codeUnitCollator) IMAGES loadedPage).
  { eapply reachable_load. exact loadedPage_loads. }
  assert (Hc : slideshowInterval loadedPage = None) by (vm_compute; reflexivity).
  assert (Hl : galleryEl loadedPage !! 0%nat
               = Some (GalleryItem
       (mkImage "20" "Glass Tower" "Reflections on glass facade." "architecture"
          "image/photo20.avif" "2025-08-03" 125) 0 IconHeartRegular))
    by (vm_compute; reflexivity).
  pose proof (space_on_item_starts_slideshow (H := codeUnitCollator) IMAGES loadedPage 0
                _ _ _ Hr Hc Hl) as Hw.
  cbn zeta in Hw. split; [exact Hc|]. apply Hw.
Defined.

(** ** The hearts of the gallery *)

Lemma updateLightboxFavoriteIcon_heartView (st : State) :
  heartView (updateLightboxFavoriteIcon st) = heartView st.
Proof. unfold updateLightboxFavoriteIcon. by destruct arrayGet. Qed.

Lemma updateLightbox_heartView (st : State) :
  heartView (updateLightbox st) = heartView st.
Proof.
  unfold heartView. by destruct (updateLightbox_frame st) as (_ & -> & -> & _).
Qed.

Lemma openLightboxByIndex_heartView (i : Z) (st : State) :
  heartView (openLightboxByIndex i st) = heartView st.
Proof.
  unfold openLightboxByIndex, openLightbox. destruct (_ || _); [done|].
  peel_setter. by rewrite updateLightbox_heartView.
Qed.

Lemma showNext_heartView (st : State) : heartView (showNext st) = heartView st.
Proof.
  unfold showNext. destruct (_ =? _); [done|]. by rewrite updateLightbox_heartView.
Qed.

Lemma showPrev_heartView (st : State) : heartView (showPrev st) = heartView st.
Proof.
  unfold showPrev. destruct (_ =? _); [done|]. by rewrite updateLightbox_heartView.
Qed.

Lemma stopSlideshow_heartView (st : State) : heartView (stopSlideshow st) = heartView st.
Proof. unfold stopSlideshow. by destruct (negb _). Qed.

Lemma toggleSlideshow_heartView (st : State) :
  heartView (toggleSlideshow st) = heartView st.
Proof.
  unfold toggleSlideshow. destruct (truthyHandle _); [apply stopSlideshow_heartView | done].
Qed.

Lemma closeLightbox_heartView (st : State) : heartView (closeLightbox st) = heartView st.
Proof. unfold closeLightbox. cbn zeta. by rewrite stopSlideshow_heartView. Qed.

Lemma onSidebarImage_heartView imgData (st : State) :
  heartView (onSidebarImage imgData st) = heartView st.
Proof. unfold onSidebarImage. cbn zeta. apply openLightboxByIndex_heartView. Qed.

Lemma onItemKeyDown_heartView i key (st : State) :
  heartView (onItemKeyDown i key st) = heartView st.
Proof.
  unfold onItemKeyDown. destruct (_ || _); [apply openLightboxByIndex_heartView | done].
Qed.

Lemma onKeyDown_heartView key targetIsInput (st : State) :
  heartView (onKeyDown key targetIsInput st) = heartView st.
Proof.
  unfold onKeyDown. destruct (lightbox_active st); [|done]. cbn zeta.
  destruct (_ && _); rewrite ?toggleSlideshow_heartView;
    (destruct (String.eqb key "Escape"); rewrite ?closeLightbox_heartView);
    (destruct (String.eqb key "ArrowLeft"); rewrite ?showPrev_heartView);
    (destruct (String.eqb key "ArrowRight"); rewrite ?showNext_heartView); reflexivity.
Qed.

Lemma forallb_lookup {A} (P : A → bool) (l : list A) :
  forallb P l = true ↔ ∀ j y, l !! j = Some y → P y = true.
Proof.
  rewrite forallb_forall. split.
  - intros Hall j y Hl. apply Hall, list_elem_of_In, list_elem_of_lookup. eauto.
  - intros Hall y Hy. apply list_elem_of_In, list_elem_of_lookup in Hy as [j Hj]. eauto.
Qed.

(** The hearts agree for an id when every item of that image shows
    the heart that the set prescribes. *)
Lemma gridAgrees_lookup (st : State) (x : string) :
  gridAgrees st x = true ↔
  ∀ j img i icon, galleryEl st !! j = Some (GalleryItem img i icon) → id img = x →
                  icon = heartIcon (setHas (favorites st) x).
Proof.
  unfold gridAgrees. rewrite forallb_lookup. split.
  - intros Hall j img i icon Hl Hid. specialize (Hall j _ Hl). cbn in Hall.
    rewrite Hid, String.eqb_refl in Hall. by apply bool_decide_eq_true in Hall.
  - intros Hall j [img i icon|] Hl; [|done].
    destruct (String.eqb_spec (id img) x) as [Hid|]; [|done].
    apply bool_decide_eq_true. eauto.
Qed.

Lemma gridAgrees_view (st st' : State) (x : string) :
  heartView st' = heartView st → gridAgrees st' x = gridAgrees st x.
Proof. unfold heartView, gridAgrees. by intros [= -> ->]. Qed.

Lemma pageNodes_hearts (st : State) (j : nat) img i icon :
  pageNodes st !! j = Some (GalleryItem img i icon) →
  icon = heartIcon (setHas (favorites st) (id img)).
Proof.
  unfold pageNodes. cbn zeta. rewrite list_lookup_imap.
  destruct (pageItems st !! j) as [y|]; [|discriminate].
  cbn. unfold createGalleryItem. by intros [= <- _ <-].
Qed.

(** A page appended by [renderGalleryPage] has the hearts that the set
    prescribes, so agreement is kept. *)
Lemma renderGalleryPage_hearts (st : State) (x : string) :
  gridAgrees st x = true → gridAgrees (renderGalleryPage st) x = true.
Proof.
  rewrite !gridAgrees_lookup. intros Hag j img i icon Hl Hid.
  assert (Hf : favorites (renderGalleryPage st) = favorites st).
  { pose proof (renderGalleryPage_favView st) as Hv. unfold favView in Hv.
    by injection Hv. }
  rewrite Hf. destruct (renderGalleryPage_fields st) as (Hg & _). rewrite Hg in Hl.
  destruct (_ =? _).
  - by destruct j as [|[|j]].
  - apply lookup_app_Some in Hl as [Hl | [_ Hl]]; [by eapply Hag|].
    apply pageNodes_hearts in Hl. by rewrite Hid in Hl.
Qed.

(** After [resetAndRender] every heart of the gallery is the one that
    the set prescribes. *)
Lemma resetAndRender_hearts `{Collator} catalog (st : State) (x : string) :
  gridAgrees (resetAndRender catalog st) x = true.
Proof.
  unfold resetAndRender. cbn zeta. apply renderGalleryPage_hearts.
  apply gridAgrees_lookup. intros j img i icon Hl. cbn in Hl. by destruct j.
Qed.

Lemma toggleFavorite_galleryEl catalog imgId (k : nat) (st : State) :
  galleryEl (toggleFavorite catalog imgId (Some k) st) =
  alter (setFavBtn (heartIcon (negb (setHas (favorites st) imgId)))) k (galleryEl st).
Proof.
  unfold toggleFavorite. cbn zeta.
  rewrite renderFavoritesSidebar_galleryEl, updateLightboxFavoriteIcon_galleryEl.
  unfold persistFavorites. cbn [galleryEl set_localStorage].
  by destruct (setHas (favorites st) imgId).
Qed.

Lemma filter_ids_NoDup (p : ImageRecord → bool) (l : list ImageRecord) :
  NoDup (map id l) → NoDup (map id (List.filter p l)).
Proof.
  induction l as [|r l IH]; [done|]. cbn [map List.filter].
  rewrite NoDup_cons. intros [Hr Hl]. destruct (p r); [|by apply IH].
  cbn [map]. apply NoDup_cons. split; [|by apply IH].
  intros Hin. apply Hr. apply list_elem_of_In, in_map_iff in Hin as (y & Hy & Hin).
  apply list_elem_of_In, in_map_iff. exists y. split; [done|].
  by apply filter_In in Hin as [? _].
Qed.

Lemma filterSort_ids_NoDup `{Collator} catalog category searchValue sortBy :
  NoDup (map id catalog) → NoDup (map id (filterSort catalog category searchValue sortBy)).
Proof.
  intros Hnd. unfold filterSort. cbn zeta.
  rewrite (Permutation_map id (arraySort_perm _ _)). by apply filter_ids_NoDup.
Qed.

Lemma filterSort_In `{Collator} catalog category searchValue sortBy (r : ImageRecord) :
  In r (filterSort catalog category searchValue sortBy) → In r catalog.
Proof.
  unfold filterSort. cbn zeta. rewrite arraySort_In, filter_In. by intros [? _].
Qed.

(** Under the invariant of the gallery and with ids that identify the
    records, two items of the same image are the same item. *)
Lemma GridInv_item_unique `{Collator} catalog (st : State) (j k : nat)
    img i icon img' i' icon' :
  GridInv catalog st → NoDup (map id catalog) →
  galleryEl st !! j = Some (GalleryItem img i icon) →
  galleryEl st !! k = Some (GalleryItem img' i' icon') →
  id img = id img' → j = k.
Proof.
  intros Hinv Hnd Hj Hk Hid.
  destruct (GridInv_item catalog st j img i icon Hinv Hj) as [_ Hfj].
  destruct (GridInv_item catalog st k img' i' icon' Hinv Hk) as [_ Hfk].
  destruct Hinv as (_ & _ & _ & c & s & b & Hfl).
  pose proof (filterSort_ids_NoDup catalog c s b Hnd) as Hnd'. rewrite <- Hfl in Hnd'.
  apply (NoDup_lookup _ j k (id img) Hnd'); rewrite lookup_map.
  - by rewrite Hfj.
  - by rewrite Hfk, Hid.
Qed.

(** The heart button of a gallery item: the item's own heart is set
    as the set prescribes, and no other item shows the same image. *)
Lemma toggleFavorite_grid_hearts `{Collator} catalog (st : State) (k : nat)
    img i icon (x : string) :
  GridInv catalog st → NoDup (map id catalog) →
  galleryEl st !! k = Some (GalleryItem img i icon) →
  x = id img ∨ gridAgrees st x = true →
  gridAgrees (toggleFavorite catalog (id img) (Some k) st) x = true.
Proof.
  intros Hinv Hnd Hl Hx. apply gridAgrees_lookup. intros j img' i' icon' Hl' Hid.
  rewrite toggleFavorite_galleryEl in Hl'.
  rewrite toggleFavorite_favorites, setHas_toggled.
  destruct (decide (k = j)) as [<-|Hjk].
  - rewrite list_lookup_alter in Hl'. destruct (decide (k = k)); [|done].
    rewrite Hl in Hl'. cbn in Hl'. injection Hl' as <- <- <-.
    by rewrite Hid, String.eqb_refl.
  - rewrite list_lookup_alter_ne in Hl' by done.
    destruct (String.eqb_spec (id img) x) as [He|Hne].
    + exfalso. apply Hjk. symmetry.
      eapply (GridInv_item_unique catalog st j k); eauto. congruence.
    + destruct Hx as [->|Hag]; [done|].
      rewrite gridAgrees_lookup in Hag. eauto.
Qed.

Lemma item_known `{Collator} catalog (st : State) (k : nat) img i icon :
  GridInv catalog st → galleryEl st !! k = Some (GalleryItem img i icon) →
  In img catalog.
Proof.
  intros Hinv Hl. destruct (GridInv_item catalog st k img i icon Hinv Hl) as [_ Hf].
  destruct Hinv as (_ & _ & _ & c & s & b & Hfl). rewrite Hfl in Hf.
  eapply filterSort_In, list_elem_of_In, list_elem_of_lookup_2, Hf.
Qed.

(** X15.  The heart button of a gallery item keeps all three views in
    agreement.  In a state the page can reach, with a catalog whose ids
    are distinct and a lightbox that is in step with the selection
    (whatever image it displays is the selected entry of the filtered
    list), a click on the heart of the gallery item at position k flips
    the membership of that item's image in the set of favorites and of
    no other id; the item then shows the heart that the set prescribes,
    and for that image the gallery, the lightbox (if the image it
    displays is that image) and the sidebar all agree with the set. *)
Theorem gallery_heart_click_agrees `{Collator} (catalog : list ImageRecord)
    (st : State) (k : nat) (img : ImageRecord) (i : Z) (icon : Icon) :
  reachable catalog st →
  NoDup (map id catalog) →
  lightboxInStep catalog st →
  galleryEl st !! k = Some (GalleryItem img i icon) →
  let st' := handle catalog (ClickItemFavorite k) st in
  setHas (favorites st') (id img) = negb (setHas (favorites st) (id img)) ∧
  (∀ x, x ≠ id img → setHas (favorites st') x = setHas (favorites st) x) ∧
  galleryEl st' !! k
    = Some (GalleryItem img i (heartIcon (setHas (favorites st') (id img)))) ∧
  gridAgrees st' (id img) = true ∧
  lightboxAgreesOn catalog st' (id img) = true ∧
  sidebarAgrees st' (id img) = true ∧
  lightboxImage_src st' = lightboxImage_src st.
Proof.
  intros Hr Hnd Hstep Hl st'. pose proof (reachable_GridInv catalog st Hr) as Hinv.
  assert (Hst : st' = toggleFavorite catalog (id img) (Some k) st).
  { subst st'. cbn [handle]. by rewrite Hl. }
  rewrite Hst.
  assert (Hmem : setHas (favorites (toggleFavorite catalog (id img) (Some k) st)) (id img)
                 = negb (setHas (favorites st) (id img))).
  { by rewrite toggleFavorite_favorites, setHas_toggled, String.eqb_refl. }
  pose proof (toggleFavorite_grid_hearts catalog st k img i icon (id img) Hinv Hnd Hl
                (or_introl eq_refl)) as Hg.
  pose proof (toggleFavorite_lightbox_agrees catalog (id img) (Some k) st (id img) Hstep)
    as Hlb.
  assert (Hsb : sidebarAgrees (toggleFavorite catalog (id img) (Some k) st) (id img) = true).
  { apply toggleFavorite_sidebar_agrees. exists img.
    split; [by eapply item_known | done]. }
  split; [exact Hmem|]. split.
  { intros x Hx. rewrite toggleFavorite_favorites, setHas_toggled.
    destruct (String.eqb_spec (id img) x); [congruence | done]. }
  split.
  { rewrite toggleFavorite_galleryEl, list_lookup_alter.
    destruct (decide (k = k)); [|done]. rewrite Hl, Hmem. done. }
  split; [exact Hg|]. split; [exact Hlb|]. split; [exact Hsb|].
  apply toggleFavorite_lightboxImage_src.
Qed.

Lemma IMAGES_ids_distinct : NoDup (map id IMAGES).
Proof. apply (bool_decide_unpack _). vm_compute. exact I. Qed.

Lemma lightboxOnFirst_reachable : reachable (H := codeUnitCollator) IMAGES lightboxOnFirst.
Proof.
  apply reachable_event; [|vm_compute; reflexivity].
  eapply reachable_load. exact loadedPage_loads.
Qed.

(** With the lightbox open on the first item, it displays that item
    and no other record of the catalog. *)
Lemma lightboxOnFirst_inStep : lightboxInStep IMAGES lightboxOnFirst.
Proof.
  intros r Hin Hd. unfold lightboxDisplays in Hd. apply String.eqb_eq in Hd.
  assert (Hsrc : lightboxImage_src lightboxOnFirst = "image/photo20.avif")
    by (vm_compute; reflexivity).
  rewrite Hsrc in Hd.
  assert (Hsel : arrayGet (filteredList lightboxOnFirst) (currentIndex lightboxOnFirst)
                 = Some (mkImage "20" "Glass Tower" "Reflections on glass facade."
                           "architecture" "image/photo20.avif" "2025-08-03" 125))
    by (vm_compute; reflexivity).
  rewrite Hsel. unfold IMAGES in Hin. cbn [In] in Hin.
  repeat (destruct Hin as [<- | Hin]; [try discriminate Hd; try reflexivity|]).
  contradiction.
Qed.

Lemma gallery_heart_click_agrees_witness :
  lightbox_active lightboxOnFirst = true ∧
  favorites (handle (H := codeUnitCollator) IMAGES (ClickItemFavorite 0) lightboxOnFirst)
    = ["20"] ∧
  favoriteBtn_icon
    (handle (H := codeUnitCollator) IMAGES (ClickItemFavorite 0) lightboxOnFirst)
    = IconHeartSolid ∧
  lightboxAgreesOn IMAGES
    (handle (H := codeUnitCollator) IMAGES (ClickItemFavorite 0) lightboxOnFirst) "20"
    = true.
Proof.
  assert (Hl : galleryEl lightboxOnFirst !! 0%nat
               = Some (GalleryItem
       (mkImage "20" "Glass Tower" "Reflections on glass facade." "architecture"
          "image/photo20.avif" "2025-08-03" 125) 0 IconHeartRegular))
    by (vm_compute; reflexivity).
  pose proof (gallery_heart_click_agrees (H := codeUnitCollator) IMAGES lightboxOnFirst 0
                _ _ _ lightboxOnFirst_reachable IMAGES_ids_distinct
                lightboxOnFirst_inStep Hl) as Hw.
  cbn zeta in Hw. destruct Hw as (_ & _ & _ & _ & Hlb & _).
  split; [vm_compute; reflexivity|]. split; [vm_compute; reflexivity|].
  split; [vm_compute; reflexivity | exact Hlb].
Defined.

(** The lightbox out of step: opened on the second item, then the
    gallery sorted anew, so that the image it displays (photo 10) is no
    longer the selected entry.  A click on the heart of that image in
    the gallery then leaves the lightbox with the outline heart while
    the set holds the id: [updateLightboxFavoriteIcon] reads the
    selected entry, not the image displayed. *)
Lemma heart_click_with_lightbox_out_of_step :
  let st := run (H := codeUnitCollator) IMAGES
              [ClickItem 1; ChangeSort "popular"] loadedPage in
  let st' := handle (H := codeUnitCollator) IMAGES (ClickItemFavorite 0) st in
  lightbox_active st = true ∧
  lightboxImage_src st = "image/photo10.avif" ∧
  match arrayGet (filteredList st) (currentIndex st) with
  | Some sel => id sel
  | None => ""
  end = "5" ∧
  match galleryEl st !! 0%nat with
  | Some (GalleryItem img _ _) => id img
  | _ => ""
  end = "10" ∧
  favorites st' = ["10"] ∧
  lightboxImage_src st' = "image/photo10.avif" ∧
  favoriteBtn_icon st' = IconHeartRegular ∧
  lightboxAgrees st' "10" = false.
Proof.
  cbn zeta. split; [vm_compute; reflexivity|]. split; [vm_compute; reflexivity|].
  split; [vm_compute; reflexivity|]. split; [vm_compute; reflexivity|].
  split; [vm_compute; reflexivity|]. split; [vm_compute; reflexivity|].
  split; vm_compute; reflexivity.
Qed.

(** X16.  Rendering the gallery anew sets every heart right.  A click
    on a filter button, a change of the sort order, the search
    debounce timer firing, and the remove button of a sidebar row all
    end in [resetAndRender]: afterwards the page cursor is 1 and, for
    every image id, each gallery item of that image shows the heart
    that the set of favorites prescribes, whatever the gallery showed
    before. *)
Theorem rendering_anew_sets_hearts_right `{Collator} (catalog : list ImageRecord)
    (st : State) (e : Event) :
  rendersAnew st e →
  let st' := handle catalog e st in
  currentPage st' = 1 ∧ ∀ x, gridAgrees st' x = true.
Proof.
  intros He st'. subst st'.
  destruct He as [[df ->] | [[v ->] | [(h & -> & Ht) | (k & r & -> & Hl)]]];
    cbn [handle].
  - split; [apply resetAndRender_filteredList | apply resetAndRender_hearts].
  - split; [apply resetAndRender_filteredList | apply resetAndRender_hearts].
  - unfold onTimer. rewrite Ht.
    split; [apply resetAndRender_filteredList | apply resetAndRender_hearts].
  - rewrite Hl. unfold onSidebarRemove. cbn zeta.
    split; [apply resetAndRender_filteredList | apply resetAndRender_hearts].
Qed.

Lemma rendering_anew_sets_hearts_right_witness :
  gridAgrees favoritedInLightbox "20" = false ∧
  gridAgrees (handle (H := codeUnitCollator) IMAGES (ChangeSort "newest")
                favoritedInLightbox) "20" = true.
Proof.
  split; [vm_compute; reflexivity|].
  apply (rendering_anew_sets_hearts_right (H := codeUnitCollator) IMAGES favoritedInLightbox
           (ChangeSort "newest")).
  right. left. by exists "newest".
Defined.

(** X17.  Only the favorite button of the lightbox can leave a
    gallery heart out of date.  In a state the page can reach, with a
    catalog whose ids are distinct, if the gallery items of an image
    show the heart that the set prescribes, they still do after any
    event other than a click on the lightbox's favorite button. *)
Theorem hearts_stay_right `{Collator} (catalog : list ImageRecord)
    (st : State) (e : Event) (x : string) :
  reachable catalog st →
  NoDup (map id catalog) →
  e ≠ ClickFavoriteBtn →
  gridAgrees st x = true →
  gridAgrees (handle catalog e st) x = true.
Proof.
  intros Hr Hnd Hne Hag. pose proof (reachable_GridInv catalog st Hr) as Hinv.
  destruct e as [df|v|v| | | | | | | |key b|k|k|k|k key|k|k| |h]; cbn [handle].
  - apply resetAndRender_hearts.
  - by rewrite (gridAgrees_view st).
  - apply resetAndRender_hearts.
  - by apply renderGalleryPage_hearts.
  - by rewrite (gridAgrees_view st) by apply closeLightbox_heartView.
  - by rewrite (gridAgrees_view st) by apply showPrev_heartView.
  - by rewrite (gridAgrees_view st) by apply showNext_heartView.
  - by rewrite (gridAgrees_view st) by apply closeLightbox_heartView.
  - done.
  - by rewrite (gridAgrees_view st) by apply toggleSlideshow_heartView.
  - by rewrite (gridAgrees_view st) by apply onKeyDown_heartView.
  - destruct (galleryEl st !! k) as [[img i icon|]|]; [|done..].
    by rewrite (gridAgrees_view st) by apply openLightboxByIndex_heartView.
  - destruct (galleryEl st !! k) as [[img i icon|]|]; [|done..].
    by rewrite (gridAgrees_view st) by apply openLightboxByIndex_heartView.
  - destruct (galleryEl st !! k) as [[img i icon|]|] eqn:Hl; [|done..].
    eapply toggleFavorite_grid_hearts; eauto.
  - destruct (galleryEl st !! k) as [[img i icon|]|]; [|done..].
    rewrite (gridAgrees_view st); [done|].
    by rewrite onKeyDown_heartView, onItemKeyDown_heartView.
  - destruct (favoritesList st !! k) as [[r|]|]; [|done..].
    by rewrite (gridAgrees_view st) by apply onSidebarImage_heartView.
  - destruct (favoritesList st !! k) as [[r|]|]; [|done..].
    unfold onSidebarRemove. cbn zeta. apply resetAndRender_hearts.
  - destruct (negb _); [by apply renderGalleryPage_hearts | done].
  - unfold onTimer. destruct (timers st !! h) as [[]|]; [| |done].
    + by rewrite (gridAgrees_view st) by apply showNext_heartView.
    + apply resetAndRender_hearts.
Qed.

Lemma hearts_stay_right_witness :
  gridAgrees favoritedInGrid "20" = true ∧
  gridAgrees (handle (H := codeUnitCollator) IMAGES ClickLoadMore favoritedInGrid) "20"
    = true.
Proof.
  assert (Hag : gridAgrees favoritedInGrid "20" = true) by (vm_compute; reflexivity).
  split; [exact Hag|].
  apply (hearts_stay_right (H := codeUnitCollator) IMAGES favoritedInGrid ClickLoadMore "20").
  - exact favoritedInGrid_reachable.
  - exact IMAGES_ids_distinct.
  - discriminate.
  - exact Hag.
Defined.

(** A row of the sidebar shows a record of the catalog whose id is in
    the set. *)
Lemma sidebarRows_row catalog (favs : list string) (k : nat) (r : ImageRecord) :
  sidebarRows catalog favs !! k = Some (FavoritesItem r) →
  In r catalog ∧ setHas favs (id r) = true.
Proof.
  intros Hl. destruct (sidebarRows_records catalog favs) as (_ & Hids & Hall).
  assert (Hin : r ∈ omap rowImage (sidebarRows catalog favs)).
  { apply list_elem_of_omap. exists (FavoritesItem r).
    split; [by eapply list_elem_of_lookup_2 | done]. }
  split.
  - rewrite Forall_forall in Hall. by apply Hall.
  - apply setHas_spec.
    assert (Hid : In (id r) (map id (omap rowImage (sidebarRows catalog favs)))).
    { apply in_map. by apply list_elem_of_In. }
    rewrite Hids in Hid. by apply filter_In in Hid as [? _].
Qed.

(** X18.  The remove button of a sidebar row removes.  The button
    calls [toggleFavorite], which would add an id that the set lacks;
    but in every state the page can reach, a row of the sidebar shows a
    record of the catalog whose id is in the set.  So a click on the
    remove button of row k deletes that id from the set and leaves the
    other ids in their order, stores the new set, and leaves a sidebar
    without a row for the image and a counter showing the new size. *)
Theorem sidebar_remove_removes `{Collator} (catalog : list ImageRecord)
    (st : State) (k : nat) (imgData : ImageRecord) :
  reachable catalog st →
  favoritesList st !! k = Some (FavoritesItem imgData) →
  let st' := handle catalog (ClickSidebarRemove k) st in
  In imgData catalog ∧
  setHas (favorites st) (id imgData) = true ∧
  favorites st' = setDelete (favorites st) (id imgData) ∧
  setHas (favorites st') (id imgData) = false ∧
  sidebarHas st' (id imgData) = false ∧
  favoriteCount_text st' = pretty (length (favorites st')) ∧
  localStorage st' !! "gallery_favorites" = Some (JSON_stringify (favorites st')).
Proof.
  intros Hr Hl st'.
  destruct (reachable_FavoritesInv catalog st Hr) as (_ & Hrows & _).
  assert (Hrow : In imgData catalog ∧ setHas (favorites st) (id imgData) = true).
  { rewrite Hrows in Hl. destruct (favorites st) as [|y favs] eqn:Hf.
    - by destruct k as [|[|k]].
    - by apply sidebarRows_row in Hl. }
  destruct Hrow as [Hin Hhas].
  assert (Hst : st' = onSidebarRemove catalog imgData st).
  { subst st'. cbn [handle]. by rewrite Hl. }
  pose (s1 := toggleFavorite catalog (id imgData) None st).
  assert (Hv : favView st' = favView (renderFavoritesSidebar catalog s1)).
  { rewrite Hst. unfold onSidebarRemove. cbn zeta. apply resetAndRender_favView. }
  unfold favView in Hv. injection Hv as Hf Hfl Hc Hs.
  assert (Hf1 : favorites s1 = setDelete (favorites st) (id imgData)).
  { unfold s1. rewrite toggleFavorite_favorites. unfold toggled. by rewrite Hhas. }
  rewrite renderFavoritesSidebar_favorites in Hf.
  rewrite renderFavoritesSidebar_localStorage in Hs.
  rewrite renderFavoritesSidebar_favoritesList in Hfl.
  assert (Hgone : setHas (favorites st') (id imgData) = false).
  { by rewrite Hf, Hf1, setHas_delete, String.eqb_refl, andb_false_r. }
  split; [done|]. split; [done|]. split; [by rewrite Hf|]. split; [done|].
  split.
  { rewrite <- Hgone. unfold sidebarHas. rewrite Hfl, Hf.
    destruct (_ =? _) eqn:Hz.
    - apply Z.eqb_eq in Hz. destruct (favorites s1); [done | cbn in Hz; lia].
    - apply sidebarRows_has. by exists imgData. }
  split.
  { rewrite Hc, Hf. unfold renderFavoritesSidebar, updateFavoriteCount. cbn zeta.
    by destruct (_ =? _). }
  rewrite Hs, Hf. unfold s1. rewrite toggleFavorite_localStorage, lookup_insert.
  rewrite toggleFavorite_favorites. by destruct (decide _).
Qed.

Lemma sidebar_remove_removes_witness :
  favorites favoritedInGrid = ["20"] ∧
  favorites (handle (H := codeUnitCollator) IMAGES (ClickSidebarRemove 0) favoritedInGrid)
    = [].
Proof.
  assert (Hl : favoritesList favoritedInGrid !! 0%nat
               = Some (FavoritesItem
       (mkImage "20" "Glass Tower" "Reflections on glass facade." "architecture"
          "image/photo20.avif" "2025-08-03" 125)))
    by (vm_compute; reflexivity).
  pose proof (sidebar_remove_removes (H := codeUnitCollator) IMAGES favoritedInGrid 0 _
                favoritedInGrid_reachable Hl) as Hw.
  cbn zeta in Hw. destruct Hw as (_ & _ & Hf & _).
  split; [vm_compute; reflexivity|]. rewrite Hf. vm_compute. reflexivity.
Defined.

(** ** The theme *)

Module ThemeFacts.
Import Theme.

Lemma toggleTheme_flips (p : Page) :
  isDarkValue (dataTheme (toggleTheme p)) = negb (isDarkValue (dataTheme p)).
Proof. unfold toggleTheme. cbn zeta. by destruct (isDarkValue (dataTheme p)). Qed.

Lemma toggleTheme_fields (p : Page) :
  let dark := negb (isDarkValue (dataTheme p)) in
  dataTheme (toggleTheme p) = (if dark then Some "dark" else None) ∧
  themeToggle_icon (toggleTheme p) = (if dark then IconSun else IconMoon) ∧
  localStorage (toggleTheme p) =
    <[DARK_THEME_KEY := if dark then "dark" else "light"]> (localStorage p).
Proof. unfold toggleTheme. cbn zeta. by destruct (isDarkValue (dataTheme p)). Qed.

End ThemeFacts.

(** X19.  The theme toggles between two states that the storage
    follows.  After a click on the theme button the attribute is
    either "dark" or absent, the opposite of what it was; the button
    shows the sun in the dark theme and the moon in the light one; the
    storage holds "dark" or "light" accordingly under "gallery_theme",
    and no other key of the storage is touched (the favorites are
    safe).  A second and a third click lead back to the state after the
    first: attribute, button and storage. *)
Theorem theme_toggle_alternates (p : Theme.Page) :
  let p1 := Theme.toggleTheme p in
  let p2 := Theme.toggleTheme p1 in
  let p3 := Theme.toggleTheme p2 in
  let dark := negb (Theme.isDarkValue (Theme.dataTheme p)) in
  Theme.dataTheme p1 = (if dark then Some "dark" else None) ∧
  Theme.themeToggle_icon p1 = (if dark then Theme.IconSun else Theme.IconMoon) ∧
  Theme.localStorage p1 !! Theme.DARK_THEME_KEY
    = Some (if dark then "dark" else "light") ∧
  (∀ key, key ≠ Theme.DARK_THEME_KEY →
          Theme.localStorage p1 !! key = Theme.localStorage p !! key) ∧
  Theme.isDarkValue (Theme.dataTheme p2) = Theme.isDarkValue (Theme.dataTheme p) ∧
  p3 = p1.
Proof.
  intros p1 p2 p3 dark.
  destruct (ThemeFacts.toggleTheme_fields p) as (D1 & I1 & S1).
  fold p1 dark in D1, I1, S1.
  split; [exact D1|]. split; [exact I1|].
  split; [by rewrite S1, lookup_insert_eq|].
  split; [intros key Hk; by rewrite S1, lookup_insert_ne|].
  split.
  { subst p2. rewrite ThemeFacts.toggleTheme_flips. subst p1.
    rewrite ThemeFacts.toggleTheme_flips. apply negb_involutive. }
  destruct (ThemeFacts.toggleTheme_fields p1) as (D2 & I2 & S2). fold p2 in D2, I2, S2.
  destruct (ThemeFacts.toggleTheme_fields p2) as (D3 & I3 & S3). fold p3 in D3, I3, S3.
  assert (F1 : Theme.isDarkValue (Theme.dataTheme p1) = dark).
  { subst p1. apply ThemeFacts.toggleTheme_flips. }
  assert (F2 : Theme.isDarkValue (Theme.dataTheme p2) = negb dark).
  { subst p2. by rewrite ThemeFacts.toggleTheme_flips, F1. }
  rewrite F1 in D2, I2, S2. rewrite F2, negb_involutive in D3, I3, S3.
  destruct p1 as [d1 i1 s1], p3 as [d3 i3 s3]. cbn in *.
  rewrite D3, I3, S3, S2, D1, I1, !insert_insert_eq. f_equal.
  rewrite S1. by rewrite insert_insert_eq.
Qed.

(** X20.  The theme survives a reload, and only "dark" means dark.
    [applyStoredTheme] on a freshly loaded page makes the theme dark
    exactly when the storage holds the string "dark" under
    "gallery_theme" (no entry, "light" or any other text give the light
    theme, whatever attribute the markup carries), shows the matching
    button and writes nothing.  So after [toggleTheme], loading the
    page again over the storage it left restores the attribute and the
    button of the toggled page. *)
Theorem theme_survives_reload (p : Theme.Page) (markupTheme : option string)
    (storage : gmap string string) :
  let loaded := Theme.applyStoredTheme (Theme.freshPage markupTheme storage) in
  let toggled := Theme.toggleTheme p in
  let reloaded :=
    Theme.applyStoredTheme (Theme.freshPage markupTheme (Theme.localStorage toggled)) in
  (Theme.dataTheme loaded = Some "dark" ↔
   storage !! Theme.DARK_THEME_KEY = Some "dark") ∧
  (Theme.dataTheme loaded = None ↔
   storage !! Theme.DARK_THEME_KEY ≠ Some "dark") ∧
  Theme.themeToggle_icon loaded =
    (if Theme.isDarkValue (Theme.dataTheme loaded) then Theme.IconSun
     else Theme.IconMoon) ∧
  Theme.localStorage loaded = storage ∧
  reloaded = toggled.
Proof.
  intros loaded toggled reloaded.
  assert (Hdark : ∀ x, Theme.isDarkValue x = true ↔ x = Some "dark").
  { intros [v|]; cbn; [|by split].
    destruct (String.eqb_spec v "dark") as [->|Hne]; split; try done.
    intros [= ->]. done. }
  assert (Hload : ∀ m s,
            Theme.applyStoredTheme (Theme.freshPage m s) =
            if Theme.isDarkValue (s !! Theme.DARK_THEME_KEY)
            then Theme.mkPage (Some "dark") Theme.IconSun s
            else Theme.mkPage None Theme.IconMoon s).
  { intros m s. unfold Theme.applyStoredTheme, Theme.freshPage. cbn.
    by destruct (Theme.isDarkValue _). }
  subst loaded. rewrite Hload.
  destruct (Theme.isDarkValue (storage !! Theme.DARK_THEME_KEY)) eqn:Hs; cbn.
  - apply Hdark in Hs. split; [done|]. split; [split; [done | by rewrite Hs]|].
    split; [done|]. split; [done|].
    subst reloaded. rewrite Hload.
    destruct (ThemeFacts.toggleTheme_fields p) as (D1 & I1 & S1). fold toggled in D1, I1, S1.
    rewrite S1, lookup_insert_eq. destruct toggled as [d i s]. cbn in *.
    rewrite D1, I1, S1. by destruct (negb _).
  - assert (Hn : storage !! Theme.DARK_THEME_KEY ≠ Some "dark").
    { intros He. apply Hdark in He. congruence. }
    split; [split; [done | by intros ?]|]. split; [done|]. split; [done|]. split; [done|].
    subst reloaded. rewrite Hload.
    destruct (ThemeFacts.toggleTheme_fields p) as (D1 & I1 & S1). fold toggled in D1, I1, S1.
    rewrite S1, lookup_insert_eq. destruct toggled as [d i s]. cbn in *.
    rewrite D1, I1, S1. by destruct (negb _).
Qed.
